(** * The settings framework of [sipsimple.configuration]

    A shallow embedding of [sipsimple/configuration/__init__.py]: the
    [Setting] descriptor with its per-owner dictionaries, the group
    descriptor [SettingsGroupMeta], the recursive protocol of
    [SettingsState] (modified-value collection, dirty clearing, pickling
    state), and [SettingsObject.save] / [SettingsObject.delete] on top of
    [ConfigurationManager] and an [IBackend].

    Python objects are mutable and shared, so every method is a state
    transformer that may raise: [M S A := S -> outcome A * S].  The
    dictionaries keyed by [id(obj)] are [gmap]s keyed by object identity. *)

From stdpp Require Import base option gmap strings list fin_maps pretty.
From Stdlib Require Import ZArith Lia.

Open Scope string_scope.

(** ** Python values, exceptions and the state-and-exception monad *)

(** [id(obj)]: the identity of a live Python object. *)
Definition oid := positive.
Bind Scope positive_scope with oid.

(** The values a setting can hold.  [VDefaultValue] is the class object
    [DefaultValue] itself (the source tests [value is DefaultValue]);
    [VInstance cid o] is a reference to the settings-group instance [o],
    an instance of the class whose identity is [cid]. *)
Inductive value : Type :=
  | VNone
  | VDefaultValue
  | VBool (b : bool)
  | VInt (n : Z)
  | VStr (s : string)
  | VInstance (cid : positive) (o : oid).

(** Exceptions: the classes raised in the module, and the ones of the
    backend interface.  All of them derive from Python's [Exception]. *)
Inductive exn : Type :=
  | ValueError (msg : string)
  | TypeError (msg : string)
  | RuntimeError (msg : string)
  | ConfigurationBackendError (msg : string)
  | DuplicateSectionError
  | UnknownSectionError
  | UnknownNameError.

Inductive outcome (A : Type) : Type :=
  | Return (a : A)
  | Raise (e : exn).
Arguments Return {A} a.
Arguments Raise {A} e.

Definition M (S A : Type) : Type := S -> outcome A * S.

Definition ret {S A} (a : A) : M S A := fun s => (Return a, s).
Definition raise {S A} (e : exn) : M S A := fun s => (Raise e, s).
Definition bind {S A B} (m : M S A) (k : A -> M S B) : M S B :=
  fun s => match m s with
           | (Return a, s') => k a s'
           | (Raise e, s') => (Raise e, s')
           end.
Definition modify {S} (f : S -> S) : M S unit := fun s => (Return tt, f s).
Definition gets {S A} (f : S -> A) : M S A := fun s => (Return (f s), s).

Notation "x <- m ;; k" := (bind m (fun x => k))
  (at level 100, m at next level, k at level 200, right associativity).
Notation "m ;;; k" := (bind m (fun _ => k))
  (at level 100, k at level 200, right associativity).

(** [try: m except Exception, e: h e]. *)
Definition try_except {S A} (m : M S A) (h : exn -> M S A) : M S A :=
  fun s => match m s with
           | (Return a, s') => (Return a, s')
           | (Raise e, s') => h e s'
           end.

(** [try: m finally: f]: [f] runs on both exits; when [f] completes, the
    outcome of [m] stands. *)
Definition try_finally {S A} (m : M S A) (f : M S unit) : M S A :=
  fun s => match m s with
           | (r, s') => match f s' with
                        | (Return _, s'') => (r, s'')
                        | (Raise e, s'') => (Raise e, s'')
                        end
           end.

(** The [type] argument of a [Setting]: a class, used through
    [isinstance(value, type)] and through its constructor [type(value)],
    which may raise. *)
Record pytype : Type := PyType {
  isinstance : value -> bool;
  construct : value -> outcome value
}.

Definition is_None (v : value) : bool :=
  match v with VNone => true | _ => false end.

(** Sample classes: [bool] ([bool(x)] is the truth value of [x]) and
    [str] ([str(x)] is the printed form of [x]: the decimal digits of an
    integer, the name of a constant).  The printed form of a group
    instance shows its class name and its address, which the values here
    do not carry: [py_str] is not used at a [VInstance]. *)
Definition py_bool : pytype :=
  {| isinstance v := match v with VBool _ => true | _ => false end;
     construct v := match v with
                    | VNone => Return (VBool false)
                    | VBool b => Return (VBool b)
                    | VInt n => Return (VBool (negb (Z.eqb n 0)))
                    | VStr s => Return (VBool (negb (String.eqb s "")))
                    | _ => Return (VBool true)
                    end |}.

Definition py_str : pytype :=
  {| isinstance v := match v with VStr _ => true | _ => false end;
     construct v := match v with
                    | VStr s => Return (VStr s)
                    | VNone => Return (VStr "None")
                    | VBool true => Return (VStr "True")
                    | VBool false => Return (VStr "False")
                    | VInt n => Return (VStr (pretty n))
                    | VDefaultValue =>
                        Return (VStr "<class 'sipsimple.configuration.DefaultValue'>")
                    | VInstance _ _ =>
                        Raise (TypeError "str() of an instance is not modelled")
                    end |}.

(** ** [class Setting]: the descriptor and its per-owner dictionaries *)

Module Setting.

(** The attributes assigned in [Setting.__init__]. *)
Record t : Type := mk {
  type : pytype;
  default : value;
  nillable : bool;
  objects : gmap oid value;
  oldobjects : gmap oid value;
  dirty : gmap oid bool
}.

(** [Setting(type, default=None, nillable=False)]. *)
Definition __init__ (ty : pytype) (dflt : value) (nil : bool) : t :=
  mk ty dflt nil ∅ ∅ ∅.

Definition with_objects (f : gmap oid value -> gmap oid value) (self : t) : t :=
  mk (type self) (default self) (nillable self)
     (f (objects self)) (oldobjects self) (dirty self).
Definition with_oldobjects (f : gmap oid value -> gmap oid value) (self : t) : t :=
  mk (type self) (default self) (nillable self)
     (objects self) (f (oldobjects self)) (dirty self).
Definition with_dirty (f : gmap oid bool -> gmap oid bool) (self : t) : t :=
  mk (type self) (default self) (nillable self)
     (objects self) (oldobjects self) (f (dirty self)).

(** [__get__(self, obj, objtype)] for an instance [obj]:
    [self.objects.get(id(obj), self.default)]. *)
Definition __get__ (self : t) (obj : oid) : value :=
  from_option id (default self) (objects self !! obj).

(** [self.type(value)] when [value] is not yet an instance. *)
Definition coerce (self : t) (v : value) : M t value :=
  if isinstance (type self) v then ret v
  else fun s => (construct (type self) v, s).

(** [__set__(self, obj, value)]. *)
Definition __set__ (obj : oid) (v : value) : M t unit :=
  (match v with
   | VNone =>
       nil <- gets nillable;;
       if nil then modify (with_objects <[obj := VNone]>)
       else raise (ValueError "Setting attribute is not nillable")
   | VDefaultValue =>
       dflt <- gets default;;
       nil <- gets nillable;;
       if is_None dflt && negb nil
       then raise (ValueError "Setting attribute is not nillable")
       else modify (with_objects (delete obj))
   | _ =>
       self <- gets id;;
       v' <- coerce self v;;
       modify (with_objects <[obj := v']>)
   end);;;
  modify (with_dirty <[obj := true]>).

(** [remove(self, obj)]. *)
Definition remove (obj : oid) : M t unit :=
  modify (with_objects (delete obj));;;
  modify (with_dirty (delete obj)).

(** [isset(self, obj)]: [id(obj) in self.objects]. *)
Definition isset (self : t) (obj : oid) : bool :=
  bool_decide (is_Some (objects self !! obj)).

(** [isdirty(self, obj)]: [self.dirty.get(id(obj), False)]. *)
Definition isdirty (self : t) (obj : oid) : bool :=
  from_option id false (dirty self !! obj).

(** [clear_dirty(self, obj)]: the [KeyError] of [self.objects[id(obj)]]
    is caught and passed over. *)
Definition clear_dirty (obj : oid) : M t unit :=
  modify (with_dirty (delete obj));;;
  cur <- gets (fun self => objects self !! obj);;
  match cur with
  | Some v => modify (with_oldobjects <[obj := v]>)
  | None => ret tt
  end.

(** [get_old(self, obj)]. *)
Definition get_old (self : t) (obj : oid) : value :=
  from_option id (default self) (oldobjects self !! obj).

(** [undo(self, obj)]; [oldobjects.setdefault(k, d)] stores [d] when
    [k] is absent and returns the stored value. *)
Definition undo (obj : oid) : M t unit :=
  modify (with_dirty (delete obj));;;
  old <- (fun self =>
            match oldobjects self !! obj with
            | Some v => (Return v, self)
            | None => (Return (default self),
                       with_oldobjects <[obj := default self]> self)
            end);;
  modify (with_objects <[obj := old]>).

End Setting.

(** ** Python dictionaries keyed by attribute names

    [state] and [modified] are dictionaries built in the order in which
    [dir(self.__class__)] is walked; they are association lists with
    unique keys, listed in insertion order, which is also the order in
    which [iteritems()] is taken to go through them. *)

Definition dict (V : Type) : Type := list (string * V).

Fixpoint dict_get {V} (k : string) (d : dict V) : option V :=
  match d with
  | [] => None
  | (k', v) :: d' => if String.eqb k k' then Some v else dict_get k d'
  end.

(** [d[k] = v]. *)
Fixpoint dict_set {V} (k : string) (v : V) (d : dict V) : dict V :=
  match d with
  | [] => [(k, v)]
  | (k', v') :: d' =>
      if String.eqb k k' then (k, v) :: d' else (k', v') :: dict_set k v d'
  end.

(** [d.pop(k, None)]. *)
Fixpoint dict_pop {V} (k : string) (d : dict V) : dict V :=
  match d with
  | [] => []
  | (k', v') :: d' =>
      if String.eqb k k' then d' else (k', v') :: dict_pop k d'
  end.

(** [d.update(d2)]. *)
Definition dict_update {V} (d d2 : dict V) : dict V :=
  fold_left (fun acc kv => dict_set (fst kv) (snd kv) acc) d2 d.

(** ** Classes of the settings tree

    A class is seen through [dir(cls)]: the names, in the order of
    [dir], of its attributes that are [Setting] descriptors or settings
    group classes (every other name is skipped by each loop of
    [SettingsState]).  A [Setting] attribute is a reference [sid] to the
    descriptor object; a group attribute is the group class itself.  [cid]
    is the identity of the class object. *)

Inductive pyclass : Type :=
  | PyClass (cid : positive) (dir : members)
with members : Type :=
  | dir_nil
  | dir_setting (name : string) (sid : positive) (rest : members)
  | dir_group (name : string) (c : pyclass) (rest : members).

Scheme pyclass_members_ind := Induction for pyclass Sort Prop
  with members_pyclass_ind := Induction for members Sort Prop.
Combined Scheme pyclass_mutind from pyclass_members_ind, members_pyclass_ind.

Definition class_id (cls : pyclass) : positive :=
  match cls with PyClass cid _ => cid end.
Definition class_dir (cls : pyclass) : members :=
  match cls with PyClass _ dir => dir end.

Inductive attribute : Type :=
  | ASetting (sid : positive)
  | AGroup (c : pyclass).

(** [getattr(cls, name, None)] restricted to the two kinds of attribute. *)
Fixpoint getattr_class (dir : members) (name : string) : option attribute :=
  match dir with
  | dir_nil => None
  | dir_setting n sid rest =>
      if String.eqb name n then Some (ASetting sid) else getattr_class rest name
  | dir_group n c rest =>
      if String.eqb name n then Some (AGroup c) else getattr_class rest name
  end.

Fixpoint member_names (dir : members) : list string :=
  match dir with
  | dir_nil => []
  | dir_setting n _ rest => n :: member_names rest
  | dir_group n _ rest => n :: member_names rest
  end.

(** ** The store: descriptor objects, group caches, allocation *)

(** [object]: the class every value is an instance of. *)
Definition py_object : pytype :=
  {| isinstance _ := true; construct v := Return v |}.

#[global] Instance Setting_inhabited : Inhabited Setting.t :=
  populate (Setting.__init__ py_object VNone false).

(** [descriptors] holds the [Setting] objects by identity, [group_objects]
    the dictionary [cls.objects] of every group class by class identity,
    [next_id] the identity of the next object to be created.  Every new
    object gets an identity of its own: the reuse of the [id()] of a
    collected object by a later one is left out. *)
Record store : Type := Store {
  descriptors : gmap positive Setting.t;
  group_objects : gmap positive (gmap oid oid);
  next_id : oid
}.

Definition descriptor (sid : positive) (σ : store) : Setting.t :=
  descriptors σ !!! sid.
Definition cache (cid : positive) (σ : store) : gmap oid oid :=
  group_objects σ !!! cid.

Definition set_descriptor (sid : positive) (s : Setting.t) (σ : store) : store :=
  Store (<[sid := s]> (descriptors σ)) (group_objects σ) (next_id σ).
Definition set_cache (cid : positive) (m : gmap oid oid) (σ : store) : store :=
  Store (descriptors σ) (<[cid := m]> (group_objects σ)) (next_id σ).

(** A method of the descriptor [sid], run on the store. *)
Definition at_descriptor {A} (sid : positive) (m : M Setting.t A) : M store A :=
  fun σ => match m (descriptor sid σ) with
           | (r, s') => (r, set_descriptor sid s' σ)
           end.

(** [cls()] for a settings class: a new object, with a new identity. *)
Definition new_instance : M store oid :=
  fun σ => (Return (next_id σ),
            Store (descriptors σ) (group_objects σ) (Pos.succ (next_id σ))).

(** ** [class SettingsGroupMeta]: group classes as descriptors *)

Module SettingsGroupMeta.

(** [__get__(cls, obj, objtype)] for an instance [obj]. *)
Definition __get__ (cls : pyclass) (obj : oid) : M store oid :=
  objects <- gets (cache (class_id cls));;
  match objects !! obj with
  | Some attribute => ret attribute
  | None =>
      attribute <- new_instance;;
      modify (fun σ => set_cache (class_id cls)
                         (<[obj := attribute]> (cache (class_id cls) σ)) σ);;;
      ret attribute
  end.

(** [__set__(cls, obj, value)].  [isinstance(value, cls)] is decided on
the class of the instance: a [VInstance] carries the identity of its
class, and the classes here have no subclasses, so the test holds of the
instances of [cls] itself; values that are not group instances fail it. *)
Definition __set__ (cls : pyclass) (obj : oid) (v : value) : M store unit :=
  match v with
  | VInstance c o =>
      if Pos.eqb c (class_id cls)
      then modify (fun σ => set_cache (class_id cls)
                              (<[obj := o]> (cache (class_id cls) σ)) σ)
      else raise (TypeError "illegal type for SettingsGroup attribute")
  | _ => raise (TypeError "illegal type for SettingsGroup attribute")
  end.

(** [remove(self, obj)]. *)
Definition remove (cls : pyclass) (obj : oid) : M store unit :=
  modify (fun σ => set_cache (class_id cls)
                     (delete obj (cache (class_id cls) σ)) σ).

End SettingsGroupMeta.

(** ** [class SettingsState]: the recursive protocol *)

(** [ModifiedValue(old, new)]. *)
Record ModifiedValue : Type := mkModifiedValue { old : value; new : value }.

Module SettingsState.

(** [name+'.'+k if k else name]. *)
Definition path_key (name k : string) : string :=
  if String.eqb k "" then name else name ++ "." ++ k.

Definition prefixed (name : string) (d : dict ModifiedValue) : dict ModifiedValue :=
  map (fun kv => (path_key name (fst kv), snd kv)) d.

(** [get_modified(self)], [self] an instance of [cls]. *)
Fixpoint get_modified (cls : pyclass) (self : oid) {struct cls}
  : M store (dict ModifiedValue) :=
  match cls with
  | PyClass _ dir => get_modified_loop dir self []
  end
with get_modified_loop (dir : members) (self : oid)
       (modified : dict ModifiedValue) {struct dir}
  : M store (dict ModifiedValue) :=
  match dir with
  | dir_nil => ret modified
  | dir_group name c rest =>
      child <- SettingsGroupMeta.__get__ c self;;
      modified_settings <- get_modified c child;;
      get_modified_loop rest self
        (dict_update modified (prefixed name modified_settings))
  | dir_setting name sid rest =>
      attribute <- gets (descriptor sid);;
      if Setting.isdirty attribute self
      then get_modified_loop rest self
             (dict_set name
                (mkModifiedValue (Setting.get_old attribute self)
                                 (Setting.__get__ attribute self))
                modified)
      else get_modified_loop rest self modified
  end.

(** [clear_dirty(self)]. *)
Fixpoint clear_dirty (cls : pyclass) (self : oid) {struct cls} : M store unit :=
  match cls with
  | PyClass _ dir => clear_dirty_loop dir self
  end
with clear_dirty_loop (dir : members) (self : oid) {struct dir} : M store unit :=
  match dir with
  | dir_nil => ret tt
  | dir_group name c rest =>
      child <- SettingsGroupMeta.__get__ c self;;
      clear_dirty c child;;;
      clear_dirty_loop rest self
  | dir_setting name sid rest =>
      attribute <- gets (descriptor sid);;
      (if Setting.isdirty attribute self
       then at_descriptor sid (Setting.clear_dirty self)
       else ret tt);;;
      clear_dirty_loop rest self
  end.

(** The loop of [__getstate__(self)]. *)
Fixpoint getstate_loop (dir : members) (self : oid) (state : dict value)
  : M store (dict value) :=
  match dir with
  | dir_nil => ret state
  | dir_group name c rest =>
      child <- SettingsGroupMeta.__get__ c self;;
      getstate_loop rest self (dict_set name (VInstance (class_id c) child) state)
  | dir_setting name sid rest =>
      attribute <- gets (descriptor sid);;
      if Setting.isset attribute self
      then getstate_loop rest self
             (dict_set name (Setting.__get__ attribute self) state)
      else getstate_loop rest self state
  end.

(** [__getstate__(self)]. *)
Definition __getstate__ (cls : pyclass) (self : oid) : M store (dict value) :=
  state <- getstate_loop (class_dir cls) self [];;
  match state with
  | [] => ret (dict_set "__dummy__" VNone state)
  | _ => ret state
  end.

(** [setattr(self, name, value)]: a [Setting] and a group class are
    data descriptors, so the assignment goes to their [__set__]; any
    other name lands in the instance's own [__dict__], which none of
    the methods below reads. *)
Definition setattr (cls : pyclass) (self : oid) (name : string) (v : value)
  : M store unit :=
  match getattr_class (class_dir cls) name with
  | Some (ASetting sid) => at_descriptor sid (Setting.__set__ self v)
  | Some (AGroup c) => SettingsGroupMeta.__set__ c self v
  | None => ret tt
  end.

(** The loop of [__setstate__] over [state.iteritems()]. *)
Fixpoint setstate_loop (cls : pyclass) (self : oid) (items : dict value)
  : M store unit :=
  match items with
  | [] => ret tt
  | (name, v) :: items' =>
      setattr cls self name v;;;
      (match getattr_class (class_dir cls) name with
       | Some (ASetting sid) => at_descriptor sid (Setting.clear_dirty self)
       | _ => ret tt
       end);;;
      setstate_loop cls self items'
  end.

(** [__setstate__(self, state)]. *)
Definition __setstate__ (cls : pyclass) (self : oid) (state : dict value)
  : M store unit :=
  setstate_loop cls self (dict_pop "__dummy__" state).

End SettingsState.

(** ** Pickling: how [cPickle] drives [__getstate__] and [__setstate__]

    [cPickle.dumps(obj)] saves the class of [obj] and the dictionary
    returned by [obj.__getstate__()], pickling in turn every settings
    group instance found in it; the instance stored under a name is an
    instance of the group class of that name ([SettingsGroupMeta.__set__]
    admits no other).  A pickle keeps the state dictionary and, by name,
    the pickles of the instances it refers to; an instance reached under
    two names is pickled under each (the memo of [cPickle] is left out). *)

Inductive pickled : Type :=
  | PObject (cls : pyclass) (state : dict value) (children : pickles)
with pickles : Type :=
  | pk_nil
  | pk_cons (name : string) (p : pickled) (rest : pickles).

Scheme pickled_pickles_ind := Induction for pickled Sort Prop
  with pickles_pickled_ind := Induction for pickles Sort Prop.
Combined Scheme pickled_mutind from pickled_pickles_ind, pickles_pickled_ind.

Definition pickled_class (p : pickled) : pyclass :=
  match p with PObject cls _ _ => cls end.

Module cPickle.

(** [dumps(obj)] for an instance [self] of [cls]. *)
Fixpoint dumps (cls : pyclass) (self : oid) {struct cls} : M store pickled :=
  match cls with
  | PyClass _ dir =>
      state <- SettingsState.__getstate__ cls self;;
      children <- dumps_children dir state;;
      ret (PObject cls state children)
  end
with dumps_children (dir : members) (state : dict value) {struct dir}
  : M store pickles :=
  match dir with
  | dir_nil => ret pk_nil
  | dir_setting _ _ rest => dumps_children rest state
  | dir_group name c rest =>
      match dict_get name state with
      | Some (VInstance _ child) =>
          p <- dumps c child;;
          ps <- dumps_children rest state;;
          ret (pk_cons name p ps)
      | _ => dumps_children rest state
      end
  end.

(** [loads(data)]: the object is created first ([object.__new__(cls)]),
    then the instances of its state are rebuilt, then
    [__setstate__(state)] is called with the rebuilt state. *)
Fixpoint loads (p : pickled) {struct p} : M store oid :=
  match p with
  | PObject cls state children =>
      self <- new_instance;;
      state' <- loads_children children state;;
      SettingsState.__setstate__ cls self state';;;
      ret self
  end
with loads_children (ps : pickles) (state : dict value) {struct ps}
  : M store (dict value) :=
  match ps with
  | pk_nil => ret state
  | pk_cons name p rest =>
      child <- loads p;;
      loads_children rest
        (dict_set name (VInstance (class_id (pickled_class p)) child) state)
  end.

End cPickle.

(** ** [IBackend] and [ConfigurationManager] *)

(** The interface [IBackend]; the data a backend stores is what
    [cPickle.dumps] returns. *)
Class IBackend (B : Type) : Type := {
  add_section : string -> M B unit;
  delete_section : string -> M B unit;
  backend_set : string -> string -> pickled -> M B unit;
  backend_delete : string -> string -> M B unit;
  backend_get : string -> string -> M B pickled;
  get_names : string -> M B (list string);
  backend_save : M B unit
}.

(** A [str] object: its identity and its characters.  Two objects with
    the same characters are [==]; they are the same object ([is]) when
    their identities agree. *)
Record pystring : Type := PyString { str_id : oid; str_chars : string }.

(** [a is b] where [b] may be [None]. *)
Definition is_ (a : pystring) (b : option pystring) : bool :=
  match b with
  | Some b => Pos.eqb (str_id a) (str_id b)
  | None => false
  end.

(** The calls received by the backend, in order. *)
Inductive backend_call : Type :=
  | CallAddSection (section : string)
  | CallSet (section name : string)
  | CallDelete (section name : string)
  | CallGet (section name : string)
  | CallGetNames (section : string)
  | CallSave.

(** The notifications posted by [SettingsObject.save]. *)
Inductive notification : Type :=
  | CFGManagerSaveFailed (object : oid) (modified : dict ModifiedValue)
      (exception : exn)
  | CFGSettingsDidChange (sender : oid) (modified : dict ModifiedValue).

(** The process: the store of the settings trees, the attribute [backend]
    of the [ConfigurationManager] singleton ([None] until [start]), the
    calls made to the backend, the notifications posted to the
    [NotificationCenter], and the registry [_instances] that the
    [Singleton] metaclass keeps for every class (constructor argument and
    instance). *)
Record world (B : Type) : Type := World {
  w_store : store;
  w_backend : option B;
  w_calls : list backend_call;
  w_posted : list notification;
  w_instances : gmap positive (list (option string * oid))
}.
Arguments World {B} _ _ _ _ _.
Arguments w_store {B} _.
Arguments w_backend {B} _.
Arguments w_calls {B} _.
Arguments w_posted {B} _.
Arguments w_instances {B} _.

Definition in_store {B A} (m : M store A) : M (world B) A :=
  fun w => match m (w_store w) with
           | (r, σ') => (r, World σ' (w_backend w) (w_calls w) (w_posted w)
                                (w_instances w))
           end.

(** [NotificationCenter().post_notification(...)]. *)
Definition post_notification {B} (n : notification) : M (world B) unit :=
  modify (fun w => World (w_store w) (w_backend w) (w_calls w)
                     (w_posted w ++ [n]) (w_instances w)).

Module ConfigurationManager.

Definition not_started : exn :=
  RuntimeError "ConfigurationManager cannot be used unless started".

(** [if self.backend is None: raise RuntimeError(...)]. *)
Definition check_started {B} : M (world B) unit :=
  b <- gets w_backend;;
  match b with
  | Some _ => ret tt
  | None => raise not_started
  end.

(** A call [self.backend.m(...)]. *)
Definition call {B A} (c : backend_call) (m : M B A) : M (world B) A :=
  fun w => match w_backend w with
           | Some b =>
               match m b with
               | (r, b') => (r, World (w_store w) (Some b') (w_calls w ++ [c])
                                    (w_posted w) (w_instances w))
               end
           | None => (Raise not_started, w)
           end.

(** [start(self, backend)] with an explicit backend. *)
Definition start {B} (backend : B) : M (world B) unit :=
  b <- gets w_backend;;
  match b with
  | Some _ => raise (RuntimeError "ConfigurationManager already started")
  | None => modify (fun w => World (w_store w) (Some backend) (w_calls w)
                               (w_posted w) (w_instances w))
  end.

(** [set(self, section, name, object)]. *)
Definition set {B} `{IBackend B} (section name : string)
    (cls : pyclass) (object : oid) : M (world B) unit :=
  check_started;;;
  data <- in_store (cPickle.dumps cls object);;
  try_except (call (CallSet section name) (backend_set section name data))
    (fun e => match e with
              | UnknownSectionError =>
                  call (CallAddSection section) (add_section section);;;
                  call (CallSet section name) (backend_set section name data)
              | _ => raise e
              end).

(** [delete(self, section, name)]. *)
Definition delete {B} `{IBackend B} (section name : string) : M (world B) unit :=
  check_started;;;
  call (CallDelete section name) (backend_delete section name).

(** [get(self, section, name)]. *)
Definition get {B} `{IBackend B} (section name : string) : M (world B) oid :=
  check_started;;;
  data <- call (CallGet section name) (backend_get section name);;
  in_store (cPickle.loads data).

(** [get_names(self, section)]. *)
Definition get_names {B} `{IBackend B} (section : string) : M (world B) (list string) :=
  check_started;;;
  call (CallGetNames section) (get_names section).

(** [save(self)]. *)
Definition save {B} `{IBackend B} : M (world B) unit :=
  check_started;;;
  call CallSave backend_save.

End ConfigurationManager.

(** ** [class SettingsObject] *)

(** A concrete subclass: its [__name__], its settings, [__section__] and
    [__id__]. *)
Record settings_class : Type := SettingsClass {
  __name__ : string;
  so_class : pyclass;
  __section__ : option string;
  __id__ : option pystring
}.

(** An instance: its identity and the attribute [__id__] that
    [SettingsObject.__new__] assigns to it. *)
Record settings_object : Type := SettingsObject_ {
  so_self : oid;
  so___id__ : pystring
}.

Module SettingsObject.

(** [id = id or cls.__id__] of [__new__]: the argument when it is a
non-empty string, the class attribute otherwise. *)
Definition id_or_default (id : option pystring) (cls : settings_class)
  : option pystring :=
  match id with
  | Some s => if String.eqb (str_chars s) "" then __id__ cls else Some s
  | None => __id__ cls
  end.

(** The body of the [try] of [save]. *)
Definition persist {B} `{IBackend B} (cls : settings_class)
    (self : settings_object) : M (world B) unit :=
  match __section__ cls with
  | Some section =>
      ConfigurationManager.set section (str_chars (so___id__ self))
        (so_class cls) (so_self self);;;
      ConfigurationManager.save
  | None => ret tt
  end.

(** [save(self)]. *)
Definition save {B} `{IBackend B} (cls : settings_class)
    (self : settings_object) : M (world B) unit :=
  modified_settings <-
    in_store (SettingsState.get_modified (so_class cls) (so_self self));;
  match modified_settings with
  | [] => ret tt
  | _ =>
      try_finally
        (try_except (persist cls self)
           (fun e => post_notification
                       (CFGManagerSaveFailed (so_self self) modified_settings e)))
        (post_notification (CFGSettingsDidChange (so_self self) modified_settings);;;
         in_store (SettingsState.clear_dirty (so_class cls) (so_self self)))
  end.

(** [del self.__class__._instances[key]] for the first key whose value
    [is self]; nothing when there is none ([IndexError]). *)
Fixpoint unregister (self : oid) (instances : list (option string * oid))
  : list (option string * oid) :=
  match instances with
  | [] => []
  | (key, v) :: rest =>
      if Pos.eqb v self then rest else (key, v) :: unregister self rest
  end.

(** [delete(self)]; the [TypeError] carries
["cannot delete %s instance with default id" % self.__class__.__name__]. *)
Definition delete {B} `{IBackend B} (cls : settings_class)
    (self : settings_object) : M (world B) unit :=
  if is_ (so___id__ self) (__id__ cls)
  then raise (TypeError ("cannot delete " ++ __name__ cls
                         ++ " instance with default id"))
  else
    modify (fun w =>
      World (w_store w) (w_backend w) (w_calls w) (w_posted w)
        (<[class_id (so_class cls) :=
             unregister (so_self self)
               (w_instances w !!! class_id (so_class cls))]> (w_instances w)));;;
    match __section__ cls with
    | None => ret tt
    | Some section =>
        r <- try_except
               (ConfigurationManager.delete section (str_chars (so___id__ self));;;
                ret true)
               (fun e => match e with
                         | UnknownSectionError => ret false
                         | _ => raise e
                         end);;
        if r : bool then ConfigurationManager.save else ret tt
    end.

End SettingsObject.

(** ** Well-formed stores and the observable tree *)

(** Every key of the per-owner dictionaries, and every instance held in
    a group cache, is an object that exists: its identity is below
    [next_id].  An identity from [next_id] on is that of an object still
    to be created. *)
Definition keys_below {V} (n : oid) (m : gmap oid V) : Prop :=
  map_Forall (fun k _ => (k < n)%positive) m.

Definition wf_setting (n : oid) (s : Setting.t) : Prop :=
  keys_below n (Setting.objects s) ∧
  keys_below n (Setting.oldobjects s) ∧
  keys_below n (Setting.dirty s).

Definition wf_cache (n : oid) (m : gmap oid oid) : Prop :=
  map_Forall (fun k j => (k < n)%positive ∧ (j < n)%positive) m.

Definition wf_store (σ : store) : Prop :=
  map_Forall (fun _ s => wf_setting (next_id σ) s) (descriptors σ) ∧
  map_Forall (fun _ m => wf_cache (next_id σ) m) (group_objects σ).

#[global] Instance keys_below_dec {V} (n : oid) (m : gmap oid V) :
  Decision (keys_below n m).
Proof. unfold keys_below. apply _. Defined.

#[global] Instance wf_setting_dec (n : oid) (s : Setting.t) : Decision (wf_setting n s).
Proof. unfold wf_setting. apply _. Defined.

#[global] Instance wf_cache_dec (n : oid) (m : gmap oid oid) : Decision (wf_cache n m).
Proof. unfold wf_cache. apply _. Defined.

#[global] Instance wf_store_dec (σ : store) : Decision (wf_store σ).
Proof. unfold wf_store. apply _. Defined.

(** What can be observed of one [Setting] attribute of one instance.
    The owner [None] stands for a group instance that has not been
    created yet: it reads as a new instance. *)
Record leaf : Type := Leaf {
  leaf_path : list string;
  leaf_isset : bool;
  leaf_get : value;
  leaf_dirty : bool;
  leaf_old : value
}.

Definition leaf_of (name : string) (s : Setting.t) (o : option oid) : leaf :=
  match o with
  | Some i => Leaf [name] (Setting.isset s i) (Setting.__get__ s i)
                (Setting.isdirty s i) (Setting.get_old s i)
  | None => Leaf [name] false (Setting.default s) false (Setting.default s)
  end.

Definition under (name : string) (l : leaf) : leaf :=
  Leaf (name :: leaf_path l) (leaf_isset l) (leaf_get l) (leaf_dirty l) (leaf_old l).

Definition child_of (c : pyclass) (o : option oid) (σ : store) : option oid :=
  match o with
  | Some i => cache (class_id c) σ !! i
  | None => None
  end.

(** The [Setting] leaves of the tree below an instance of [cls], in the
    order of [dir], each with the path of attribute names that leads to
    it. *)
Fixpoint view (cls : pyclass) (o : option oid) (σ : store) {struct cls} : list leaf :=
  match cls with
  | PyClass _ dir => view_members dir o σ
  end
with view_members (dir : members) (o : option oid) (σ : store) {struct dir}
  : list leaf :=
  match dir with
  | dir_nil => []
  | dir_setting name sid rest =>
      leaf_of name (descriptor sid σ) o :: view_members rest o σ
  | dir_group name c rest =>
      map (under name) (view c (child_of c o σ) σ) ++ view_members rest o σ
  end.

(** The part of a leaf that [isSet] and [get] answer. *)
Definition leaf_value (l : leaf) : list string * bool * value :=
  (leaf_path l, leaf_isset l, leaf_get l).

Definition clean (ls : list leaf) : Prop :=
  Forall (fun l => leaf_dirty l = false) ls.

(** The value that [__set__] would store for [v], when it accepts [v]. *)
Definition stored_by (s : Setting.t) (v : value) : option value :=
  match v with
  | VNone => if Setting.nillable s then Some VNone else None
  | VDefaultValue => None
  | _ => if isinstance (Setting.type s) v then Some v
         else match construct (Setting.type s) v with
              | Return v' => Some v'
              | Raise _ => None
              end
  end.

(** Every value explicitly stored in the tree is one that [__set__]
    accepts and stores as it is. *)
Definition settable (s : Setting.t) (o : option oid) : Prop :=
  match o with
  | Some i => match Setting.objects s !! i with
              | Some v => stored_by s v = Some v
              | None => True
              end
  | None => True
  end.

Fixpoint settable_tree (cls : pyclass) (o : option oid) (σ : store) {struct cls} : Prop :=
  match cls with
  | PyClass _ dir => settable_members dir o σ
  end
with settable_members (dir : members) (o : option oid) (σ : store) {struct dir} : Prop :=
  match dir with
  | dir_nil => True
  | dir_setting _ sid rest =>
      settable (descriptor sid σ) o ∧ settable_members rest o σ
  | dir_group _ c rest =>
      settable_tree c (child_of c o σ) σ ∧ settable_members rest o σ
  end.

(** Equality of classes, by structure. *)
Fixpoint pyclass_eqb (a b : pyclass) {struct a} : bool :=
  match a, b with
  | PyClass ca da, PyClass cb db => Pos.eqb ca cb && members_eqb da db
  end
with members_eqb (a b : members) {struct a} : bool :=
  match a, b with
  | dir_nil, dir_nil => true
  | dir_setting na sa ra, dir_setting nb sb rb =>
      String.eqb na nb && Pos.eqb sa sb && members_eqb ra rb
  | dir_group na ca ra, dir_group nb cb rb =>
      String.eqb na nb && pyclass_eqb ca cb && members_eqb ra rb
  | _, _ => false
  end.

(** The group class that a [dir] holds under the class identity [cid]. *)
Fixpoint group_with_id (cid : positive) (dir : members) : option pyclass :=
  match dir with
  | dir_nil => None
  | dir_setting _ _ rest => group_with_id cid rest
  | dir_group _ c rest =>
      if Pos.eqb (class_id c) cid then Some c else group_with_id cid rest
  end.

(** A class as Python builds it: the names of [dir] are distinct, none is
    the key [__dummy__] reserved by [__getstate__], a class identity
    stands for one class, and the same holds of the group classes. *)
Fixpoint class_ok (cls : pyclass) {struct cls} : bool :=
  match cls with
  | PyClass _ dir => members_ok dir
  end
with members_ok (dir : members) {struct dir} : bool :=
  match dir with
  | dir_nil => true
  | dir_setting name _ rest =>
      negb (String.eqb name "__dummy__")
      && match getattr_class rest name with None => true | Some _ => false end
      && members_ok rest
  | dir_group name c rest =>
      negb (String.eqb name "__dummy__")
      && match getattr_class rest name with None => true | Some _ => false end
      && match group_with_id (class_id c) rest with
         | None => true
         | Some c' => pyclass_eqb c c'
         end
      && class_ok c
      && members_ok rest
  end.

(** The key under which [get_modified] reports a leaf: the names of its
    path joined by dots. *)
Fixpoint key_of (path : list string) : string :=
  match path with
  | [] => ""
  | name :: path' => SettingsState.path_key name (key_of path')
  end.

Definition modified_value (l : leaf) : ModifiedValue :=
  mkModifiedValue (leaf_old l) (leaf_get l).

(** The dirty leaves of a view. *)
Definition dirty_leaves (ls : list leaf) : list leaf := List.filter leaf_dirty ls.

(** A class none of whose attributes is a group class. *)
Fixpoint no_groups (dir : members) : bool :=
  match dir with
  | dir_nil => true
  | dir_setting _ _ rest => no_groups rest
  | dir_group _ _ _ => false
  end.

(** The state that [__getstate__] returns when it finds nothing to save. *)
Definition empty_marker : dict value := [("__dummy__", VNone)].

(** ** Growth of a store by new instances

    Walking a tree creates the group instances that do not exist yet.
    [grows σ σ'] : the caches of [σ'] extend those of [σ] with instances
    that are new in [σ]. *)
Definition grows (σ σ' : store) : Prop :=
  (next_id σ ≤ next_id σ')%positive ∧
  ∀ (cid : positive) (i : oid),
    match cache cid σ !! i with
    | Some j => cache cid σ' !! i = Some j
    | None => cache cid σ' !! i = None
              ∨ ∃ j : oid, cache cid σ' !! i = Some j ∧ (next_id σ ≤ j)%positive
    end.

(** The descriptors are untouched. *)
Definition ext (σ σ' : store) : Prop :=
  descriptors σ' = descriptors σ ∧ grows σ σ'.

(** The descriptors keep their values; dirty flags may be dropped and
    committed values may change. *)
Definition settles (σ σ' : store) : Prop :=
  grows σ σ' ∧
  ∀ sid : positive,
    Setting.type (descriptor sid σ') = Setting.type (descriptor sid σ) ∧
    Setting.default (descriptor sid σ') = Setting.default (descriptor sid σ) ∧
    Setting.nillable (descriptor sid σ') = Setting.nillable (descriptor sid σ) ∧
    Setting.objects (descriptor sid σ') = Setting.objects (descriptor sid σ) ∧
    ∀ i : oid, (Setting.isdirty (descriptor sid σ') i = true →
          Setting.isdirty (descriptor sid σ) i = true) ∧
         (Setting.oldobjects (descriptor sid σ') !! i
            = Setting.oldobjects (descriptor sid σ) !! i
          ∨ (is_Some (Setting.objects (descriptor sid σ) !! i) ∧
             Setting.oldobjects (descriptor sid σ') !! i
               = Setting.objects (descriptor sid σ) !! i)).

(** [l'] reads as [l], except that it may have lost its dirty flag and
    its committed value may have changed. *)
Definition calmer (l l' : leaf) : Prop :=
  leaf_value l' = leaf_value l ∧ (leaf_dirty l' = true → leaf_dirty l = true).

(** What [get_modified] adds to [acc] when the dirty leaves are [ds], for
    no dirty leaf and for one. *)
Definition collected (ds : list leaf) (acc m : dict ModifiedValue) : Prop :=
  match ds with
  | [] => m = acc
  | [l] => m = dict_set (key_of (leaf_path l)) (modified_value l) acc
  | _ => True
  end.


(** The names of [dir], and of the [dir] of every group class below, are
    distinct (as the names listed by Python's [dir] are). *)
Fixpoint names_distinct (cls : pyclass) {struct cls} : bool :=
  match cls with
  | PyClass _ dir => members_distinct dir
  end
with members_distinct (dir : members) {struct dir} : bool :=
  match dir with
  | dir_nil => true
  | dir_setting name _ rest =>
      match getattr_class rest name with None => true | Some _ => false end
      && members_distinct rest
  | dir_group name c rest =>
      match getattr_class rest name with None => true | Some _ => false end
      && names_distinct c
      && members_distinct rest
  end.

(** The explicit value of a setting for an owner, if any. *)
Definition explicit (s : Setting.t) (ow : option oid) : option value :=
  match ow with
  | Some i => Setting.objects s !! i
  | None => None
  end.

(** The items that the loop of [__getstate__] collects for [dir]: one
    for every [Setting] with an explicit value, one for every group,
    whose instance satisfies [G]. *)
Fixpoint state_shape (G : pyclass -> oid -> Prop) (dir : members) (ow : option oid)
    (σ : store) (items : dict value) {struct dir} : Prop :=
  match dir with
  | dir_nil => items = []
  | dir_setting name sid rest =>
      match explicit (descriptor sid σ) ow with
      | Some v => ∃ items', items = (name, v) :: items' ∧ state_shape G rest ow σ items'
      | None => state_shape G rest ow σ items
      end
  | dir_group name c rest =>
      ∃ (j : oid) items', items = (name, VInstance (class_id c) j) :: items' ∧
                          G c j ∧ state_shape G rest ow σ items'
  end.

(** The state returned by [__getstate__] for the collected items. *)
Definition marked (items : dict value) : dict value :=
  match items with
  | [] => empty_marker
  | _ => items
  end.

(** [p] is a pickle of the tree below the owner [ow] in [σ]. *)
Fixpoint is_pickle (cls : pyclass) (ow : option oid) (σ : store) (p : pickled)
    {struct cls} : Prop :=
  match cls with
  | PyClass cid dir =>
      ∃ items children,
        p = PObject (PyClass cid dir) (marked items) children ∧
        state_shape (fun _ _ => True) dir ow σ items ∧
        are_pickles dir ow σ children
  end
with are_pickles (dir : members) (ow : option oid) (σ : store) (ps : pickles)
    {struct dir} : Prop :=
  match dir with
  | dir_nil => ps = pk_nil
  | dir_setting _ _ rest => are_pickles rest ow σ ps
  | dir_group name c rest =>
      ∃ p ps', ps = pk_cons name p ps' ∧
               is_pickle c (child_of c ow σ) σ p ∧
               are_pickles rest ow σ ps'
  end.

(** Two stores declare every descriptor alike. *)
Definition same_statics (σ τ : store) : Prop :=
  ∀ sid : positive,
    Setting.type (descriptor sid τ) = Setting.type (descriptor sid σ) ∧
    Setting.default (descriptor sid τ) = Setting.default (descriptor sid σ) ∧
    Setting.nillable (descriptor sid τ) = Setting.nillable (descriptor sid σ).

(** [τ'] is [τ] on every object that satisfies [P]. *)
Definition agree (P : oid -> Prop) (τ τ' : store) : Prop :=
  same_statics τ τ' ∧
  (∀ (sid : positive) (i : oid), P i →
     Setting.objects (descriptor sid τ') !! i = Setting.objects (descriptor sid τ) !! i ∧
     Setting.oldobjects (descriptor sid τ') !! i = Setting.oldobjects (descriptor sid τ) !! i ∧
     Setting.dirty (descriptor sid τ') !! i = Setting.dirty (descriptor sid τ) !! i) ∧
  (∀ (cid : positive) (i : oid), P i → cache cid τ' !! i = cache cid τ !! i).

(** Every instance of the tree below [j] satisfies [P]. *)
Fixpoint inside (P : oid -> Prop) (cls : pyclass) (j : oid) (τ : store)
    {struct cls} : Prop :=
  match cls with
  | PyClass _ dir => P j ∧ inside_members P dir j τ
  end
with inside_members (P : oid -> Prop) (dir : members) (j : oid) (τ : store)
    {struct dir} : Prop :=
  match dir with
  | dir_nil => True
  | dir_setting _ _ rest => inside_members P rest j τ
  | dir_group _ c rest =>
      match cache (class_id c) τ !! j with
      | Some j' => inside P c j' τ
      | None => True
      end ∧ inside_members P rest j τ
  end.

(** The instance [j] of [τ] reads as the owner [ow] of [σ], is not
    dirty, and all its tree is made of instances from [lo] on. *)
Definition restored (cls : pyclass) (ow : option oid) (σ : store)
    (j : oid) (τ : store) (lo : oid) : Prop :=
  map leaf_value (view cls (Some j) τ) = map leaf_value (view cls ow σ) ∧
  clean (view cls (Some j) τ) ∧
  inside (fun i => (lo ≤ i)%positive) cls j τ.

(** The keys of [pre] are not names of [dir]. *)
Definition apart (pre : dict value) (dir : members) : Prop :=
  ∀ k, getattr_class dir k = None ∨ dict_get k pre = None.


(** What a step of the manager may do to the process, seen from the
    instance [o]: the store only grows by new instances, and nothing is
    posted. *)
Definition calm_step {B} (o : oid) (w w' : world B) : Prop :=
  w_posted w' = w_posted w ∧
  (wf_store (w_store w) → (o < next_id (w_store w))%positive →
   wf_store (w_store w') ∧ ext (w_store w) (w_store w')).

Definition calm {B A} (o : oid) (m : M (world B) A) : Prop :=
  ∀ w r w', m w = (r, w') → calm_step o w w'.

(** While [__setstate__] runs on the new instance [o'], to restore the
    owner [ow] of [σ]: a rebuilt group instance [j] of the class [c], and
    an instance [j] that suits every group class of identity [cid]. *)
Definition good_ref (ow : option oid) (σ : store) (lo : oid) (τ : store)
    (c : pyclass) (j : oid) : Prop :=
  (j < next_id τ)%positive ∧ restored c (child_of c ow σ) σ j τ lo.

Definition good_cache (full : members) (ow : option oid) (σ : store) (lo : oid)
    (τ : store) (cid : positive) (j : oid) : Prop :=
  (j < next_id τ)%positive ∧
  ∀ name c, getattr_class full name = Some (AGroup c) → class_id c = cid →
            restored c (child_of c ow σ) σ j τ lo.

(** What the loop may have done to the entries of [o']. *)
Definition touched (full : members) (o' : oid) (ow : option oid) (σ : store)
    (lo : oid) (τ τ' : store) : Prop :=
  (∀ sid : positive,
     (Setting.dirty (descriptor sid τ') !! o' = Setting.dirty (descriptor sid τ) !! o'
      ∨ Setting.dirty (descriptor sid τ') !! o' = None) ∧
     (Setting.objects (descriptor sid τ') !! o' = Setting.objects (descriptor sid τ) !! o'
      ∨ Setting.objects (descriptor sid τ') !! o' = explicit (descriptor sid σ) ow)) ∧
  (∀ cid : positive,
     cache cid τ' !! o' = cache cid τ !! o'
     ∨ ∃ j : oid, cache cid τ' !! o' = Some j ∧ good_cache full ow σ lo τ' cid j).

(** What the loop has done for the attributes of [dir]. *)
Definition assigned (full dir : members) (o' : oid) (ow : option oid) (σ : store)
    (lo : oid) (τ' : store) : Prop :=
  (∀ name sid v, getattr_class dir name = Some (ASetting sid) →
                 explicit (descriptor sid σ) ow = Some v →
                 Setting.objects (descriptor sid τ') !! o' = Some v) ∧
  (∀ name c, getattr_class dir name = Some (AGroup c) →
             ∃ j : oid, cache (class_id c) τ' !! o' = Some j ∧
                        good_cache full ow σ lo τ' (class_id c) j).

(** ** Sample descriptors and runs *)

(** The state left by a method. *)
Definition exec {S A} (m : M S A) (s : S) : S := snd (m s).
Definition result {S A} (m : M S A) (s : S) : outcome A := fst (m s).

(** [Setting(str, default="d")]. *)
Definition sample_setting : Setting.t := Setting.__init__ py_str (VStr "d") false.

(** [Setting(str)]: default [None], not nillable. *)
Definition bare_setting : Setting.t := Setting.__init__ py_str VNone false.

(** [s = "v"], commit, [s = DefaultValue]: a committed value followed by
    a reset that is not yet committed. *)
Definition reset_after_commit : Setting.t :=
  exec (Setting.__set__ 1 (VStr "v");;;
        Setting.clear_dirty 1;;;
        Setting.__set__ 1 VDefaultValue) sample_setting.

(** A root class with a group [audio] that holds a group [codec] that
    holds the setting [rate]; the root also has the setting [name]. *)
Definition codec_class : pyclass := PyClass 3 (dir_setting "rate" 1 dir_nil).
Definition audio_class : pyclass := PyClass 2 (dir_group "codec" codec_class dir_nil).
Definition root_class : pyclass :=
  PyClass 1 (dir_group "audio" audio_class (dir_setting "name" 2 dir_nil)).

(** The descriptors [rate = Setting(str, default="d")] and
    [name = Setting(str)], and one root instance, of identity 1. *)
Definition sample_store : store :=
  Store (<[2%positive := bare_setting]> (<[1%positive := sample_setting]> ∅)) ∅ 2.

(** [root.audio.codec.rate = "v"] *)
Definition set_rate : M store unit :=
  audio <- SettingsGroupMeta.__get__ audio_class 1;;
  codec <- SettingsGroupMeta.__get__ codec_class audio;;
  at_descriptor 1 (Setting.__set__ codec (VStr "v")).

Definition rate_set_store : store := exec set_rate sample_store.

(** A backend that keeps its sections in memory, as the docstrings of
    [IBackend] describe them; [save] fails when [mb_fail_save] is set. *)
Record memory_backend : Type := MemoryBackend {
  mb_sections : gmap string (gmap string pickled);
  mb_fail_save : bool
}.

#[global] Instance memory_backend_IBackend : IBackend memory_backend := {|
  add_section section := fun b =>
    match mb_sections b !! section with
    | Some _ => (Raise DuplicateSectionError, b)
    | None => (Return tt, MemoryBackend (<[section := ∅]> (mb_sections b)) (mb_fail_save b))
    end;
  delete_section section := fun b =>
    match mb_sections b !! section with
    | Some _ => (Return tt, MemoryBackend (delete section (mb_sections b)) (mb_fail_save b))
    | None => (Raise UnknownSectionError, b)
    end;
  backend_set section name data := fun b =>
    match mb_sections b !! section with
    | Some pairs => (Return tt, MemoryBackend (<[section := <[name := data]> pairs]> (mb_sections b))
                                  (mb_fail_save b))
    | None => (Raise UnknownSectionError, b)
    end;
  backend_delete section name := fun b =>
    match mb_sections b !! section with
    | Some pairs => (Return tt, MemoryBackend (<[section := delete name pairs]> (mb_sections b))
                                  (mb_fail_save b))
    | None => (Raise UnknownSectionError, b)
    end;
  backend_get section name := fun b =>
    match mb_sections b !! section with
    | Some pairs => match pairs !! name with
                    | Some data => (Return data, b)
                    | None => (Raise UnknownNameError, b)
                    end
    | None => (Raise UnknownSectionError, b)
    end;
  get_names section := fun b =>
    match mb_sections b !! section with
    | Some pairs => (Return (map fst (map_to_list pairs)), b)
    | None => (Raise UnknownSectionError, b)
    end;
  backend_save := fun b =>
    if mb_fail_save b
    then (Raise (ConfigurationBackendError "cannot write"), b)
    else (Return tt, b)
|}.

(** The class of the accounts, kept in the section [accounts], with the
    default id [default]. *)
Definition default_id : pystring := PyString 30 "default".
Definition account_class : settings_class :=
  SettingsClass "Account" root_class (Some "accounts") (Some default_id).

(** The account [alice], with a pending change, in a process whose
    backend cannot save. *)
Definition alice : settings_object := SettingsObject_ 1 (PyString 31 "alice").
Definition failing_world : world memory_backend :=
  World rate_set_store (Some (MemoryBackend ∅ true)) [] [] ∅.

(** The instance made without an id carries the class's own [__id__]
    object; another instance carries a string with the same characters
    that is another object. *)
Definition default_account : settings_object := SettingsObject_ 1 default_id.
Definition lookalike_account : settings_object :=
  SettingsObject_ 1 (PyString 32 "default").
Definition registered_world : world memory_backend :=
  World sample_store (Some (MemoryBackend ∅ false)) [] []
    (<[1%positive := [(Some "default", 1%positive)]]> ∅).

(** The same process after the default account was stored: the backend
    holds its record under the default id. *)
Definition saved_world : world memory_backend :=
  exec (ConfigurationManager.set "accounts" "default" root_class 1) registered_world.

(** [root.name] after [undo] on a new root: the setting [name] (default
    [None], not nillable) now holds [None] as an explicit value. *)
Definition undone_store : store := exec (at_descriptor 2 (Setting.undo 1)) sample_store.

(** Pickling an instance and loading the pickle. *)
Definition round_trip (cls : pyclass) (o : oid) : M store oid :=
  p <- cPickle.dumps cls o;; cPickle.loads p.

(** A class with a setting named like the key reserved by
    [__getstate__], holding an explicit value. *)
Definition dummy_class : pyclass := PyClass 5 (dir_setting "__dummy__" 1 dir_nil).
Definition dummy_store : store :=
  exec (at_descriptor 1 (Setting.__set__ 1 (VStr "x"))) sample_store.

(** [flag = Setting(str, default=True)], after [undo] on a new instance:
    the stored value is the default, which is not a [str]. *)
Definition flag_class : pyclass := PyClass 6 (dir_setting "flag" 3 dir_nil).
Definition flag_store : store :=
  exec (at_descriptor 3 (Setting.undo 1))
    (Store (<[3%positive := Setting.__init__ py_str (VBool true) false]> ∅) ∅ 2).

(** ** Further definitions: readings and finalization *)

(** Everything the accessors of a [Setting] answer for one owner. *)
Definition reading (s : Setting.t) (o : oid) : value * bool * bool * value :=
  (Setting.__get__ s o, Setting.isset s o, Setting.isdirty s o, Setting.get_old s o).

(** A sample class that accepts no value:
    [class Rejecting(object)] with
    [def __new__(cls, value): raise ValueError("rejected")].
    It has no instances. *)
Definition py_rejecting : pytype :=
  {| isinstance _ := false; construct _ := Raise (ValueError "rejected") |}.

(** [Setting(Rejecting, nillable=True)] after [s = None] for the owner 1:
    an explicit [None], not yet committed. *)
Definition rejecting_setting : Setting.t :=
  exec (Setting.__set__ 1 VNone) (Setting.__init__ py_rejecting VNone true).

(** A leaf that holds no explicit value and is not dirty. *)
Definition leaf_blank (l : leaf) : Prop :=
  leaf_isset l = false ∧ leaf_dirty l = false.

(** [SettingsState.__del__(self)]: every [Setting] and every group class
    of [dir(self.__class__)] forgets [self].  The [pop] in
    [SettingsGroupMeta.remove] releases the reference that the cache held
    to the child; when nothing else refers to the child, CPython
    finalizes it there and then, which runs the child's own [__del__].
    [live σ j] tells whether something else still refers to the instance
    [j] in the store [σ]. *)
Fixpoint SettingsState___del__ (live : store -> oid -> bool) (cls : pyclass)
    (self : oid) {struct cls} : M store unit :=
  match cls with
  | PyClass _ dir => del_loop live dir self
  end
with del_loop (live : store -> oid -> bool) (dir : members) (self : oid)
    {struct dir} : M store unit :=
  match dir with
  | dir_nil => ret tt
  | dir_setting _ sid rest =>
      at_descriptor sid (Setting.remove self);;;
      del_loop live rest self
  | dir_group _ c rest =>
      child <- gets (fun σ => cache (class_id c) σ !! self);;
      SettingsGroupMeta.remove c self;;;
      (match child with
       | Some j =>
           referenced <- gets (fun σ => live σ j);;
           if referenced : bool then ret tt else SettingsState___del__ live c j
       | None => ret tt
       end);;;
      del_loop live rest self
  end.

(** [σ'] is [σ] after values, dirty flags and cached children of
    instances that satisfy [P] were popped: nothing else differs. *)
Definition popped (P : oid -> Prop) (σ σ' : store) : Prop :=
  next_id σ' = next_id σ ∧
  (∀ sid : positive,
     Setting.default (descriptor sid σ') = Setting.default (descriptor sid σ) ∧
     Setting.oldobjects (descriptor sid σ') = Setting.oldobjects (descriptor sid σ) ∧
     ∀ i : oid,
       (Setting.objects (descriptor sid σ') !! i = Setting.objects (descriptor sid σ) !! i
        ∨ P i ∧ Setting.objects (descriptor sid σ') !! i = None) ∧
       (Setting.dirty (descriptor sid σ') !! i = Setting.dirty (descriptor sid σ) !! i
        ∨ P i ∧ Setting.dirty (descriptor sid σ') !! i = None)) ∧
  (∀ (cid : positive) (i : oid),
     cache cid σ' !! i = cache cid σ !! i ∨ P i ∧ cache cid σ' !! i = None).

(** A process whose [ConfigurationManager] was never started, and one
    started on an empty memory backend, both with the pending change of
    [rate_set_store]. *)
Definition unstarted_world : world memory_backend :=
  World rate_set_store None [] [] ∅.

(** The pickle of the sample root with its pending change. *)
Definition rate_pickle : pickled :=
  Eval vm_compute in
    match result (cPickle.dumps root_class 1) rate_set_store with
    | Return p => p
    | Raise _ => PObject root_class [] pk_nil
    end.

(** * Properties of [Setting] *)

Section SettingFacts.

Implicit Types (s : Setting.t) (o : oid) (v : value).

Lemma isset_true s o : Setting.isset s o = true ↔ is_Some (Setting.objects s !! o).
Proof. unfold Setting.isset. apply bool_decide_eq_true. Qed.

Lemma isset_false s o : Setting.isset s o = false ↔ Setting.objects s !! o = None.
Proof.
  unfold Setting.isset. rewrite bool_decide_eq_false.
  rewrite eq_None_not_Some. reflexivity.
Qed.

Lemma clear_dirty_run s o :
  Setting.clear_dirty o s =
  (Return tt,
   match Setting.objects s !! o with
   | Some v => Setting.with_oldobjects <[o := v]> (Setting.with_dirty (delete o) s)
   | None => Setting.with_dirty (delete o) s
   end).
Proof.
  unfold Setting.clear_dirty, bind, modify, gets, ret. simpl.
  destruct (Setting.objects s !! o); reflexivity.
Qed.

End SettingFacts.

(** C1: after a successful [set(o, v)] of a value that is neither [None]
    nor the reset marker, [get(o)] is [v] when [v] is an instance of the
    declared type and the result of the type's constructor on [v]
    otherwise, and [isDirty(o)] is true, whatever was stored before. *)
Theorem set_get_dirty (s s' : Setting.t) (o : oid) (v : value) :
  v ≠ VNone → v ≠ VDefaultValue →
  Setting.__set__ o v s = (Return tt, s') →
  (if isinstance (Setting.type s) v then Return v
   else construct (Setting.type s) v) = Return (Setting.__get__ s' o)
  ∧ Setting.isdirty s' o = true.
Proof.
  intros Hnone Hdef Hset.
  assert (Hrun : bind (bind (gets id) (fun self => bind (Setting.coerce self v)
                   (fun v' => modify (Setting.with_objects <[o := v']>))))
                   (fun _ => modify (Setting.with_dirty <[o := true]>)) s
                 = (Return tt, s')).
  { destruct v; try congruence; exact Hset. }
  clear Hset. unfold bind, gets, modify, Setting.coerce, ret in Hrun. simpl in Hrun.
  destruct (isinstance (Setting.type s) v) eqn:Hinst.
  - injection Hrun as <-. unfold Setting.__get__, Setting.isdirty. simpl.
    rewrite !lookup_insert_eq. auto.
  - destruct (construct (Setting.type s) v) as [v'|e] eqn:Hc; [|discriminate].
    injection Hrun as <-. unfold Setting.__get__, Setting.isdirty. simpl.
    rewrite !lookup_insert_eq. auto.
Qed.

(** Setting the value that is already stored: the setting reads the same
    and becomes dirty again after a commit. *)
Lemma set_get_dirty_witness :
  let s := exec (Setting.__set__ 1 (VStr "v");;; Setting.clear_dirty 1) sample_setting in
  Setting.__get__ s 1 = VStr "v" ∧ Setting.isdirty s 1 = false ∧
  (Return (VStr "v") = Return (Setting.__get__ (exec (Setting.__set__ 1 (VStr "v")) s) 1)
   ∧ Setting.isdirty (exec (Setting.__set__ 1 (VStr "v")) s) 1 = true).
Proof.
  split; [reflexivity|]. split; [reflexivity|].
  apply (set_get_dirty
           (exec (Setting.__set__ 1 (VStr "v");;; Setting.clear_dirty 1) sample_setting)
           _ 1 (VStr "v")); [discriminate | discriminate | reflexivity].
Defined.



(** C7: [set(o, DefaultValue)] raises the not-nillable [ValueError]
    exactly when the default is [None] and the setting is not nillable,
    and then leaves the descriptor as it was; otherwise it returns, and
    afterwards [get(o)] is the default and [isSet(o)] is false. *)
Theorem reset_to_default (s : Setting.t) (o : oid) :
  (result (Setting.__set__ o VDefaultValue) s
     = Raise (ValueError "Setting attribute is not nillable")
   ↔ Setting.default s = VNone ∧ Setting.nillable s = false) ∧
  (result (Setting.__set__ o VDefaultValue) s
     = Raise (ValueError "Setting attribute is not nillable")
   ∨ result (Setting.__set__ o VDefaultValue) s = Return tt) ∧
  (result (Setting.__set__ o VDefaultValue) s = Return tt →
   Setting.__get__ (exec (Setting.__set__ o VDefaultValue) s) o = Setting.default s ∧
   Setting.isset (exec (Setting.__set__ o VDefaultValue) s) o = false) ∧
  (result (Setting.__set__ o VDefaultValue) s ≠ Return tt →
   exec (Setting.__set__ o VDefaultValue) s = s).
Proof.
  unfold result, exec, Setting.__set__, bind, gets, modify, raise. simpl.
  destruct (Setting.default s) eqn:Hd; destruct (Setting.nillable s) eqn:Hn; simpl;
    (split; [split; [intros; try discriminate; auto | intros [? ?]; try discriminate; auto]|]);
    (split; [auto|]);
    (split; [intros Hr; try discriminate;
             unfold Setting.__get__, Setting.isset; simpl;
             rewrite ?lookup_delete_eq; simpl; rewrite ?Hd; split; try reflexivity;
             apply bool_decide_eq_false; intros [? ?]; discriminate
            | intros Hr; try reflexivity; exfalso; apply Hr; reflexivity]).
Qed.

(** C8: on a setting that is not nillable, [set(o, None)] raises the
    not-nillable [ValueError] and the descriptor is left as it was, so
    [get], [isSet], [isDirty] and [priorValue] answer as before. *)
Theorem set_None_not_nillable (s : Setting.t) (o : oid) :
  Setting.nillable s = false →
  Setting.__set__ o VNone s
    = (Raise (ValueError "Setting attribute is not nillable"), s)
  ∧ ∀ o', Setting.__get__ (exec (Setting.__set__ o VNone) s) o' = Setting.__get__ s o'
        ∧ Setting.isset (exec (Setting.__set__ o VNone) s) o' = Setting.isset s o'
        ∧ Setting.isdirty (exec (Setting.__set__ o VNone) s) o' = Setting.isdirty s o'
        ∧ Setting.get_old (exec (Setting.__set__ o VNone) s) o' = Setting.get_old s o'.
Proof.
  intros Hn.
  assert (Hrun : Setting.__set__ o VNone s
                 = (Raise (ValueError "Setting attribute is not nillable"), s)).
  { unfold Setting.__set__, bind, gets, raise. simpl. rewrite Hn. reflexivity. }
  split; [exact Hrun|]. intros o'. unfold exec. rewrite Hrun. simpl. auto.
Qed.

Lemma set_None_not_nillable_witness :
  Setting.__set__ 1 VNone reset_after_commit
    = (Raise (ValueError "Setting attribute is not nillable"), reset_after_commit)
  ∧ ∀ o', Setting.__get__ (exec (Setting.__set__ 1 VNone) reset_after_commit) o'
          = Setting.__get__ reset_after_commit o'
        ∧ Setting.isset (exec (Setting.__set__ 1 VNone) reset_after_commit) o'
          = Setting.isset reset_after_commit o'
        ∧ Setting.isdirty (exec (Setting.__set__ 1 VNone) reset_after_commit) o'
          = Setting.isdirty reset_after_commit o'
        ∧ Setting.get_old (exec (Setting.__set__ 1 VNone) reset_after_commit) o'
          = Setting.get_old reset_after_commit o'.
Proof. apply (set_None_not_nillable reset_after_commit 1). reflexivity. Defined.

(** C10: on an owner for which the setting holds no explicit value and no
    committed value, [undo(o)] returns and stores the default as an
    explicit value: [isSet(o)] becomes true, [get(o)] and [priorValue(o)]
    are the default, and the setting is not dirty. *)
Theorem undo_stores_default (s : Setting.t) (o : oid) :
  Setting.objects s !! o = None →
  Setting.oldobjects s !! o = None →
  result (Setting.undo o) s = Return tt ∧
  Setting.objects (exec (Setting.undo o) s) !! o = Some (Setting.default s) ∧
  Setting.isset (exec (Setting.undo o) s) o = true ∧
  Setting.get_old (exec (Setting.undo o) s) o = Setting.default s ∧
  Setting.__get__ (exec (Setting.undo o) s) o = Setting.default s ∧
  Setting.isdirty (exec (Setting.undo o) s) o = false.
Proof.
  intros Hobj Hold.
  unfold result, exec, Setting.undo, bind, modify. simpl. rewrite Hold. simpl.
  repeat split.
  - apply lookup_insert_eq.
  - apply isset_true. simpl. rewrite lookup_insert_eq. eauto.
  - unfold Setting.get_old. simpl. rewrite lookup_insert_eq. reflexivity.
  - unfold Setting.__get__. simpl. rewrite lookup_insert_eq. reflexivity.
  - unfold Setting.isdirty. simpl. rewrite lookup_delete_eq. reflexivity.
Qed.

Lemma undo_stores_default_witness :
  result (Setting.undo 1) bare_setting = Return tt ∧
  Setting.objects (exec (Setting.undo 1) bare_setting) !! 1%positive
    = Some (Setting.default bare_setting) ∧
  Setting.isset (exec (Setting.undo 1) bare_setting) 1 = true ∧
  Setting.get_old (exec (Setting.undo 1) bare_setting) 1 = Setting.default bare_setting ∧
  Setting.__get__ (exec (Setting.undo 1) bare_setting) 1 = Setting.default bare_setting ∧
  Setting.isdirty (exec (Setting.undo 1) bare_setting) 1 = false.
Proof. apply (undo_stores_default bare_setting 1); reflexivity. Defined.

(** * Properties of the settings tree *)

Open Scope list_scope.

Implicit Types (i j o : oid) (ow : option oid) (σ τ : store) (cid sid : positive)
  (cls c : pyclass) (dir rest : members) (name : string).

(** ** Stores *)

Lemma keys_below_None {V} (n : oid) (m : gmap oid V) (j : oid) :
  keys_below n m → (n ≤ j)%positive → m !! j = None.
Proof.
  intros Hm Hle. destruct (m !! j) eqn:E; [|reflexivity].
  apply Hm in E. lia.
Qed.

Lemma wf_descriptor σ sid : wf_store σ → wf_setting (next_id σ) (descriptor sid σ).
Proof.
  intros [Hd _]. unfold descriptor. rewrite lookup_total_alt.
  destruct (descriptors σ !! sid) eqn:E; simpl.
  - exact (Hd _ _ E).
  - repeat split; apply map_Forall_empty.
Qed.

Lemma wf_cache_of σ cid : wf_store σ → wf_cache (next_id σ) (cache cid σ).
Proof.
  intros [_ Hc]. unfold cache. rewrite lookup_total_alt.
  destruct (group_objects σ !! cid) eqn:E; simpl.
  - exact (Hc _ _ E).
  - apply map_Forall_empty.
Qed.

Lemma wf_cache_None σ cid j :
  wf_store σ → (next_id σ ≤ j)%positive → cache cid σ !! j = None.
Proof.
  intros Hwf Hle. destruct (cache cid σ !! j) eqn:E; [|reflexivity].
  apply (wf_cache_of σ cid Hwf) in E. lia.
Qed.

Lemma wf_cache_Some σ cid i j :
  wf_store σ → cache cid σ !! i = Some j →
  (i < next_id σ)%positive ∧ (j < next_id σ)%positive.
Proof. intros Hwf E. exact (wf_cache_of σ cid Hwf _ _ E). Qed.

(** A new object reads as an instance that does not exist yet. *)
Lemma leaf_of_new σ name sid j :
  wf_store σ → (next_id σ ≤ j)%positive →
  leaf_of name (descriptor sid σ) (Some j) = leaf_of name (descriptor sid σ) None.
Proof.
  intros Hwf Hle. destruct (wf_descriptor σ sid Hwf) as (Ho & Hold & Hd).
  unfold leaf_of, Setting.isset, Setting.__get__, Setting.isdirty, Setting.get_old.
  rewrite (keys_below_None _ _ _ Ho Hle), (keys_below_None _ _ _ Hold Hle),
    (keys_below_None _ _ _ Hd Hle).
  reflexivity.
Qed.

Lemma cache_set_cache_eq cid m σ : cache cid (set_cache cid m σ) = m.
Proof. unfold cache, set_cache. simpl. apply lookup_total_insert_eq. Qed.

Lemma cache_set_cache_ne cid cid' m σ :
  cid ≠ cid' → cache cid' (set_cache cid m σ) = cache cid' σ.
Proof. intros Hne. unfold cache, set_cache. simpl. apply lookup_total_insert_ne, Hne. Qed.

Lemma descriptor_set_eq sid s σ : descriptor sid (set_descriptor sid s σ) = s.
Proof. unfold descriptor, set_descriptor. simpl. apply lookup_total_insert_eq. Qed.

Lemma descriptor_set_ne sid sid' s σ :
  sid ≠ sid' → descriptor sid' (set_descriptor sid s σ) = descriptor sid' σ.
Proof.
  intros Hne. unfold descriptor, set_descriptor. simpl.
  apply lookup_total_insert_ne, Hne.
Qed.

Lemma grows_refl σ : grows σ σ.
Proof.
  split; [lia|]. intros cid i. destruct (cache cid σ !! i); auto.
Qed.

Lemma grows_trans σ1 σ2 σ3 : grows σ1 σ2 → grows σ2 σ3 → grows σ1 σ3.
Proof.
  intros [Hn1 H1] [Hn2 H2]. split; [lia|]. intros cid i.
  specialize (H1 cid i). specialize (H2 cid i).
  destruct (cache cid σ1 !! i) as [j|].
  - destruct (cache cid σ2 !! i) as [j2|]; [|discriminate].
    congruence.
  - destruct (cache cid σ2 !! i) as [j2|].
    + destruct H1 as [H1|(j & H1 & Hj)]; [discriminate|].
      right. exists j2. split; [exact H2|congruence].
    + destruct H2 as [H2|(j & H2 & Hj)]; [auto|].
      right. exists j. split; [exact H2|lia].
Qed.

Lemma ext_refl σ : ext σ σ.
Proof. split; [reflexivity|apply grows_refl]. Qed.

Lemma ext_trans σ1 σ2 σ3 : ext σ1 σ2 → ext σ2 σ3 → ext σ1 σ3.
Proof.
  intros [Hd1 H1] [Hd2 H2]. split; [congruence|eapply grows_trans; eauto].
Qed.

Lemma ext_descriptor σ σ' sid : ext σ σ' → descriptor sid σ' = descriptor sid σ.
Proof. intros [Hd _]. unfold descriptor. rewrite Hd. reflexivity. Qed.

Lemma ext_settles σ σ' : ext σ σ' → settles σ σ'.
Proof.
  intros He. split; [apply He|]. intros sid.
  rewrite (ext_descriptor _ _ sid He). repeat split; auto.
Qed.

Lemma settles_refl σ : settles σ σ.
Proof. apply ext_settles, ext_refl. Qed.

Lemma settles_trans σ1 σ2 σ3 : settles σ1 σ2 → settles σ2 σ3 → settles σ1 σ3.
Proof.
  intros [Hg1 H1] [Hg2 H2]. split; [eapply grows_trans; eauto|].
  intros sid. destruct (H1 sid) as (Ht1 & Hf1 & Hn1 & Ho1 & Hd1).
  destruct (H2 sid) as (Ht2 & Hf2 & Hn2 & Ho2 & Hd2).
  repeat split; try congruence.
  - intros Hi. apply Hd1, Hd2, Hi.
  - destruct (Hd1 i) as [_ [Ha|[Hs Ha]]], (Hd2 i) as [_ [Hb|[Hs' Hb]]].
    + left. congruence.
    + right. rewrite Ho1 in Hs', Hb. auto.
    + right. split; [exact Hs|congruence].
    + right. rewrite Ho1 in Hs', Hb. auto.
Qed.

(** ** The view of a tree is insensitive to new instances *)

Lemma leaf_of_new_settles σ σ' name sid j :
  wf_store σ → settles σ σ' → (next_id σ ≤ j)%positive →
  leaf_of name (descriptor sid σ') (Some j) = leaf_of name (descriptor sid σ') None.
Proof.
  intros Hwf [_ Hs] Hj. destruct (Hs sid) as (_ & Hdef & _ & Hobj & Hi).
  destruct (Hi j) as [Hdirty Hold]. clear Hi.
  destruct (wf_descriptor σ sid Hwf) as (Ho & Holdk & Hd).
  pose proof (keys_below_None _ _ _ Ho Hj) as Eo.
  pose proof (keys_below_None _ _ _ Holdk Hj) as Eold.
  pose proof (keys_below_None _ _ _ Hd Hj) as Ed.
  assert (Eold' : Setting.oldobjects (descriptor sid σ') !! j = None).
  { destruct Hold as [Ha|[Hs' _]]; [exact (eq_trans Ha Eold)|].
    rewrite Eo in Hs'. destruct Hs'; discriminate. }
  assert (Ed' : Setting.isdirty (descriptor sid σ') j = false).
  { destruct (Setting.isdirty (descriptor sid σ') j) eqn:E; [|reflexivity].
    specialize (Hdirty eq_refl). unfold Setting.isdirty in Hdirty.
    rewrite Ed in Hdirty. discriminate. }
  unfold leaf_of, Setting.isset, Setting.__get__, Setting.get_old.
  rewrite Ed', Hobj, Eo, Eold'. reflexivity.
Qed.

Lemma view_new_mutual :
  (∀ cls σ σ' j, wf_store σ → settles σ σ' → (next_id σ ≤ j)%positive →
     view cls (Some j) σ' = view cls None σ') ∧
  (∀ dir σ σ' j, wf_store σ → settles σ σ' → (next_id σ ≤ j)%positive →
     view_members dir (Some j) σ' = view_members dir None σ').
Proof.
  apply pyclass_mutind.
  - intros cid dir IH σ σ' j Hwf Hs Hj. simpl. eauto.
  - reflexivity.
  - intros name sid rest IH σ σ' j Hwf Hs Hj. simpl.
    rewrite (IH σ σ' j Hwf Hs Hj). f_equal.
    eapply leaf_of_new_settles; eauto.
  - intros name c IHc rest IH σ σ' j Hwf Hs Hj. simpl.
    rewrite (IH σ σ' j Hwf Hs Hj). f_equal. f_equal.
    pose proof Hs as [[Hn Hg] _]. specialize (Hg (class_id c) j).
    rewrite (wf_cache_None σ (class_id c) j Hwf Hj) in Hg.
    destruct Hg as [->|(j' & -> & Hj')]; [reflexivity|].
    apply (IHc σ σ' j' Hwf Hs Hj').
Qed.

Lemma view_new cls σ σ' j :
  wf_store σ → settles σ σ' → (next_id σ ≤ j)%positive →
  view cls (Some j) σ' = view cls None σ'.
Proof. apply view_new_mutual. Qed.

Lemma leaf_of_None_settles σ σ' name sid :
  settles σ σ' →
  leaf_of name (descriptor sid σ') None = leaf_of name (descriptor sid σ) None.
Proof.
  intros [_ Hs]. destruct (Hs sid) as (_ & Hdef & _). simpl. rewrite Hdef. reflexivity.
Qed.

Lemma view_None_mutual :
  (∀ cls σ σ', settles σ σ' → view cls None σ' = view cls None σ) ∧
  (∀ dir σ σ', settles σ σ' → view_members dir None σ' = view_members dir None σ).
Proof.
  apply pyclass_mutind.
  - intros cid dir IH σ σ' Hs. simpl. eauto.
  - reflexivity.
  - intros name sid rest IH σ σ' Hs. simpl. rewrite (IH σ σ' Hs). f_equal.
    apply leaf_of_None_settles, Hs.
  - intros name c IHc rest IH σ σ' Hs. simpl.
    rewrite (IH σ σ' Hs), (IHc σ σ' Hs). reflexivity.
Qed.

Lemma calmer_refl l : calmer l l.
Proof. split; auto. Qed.

Lemma calmer_under name l l' : calmer l l' → calmer (under name l) (under name l').
Proof.
  intros [Hv Hd]. unfold calmer, leaf_value in *. simpl. split; [|exact Hd].
  injection Hv as -> -> ->. reflexivity.
Qed.

Lemma leaf_of_settles σ σ' name sid ow :
  settles σ σ' →
  calmer (leaf_of name (descriptor sid σ) ow) (leaf_of name (descriptor sid σ') ow).
Proof.
  intros [_ Hs]. destruct (Hs sid) as (_ & Hdef & _ & Hobj & Hi).
  destruct ow as [i|]; unfold calmer, leaf_value; simpl.
  - unfold Setting.isset, Setting.__get__. rewrite Hobj, Hdef.
    split; [reflexivity|apply Hi].
  - rewrite Hdef. auto.
Qed.

(** Under [settles], every leaf keeps its value and may only lose its
    dirty flag. *)
Lemma view_settles_mutual :
  (∀ cls σ σ' ow, wf_store σ → settles σ σ' →
     Forall2 calmer (view cls ow σ) (view cls ow σ')) ∧
  (∀ dir σ σ' ow, wf_store σ → settles σ σ' →
     Forall2 calmer (view_members dir ow σ) (view_members dir ow σ')).
Proof.
  apply pyclass_mutind.
  - intros cid dir IH σ σ' ow Hwf Hs. simpl. eauto.
  - intros. constructor.
  - intros name sid rest IH σ σ' ow Hwf Hs. simpl. constructor.
    + apply leaf_of_settles, Hs.
    + apply IH; assumption.
  - intros name c IHc rest IH σ σ' ow Hwf Hs. simpl.
    apply Forall2_app; [|apply IH; assumption].
    apply Forall2_fmap.
    assert (Hnone : Forall2 calmer (view c None σ) (view c None σ')).
    { specialize (IHc σ σ' None Hwf Hs). exact IHc. }
    destruct ow as [i|]; simpl; [|eapply Forall2_impl; [exact Hnone|apply calmer_under]].
    pose proof Hs as [[Hn Hg] _]. specialize (Hg (class_id c) i).
    destruct (cache (class_id c) σ !! i) as [j|].
    + rewrite Hg. eapply Forall2_impl; [apply IHc; assumption|apply calmer_under].
    + destruct Hg as [->|(j & -> & Hj)].
      * eapply Forall2_impl; [exact Hnone|apply calmer_under].
      * rewrite (view_new c σ σ' j Hwf Hs Hj).
        eapply Forall2_impl; [exact Hnone|apply calmer_under].
Qed.

Lemma view_settles cls σ σ' ow :
  wf_store σ → settles σ σ' → Forall2 calmer (view cls ow σ) (view cls ow σ').
Proof. apply view_settles_mutual. Qed.

Lemma calmer_clean ls ls' : Forall2 calmer ls ls' → clean ls → clean ls'.
Proof.
  unfold clean. induction 1 as [|l l' ls ls' [_ Hd] _ IH]; intros Hc; [constructor|].
  inversion Hc as [|? ? Hl Hls]; subst. constructor; [|auto].
  destruct (leaf_dirty l') eqn:E; [|reflexivity]. rewrite (Hd eq_refl) in Hl. discriminate.
Qed.

Lemma calmer_values ls ls' :
  Forall2 calmer ls ls' → map leaf_value ls' = map leaf_value ls.
Proof.
  induction 1 as [|l l' ls ls' [Hv _] _ IH]; [reflexivity|].
  simpl. rewrite Hv, IH. reflexivity.
Qed.

(** With the descriptors untouched, the whole view is the same. *)
Lemma view_ext_mutual :
  (∀ cls σ σ' ow, wf_store σ → ext σ σ' → view cls ow σ' = view cls ow σ) ∧
  (∀ dir σ σ' ow, wf_store σ → ext σ σ' →
     view_members dir ow σ' = view_members dir ow σ).
Proof.
  apply pyclass_mutind.
  - intros cid dir IH σ σ' ow Hwf He. simpl. eauto.
  - reflexivity.
  - intros name sid rest IH σ σ' ow Hwf He. simpl.
    rewrite (IH σ σ' ow Hwf He), (ext_descriptor σ σ' sid He). reflexivity.
  - intros name c IHc rest IH σ σ' ow Hwf He. simpl.
    rewrite (IH σ σ' ow Hwf He). f_equal. f_equal.
    destruct ow as [i|]; simpl; [|apply IHc; assumption].
    pose proof He as [_ [Hn Hg]]. specialize (Hg (class_id c) i).
    destruct (cache (class_id c) σ !! i) as [j|].
    + rewrite Hg. apply IHc; assumption.
    + destruct Hg as [->|(j & -> & Hj)]; [apply IHc; assumption|].
      rewrite (view_new c σ σ' j Hwf (ext_settles _ _ He) Hj).
      apply IHc; assumption.
Qed.

Lemma view_ext cls σ σ' ow :
  wf_store σ → ext σ σ' → view cls ow σ' = view cls ow σ.
Proof. apply view_ext_mutual. Qed.

Lemma view_members_ext dir σ σ' ow :
  wf_store σ → ext σ σ' → view_members dir ow σ' = view_members dir ow σ.
Proof. apply view_ext_mutual. Qed.

(** ** Well-formedness, pointwise *)

Lemma wf_store_alt σ :
  wf_store σ ↔
  (∀ sid, wf_setting (next_id σ) (descriptor sid σ)) ∧
  (∀ cid, wf_cache (next_id σ) (cache cid σ)).
Proof.
  split.
  - intros Hwf. split; intros x; [apply wf_descriptor|apply wf_cache_of]; exact Hwf.
  - intros [Hd Hc]. split.
    + intros sid s E. specialize (Hd sid). unfold descriptor in Hd.
      rewrite lookup_total_alt, E in Hd. exact Hd.
    + intros cid m E. specialize (Hc cid). unfold cache in Hc.
      rewrite lookup_total_alt, E in Hc. exact Hc.
Qed.

Lemma keys_below_mono {V} (n n' : oid) (m : gmap oid V) :
  (n ≤ n')%positive → keys_below n m → keys_below n' m.
Proof. intros Hle Hm k v E. apply Hm in E. lia. Qed.

Lemma wf_setting_mono (n n' : oid) s :
  (n ≤ n')%positive → wf_setting n s → wf_setting n' s.
Proof.
  intros Hle (Ho & Hold & Hd). repeat split; eapply keys_below_mono; eauto.
Qed.

Lemma wf_cache_mono (n n' : oid) (m : gmap oid oid) :
  (n ≤ n')%positive → wf_cache n m → wf_cache n' m.
Proof. intros Hle Hm k v E. apply Hm in E. lia. Qed.

Lemma wf_cache_insert (n : oid) (m : gmap oid oid) i j :
  (i < n)%positive → (j < n)%positive → wf_cache n m → wf_cache n (<[i := j]> m).
Proof. intros Hi Hj Hm. apply map_Forall_insert_2; auto. Qed.

(** ** [SettingsGroupMeta.__get__] *)

Lemma group_get_spec c o σ :
  wf_store σ → (o < next_id σ)%positive →
  ∃ j σ', SettingsGroupMeta.__get__ c o σ = (Return j, σ') ∧
          ext σ σ' ∧ wf_store σ' ∧
          cache (class_id c) σ' !! o = Some j ∧
          (j < next_id σ')%positive ∧
          view c (Some j) σ' = view c (child_of c (Some o) σ) σ.
Proof.
  intros Hwf Ho.
  unfold SettingsGroupMeta.__get__, bind, gets, new_instance, modify, ret. simpl.
  destruct (cache (class_id c) σ !! o) as [j|] eqn:E.
  - exists j, σ. split; [reflexivity|]. split; [apply ext_refl|].
    split; [exact Hwf|]. split; [exact E|].
    split; [apply (wf_cache_Some σ _ _ _ Hwf E)|].
    reflexivity.
  - set (σ' := set_cache (class_id c) (<[o := next_id σ]> (cache (class_id c) _))
                 (Store (descriptors σ) (group_objects σ) (Pos.succ (next_id σ)))).
    assert (Hcache : ∀ cid, cache cid σ' =
              if decide (class_id c = cid) then <[o := next_id σ]> (cache cid σ)
              else cache cid σ).
    { intros cid. unfold σ'. destruct (decide (class_id c = cid)) as [<-|Hne].
      - rewrite cache_set_cache_eq. reflexivity.
      - rewrite cache_set_cache_ne by exact Hne. reflexivity. }
    assert (Hext : ext σ σ').
    { split; [reflexivity|]. split; [simpl; lia|]. intros cid i.
      rewrite Hcache. destruct (decide (class_id c = cid)) as [<-|Hne].
      - destruct (decide (o = i)) as [<-|Hoi].
        + rewrite E, lookup_insert_eq. right. exists (next_id σ). split; [reflexivity|lia].
        + rewrite lookup_insert_ne by exact Hoi.
          destruct (cache (class_id c) σ !! i); auto.
      - destruct (cache cid σ !! i); auto. }
    assert (Hwf' : wf_store σ').
    { apply wf_store_alt. apply wf_store_alt in Hwf as [Hd Hc]. split.
      - intros sid. eapply wf_setting_mono; [|apply (Hd sid)]. simpl. lia.
      - intros cid. rewrite Hcache. simpl.
        destruct (decide (class_id c = cid)) as [<-|Hne].
        + apply wf_cache_insert; [lia|lia|].
          eapply wf_cache_mono; [|apply Hc]. lia.
        + eapply wf_cache_mono; [|apply Hc]. lia. }
    exists (next_id σ), σ'. split; [reflexivity|]. split; [exact Hext|].
    split; [exact Hwf'|]. split; [|split].
    + rewrite Hcache, decide_True by reflexivity. apply lookup_insert_eq.
    + simpl. lia.
    + rewrite (view_new c σ σ' (next_id σ) Hwf (ext_settles _ _ Hext)) by lia.
      apply view_None_mutual, ext_settles, Hext.
Qed.

(** ** [get_modified] *)

Lemma dirty_leaves_app ls ls' :
  dirty_leaves (ls ++ ls') = (dirty_leaves ls ++ dirty_leaves ls')%list.
Proof. apply List.filter_app. Qed.

Lemma dirty_leaves_under name ls :
  dirty_leaves (map (under name) ls) = map (under name) (dirty_leaves ls).
Proof.
  induction ls as [|l ls IH]; [reflexivity|]. simpl.
  destruct (leaf_dirty l); simpl; rewrite IH; reflexivity.
Qed.

Lemma clean_dirty_leaves ls : clean ls ↔ dirty_leaves ls = [].
Proof.
  unfold clean. induction ls as [|l ls IH]; simpl.
  - split; auto.
  - destruct (leaf_dirty l) eqn:E; split.
    + intros Hc. inversion Hc; congruence.
    + discriminate.
    + intros Hc. inversion Hc; subst. apply IH; assumption.
    + intros Hd. constructor; [exact E|apply IH, Hd].
Qed.

Lemma collected_group name dc dr acc mc m :
  collected dc [] mc →
  collected dr (dict_update acc (SettingsState.prefixed name mc)) m →
  collected (map (under name) dc ++ dr) acc m.
Proof.
  intros Hc Hr. destruct dc as [|l [|l' dc]]; simpl in *.
  - subst mc. exact Hr.
  - subst mc. destruct dr as [|l' dr]; simpl in *; [|destruct dr; exact I].
    exact Hr.
  - destruct (map (under name) dc ++ dr); exact I.
Qed.

Lemma collected_leaf name l dr acc m :
  leaf_path l = [name] →
  collected dr (dict_set name (modified_value l) acc) m →
  collected (l :: dr) acc m.
Proof.
  intros Hp Hr. destruct dr as [|l' dr]; simpl in *; [|destruct dr; exact I].
  rewrite Hp. exact Hr.
Qed.

Lemma dirty_leaves_setting name sid rest o σ :
  dirty_leaves (view_members (dir_setting name sid rest) (Some o) σ) =
  if Setting.isdirty (descriptor sid σ) o
  then leaf_of name (descriptor sid σ) (Some o)
         :: dirty_leaves (view_members rest (Some o) σ)
  else dirty_leaves (view_members rest (Some o) σ).
Proof. reflexivity. Qed.

Lemma get_modified_mutual :
  (∀ cls σ o, wf_store σ → (o < next_id σ)%positive →
     ∃ m σ', SettingsState.get_modified cls o σ = (Return m, σ') ∧
             ext σ σ' ∧ wf_store σ' ∧
             collected (dirty_leaves (view cls (Some o) σ)) [] m) ∧
  (∀ dir σ o acc, wf_store σ → (o < next_id σ)%positive →
     ∃ m σ', SettingsState.get_modified_loop dir o acc σ = (Return m, σ') ∧
             ext σ σ' ∧ wf_store σ' ∧
             collected (dirty_leaves (view_members dir (Some o) σ)) acc m).
Proof.
  apply pyclass_mutind.
  - intros cid dir IH σ o Hwf Ho. apply IH; assumption.
  - intros σ o acc Hwf Ho. exists acc, σ.
    split; [reflexivity|]. split; [apply ext_refl|]. split; [exact Hwf|reflexivity].
  - intros name sid rest IH σ o acc Hwf Ho.
    cbn [SettingsState.get_modified_loop]. unfold bind at 1. unfold gets at 1.
    destruct (Setting.isdirty (descriptor sid σ) o) eqn:Hd.
    + destruct (IH σ o (dict_set name
                  (mkModifiedValue (Setting.get_old (descriptor sid σ) o)
                     (Setting.__get__ (descriptor sid σ) o)) acc) Hwf Ho)
        as (m & σ' & Hrun & He & Hwf' & Hc).
      exists m, σ'. split; [exact Hrun|]. split; [exact He|]. split; [exact Hwf'|].
      rewrite dirty_leaves_setting, Hd. apply (collected_leaf name); [reflexivity|].
      exact Hc.
    + destruct (IH σ o acc Hwf Ho) as (m & σ' & Hrun & He & Hwf' & Hc).
      exists m, σ'. split; [exact Hrun|]. split; [exact He|]. split; [exact Hwf'|].
      rewrite dirty_leaves_setting, Hd. exact Hc.
  - intros name c IHc rest IH σ o acc Hwf Ho.
    cbn [SettingsState.get_modified_loop view_members].
    destruct (group_get_spec c o σ Hwf Ho) as (j & σ1 & Hget & He1 & Hwf1 & Hc1 & Hj & Hv).
    destruct (IHc σ1 j Hwf1 Hj) as (mc & σ2 & Hrunc & He2 & Hwf2 & Hcc).
    assert (Ho2 : (o < next_id σ2)%positive).
    { destruct He1 as [_ [? _]], He2 as [_ [? _]]. lia. }
    destruct (IH σ2 o (dict_update acc (SettingsState.prefixed name mc)) Hwf2 Ho2)
      as (m & σ3 & Hrun & He3 & Hwf3 & Hcr).
    exists m, σ3. split; [|split; [|split]].
    + unfold bind. rewrite Hget, Hrunc. exact Hrun.
    + eapply ext_trans; [exact He1|]. eapply ext_trans; eassumption.
    + exact Hwf3.
    + rewrite dirty_leaves_app, dirty_leaves_under.
      apply collected_group with (mc := mc).
      * rewrite <- Hv. exact Hcc.
      * rewrite <- (view_members_ext rest σ σ2 (Some o) Hwf (ext_trans _ _ _ He1 He2)).
        exact Hcr.
Qed.

(** ** [clear_dirty] *)

Lemma grows_same_caches σ σ' :
  next_id σ' = next_id σ → group_objects σ' = group_objects σ → grows σ σ'.
Proof.
  intros Hn Hg. split; [lia|]. intros cid i. unfold cache. rewrite Hg.
  destruct (_ !! i); auto.
Qed.

Lemma settles_set_descriptor sid s' σ :
  Setting.type s' = Setting.type (descriptor sid σ) →
  Setting.default s' = Setting.default (descriptor sid σ) →
  Setting.nillable s' = Setting.nillable (descriptor sid σ) →
  Setting.objects s' = Setting.objects (descriptor sid σ) →
  (∀ i, (Setting.isdirty s' i = true → Setting.isdirty (descriptor sid σ) i = true) ∧
        (Setting.oldobjects s' !! i = Setting.oldobjects (descriptor sid σ) !! i
         ∨ (is_Some (Setting.objects (descriptor sid σ) !! i) ∧
            Setting.oldobjects s' !! i = Setting.objects (descriptor sid σ) !! i))) →
  settles σ (set_descriptor sid s' σ).
Proof.
  intros Ht Hdf Hn Ho Hi. split; [apply grows_same_caches; reflexivity|].
  intros sid'. destruct (decide (sid = sid')) as [<-|Hne].
  - rewrite descriptor_set_eq. auto.
  - rewrite descriptor_set_ne by exact Hne. repeat split; auto.
Qed.

Lemma wf_set_descriptor sid s' σ :
  wf_store σ → wf_setting (next_id σ) s' → wf_store (set_descriptor sid s' σ).
Proof.
  intros Hwf Hs. apply wf_store_alt. apply wf_store_alt in Hwf as [Hd Hc]. split.
  - intros sid'. simpl. destruct (decide (sid = sid')) as [<-|Hne].
    + rewrite descriptor_set_eq. exact Hs.
    + rewrite descriptor_set_ne by exact Hne. apply Hd.
  - intros cid. apply Hc.
Qed.

Lemma keys_below_delete {V} (n : oid) (m : gmap oid V) i :
  keys_below n m → keys_below n (delete i m).
Proof. intros Hm k v E. apply lookup_delete_Some in E as [_ E]. eapply Hm, E. Qed.

Lemma keys_below_insert {V} (n : oid) (m : gmap oid V) i (v : V) :
  (i < n)%positive → keys_below n m → keys_below n (<[i := v]> m).
Proof. intros Hi Hm. apply map_Forall_insert_2; auto. Qed.

Lemma at_clear_dirty sid o σ :
  wf_store σ → (o < next_id σ)%positive →
  ∃ σ', at_descriptor sid (Setting.clear_dirty o) σ = (Return tt, σ') ∧
        settles σ σ' ∧ wf_store σ' ∧
        Setting.isdirty (descriptor sid σ') o = false ∧
        (Setting.isset (descriptor sid σ) o = true →
         Setting.oldobjects (descriptor sid σ') !! o
           = Setting.objects (descriptor sid σ) !! o).
Proof.
  intros Hwf Ho. unfold at_descriptor. rewrite clear_dirty_run.
  eexists. split; [reflexivity|].
  destruct (wf_descriptor σ sid Hwf) as (Hko & Hkold & Hkd).
  destruct (Setting.objects (descriptor sid σ) !! o) as [v|] eqn:E.
  - split; [|split; [|split]].
    + apply settles_set_descriptor; try reflexivity. intros i. split.
      * unfold Setting.isdirty. simpl. destruct (decide (o = i)) as [<-|Hne].
        -- rewrite lookup_delete_eq. discriminate.
        -- rewrite lookup_delete_ne by exact Hne. auto.
      * simpl. destruct (decide (o = i)) as [<-|Hne].
        -- right. rewrite lookup_insert_eq, E. eauto.
        -- left. rewrite lookup_insert_ne by exact Hne. reflexivity.
    + apply wf_set_descriptor; [exact Hwf|]. repeat split; simpl.
      * exact Hko.
      * apply keys_below_insert; assumption.
      * apply keys_below_delete; assumption.
    + rewrite descriptor_set_eq. unfold Setting.isdirty. simpl.
      rewrite lookup_delete_eq. reflexivity.
    + intros _. rewrite descriptor_set_eq. simpl. apply lookup_insert_eq.
  - split; [|split; [|split]].
    + apply settles_set_descriptor; try reflexivity. intros i. split; [|auto].
      unfold Setting.isdirty. simpl. destruct (decide (o = i)) as [<-|Hne].
      * rewrite lookup_delete_eq. discriminate.
      * rewrite lookup_delete_ne by exact Hne. auto.
    + apply wf_set_descriptor; [exact Hwf|]. repeat split; simpl.
      * exact Hko.
      * exact Hkold.
      * apply keys_below_delete; assumption.
    + rewrite descriptor_set_eq. unfold Setting.isdirty. simpl.
      rewrite lookup_delete_eq. reflexivity.
    + intros Hs. apply isset_true in Hs. rewrite E in Hs. destruct Hs; discriminate.
Qed.

Lemma settles_next σ σ' : settles σ σ' → (next_id σ ≤ next_id σ')%positive.
Proof. intros [[Hn _] _]. exact Hn. Qed.

Lemma ext_next σ σ' : ext σ σ' → (next_id σ ≤ next_id σ')%positive.
Proof. intros [_ [Hn _]]. exact Hn. Qed.

Lemma grows_cache_Some σ σ' cid i j :
  grows σ σ' → cache cid σ !! i = Some j → cache cid σ' !! i = Some j.
Proof. intros [_ Hg] E. specialize (Hg cid i). rewrite E in Hg. exact Hg. Qed.

Lemma clean_app ls ls' : clean ls → clean ls' → clean (ls ++ ls').
Proof. apply Forall_app_2. Qed.

Lemma clean_under name ls : clean ls → clean (map (under name) ls).
Proof.
  unfold clean. rewrite Forall_fmap. intros Hc.
  eapply Forall_impl; [exact Hc|]. auto.
Qed.

Lemma clear_dirty_mutual :
  (∀ cls σ o, wf_store σ → (o < next_id σ)%positive →
     ∃ σ', SettingsState.clear_dirty cls o σ = (Return tt, σ') ∧
           settles σ σ' ∧ wf_store σ' ∧ clean (view cls (Some o) σ')) ∧
  (∀ dir σ o, wf_store σ → (o < next_id σ)%positive →
     ∃ σ', SettingsState.clear_dirty_loop dir o σ = (Return tt, σ') ∧
           settles σ σ' ∧ wf_store σ' ∧ clean (view_members dir (Some o) σ')).
Proof.
  apply pyclass_mutind.
  - intros cid dir IH σ o Hwf Ho. apply IH; assumption.
  - intros σ o Hwf Ho. exists σ.
    split; [reflexivity|]. split; [apply settles_refl|]. split; [exact Hwf|constructor].
  - intros name sid rest IH σ o Hwf Ho.
    cbn [SettingsState.clear_dirty_loop]. unfold bind at 1. unfold gets at 1.
    assert (Hstep : ∃ σ1,
       (if Setting.isdirty (descriptor sid σ) o
        then at_descriptor sid (Setting.clear_dirty o) else ret tt) σ = (Return tt, σ1) ∧
       settles σ σ1 ∧ wf_store σ1 ∧ Setting.isdirty (descriptor sid σ1) o = false).
    { destruct (Setting.isdirty (descriptor sid σ) o) eqn:Hd.
      - destruct (at_clear_dirty sid o σ Hwf Ho) as (σ1 & Hrun & Hs & Hwf1 & Hd1 & _).
        eauto 6.
      - exists σ. split; [reflexivity|]. split; [apply settles_refl|]. auto. }
    destruct Hstep as (σ1 & Hrun1 & Hs1 & Hwf1 & Hd1).
    assert (Ho1 : (o < next_id σ1)%positive) by (pose proof (settles_next _ _ Hs1); lia).
    destruct (IH σ1 o Hwf1 Ho1) as (σ2 & Hrun2 & Hs2 & Hwf2 & Hc2).
    exists σ2. split; [|split; [|split]].
    + unfold bind. rewrite Hrun1. exact Hrun2.
    + eapply settles_trans; eassumption.
    + exact Hwf2.
    + cbn [view_members]. constructor; [|exact Hc2]. simpl.
      destruct Hs2 as [_ Hs2]. destruct (Hs2 sid) as (_ & _ & _ & _ & Hi).
      destruct (Setting.isdirty (descriptor sid σ2) o) eqn:E; [|reflexivity].
      destruct (Hi o) as [Hi' _]. rewrite E in Hi'. specialize (Hi' eq_refl). congruence.
  - intros name c IHc rest IH σ o Hwf Ho.
    cbn [SettingsState.clear_dirty_loop view_members].
    destruct (group_get_spec c o σ Hwf Ho) as (j & σ1 & Hget & He1 & Hwf1 & Hc1 & Hj & Hv).
    destruct (IHc σ1 j Hwf1 Hj) as (σ2 & Hrunc & Hs2 & Hwf2 & Hcc).
    assert (Ho2 : (o < next_id σ2)%positive).
    { pose proof (ext_next _ _ He1). pose proof (settles_next _ _ Hs2). lia. }
    destruct (IH σ2 o Hwf2 Ho2) as (σ3 & Hrun & Hs3 & Hwf3 & Hcr).
    exists σ3. split; [|split; [|split]].
    + unfold bind. rewrite Hget, Hrunc. exact Hrun.
    + eapply settles_trans; [apply ext_settles, He1|]. eapply settles_trans; eassumption.
    + exact Hwf3.
    + apply clean_app; [|exact Hcr]. apply clean_under. simpl.
      rewrite (grows_cache_Some σ1 σ3 (class_id c) o j); [| |exact Hc1].
      * eapply calmer_clean; [apply (view_settles c σ2 σ3 (Some j) Hwf2 Hs3)|exact Hcc].
      * eapply grows_trans; [apply Hs2|apply Hs3].
Qed.

Lemma get_modified_spec cls σ o :
  wf_store σ → (o < next_id σ)%positive →
  ∃ m σ', SettingsState.get_modified cls o σ = (Return m, σ') ∧
          ext σ σ' ∧ wf_store σ' ∧
          collected (dirty_leaves (view cls (Some o) σ)) [] m.
Proof. apply get_modified_mutual. Qed.

Lemma clear_dirty_spec cls σ o :
  wf_store σ → (o < next_id σ)%positive →
  ∃ σ', SettingsState.clear_dirty cls o σ = (Return tt, σ') ∧
        settles σ σ' ∧ wf_store σ' ∧ clean (view cls (Some o) σ').
Proof. apply clear_dirty_mutual. Qed.

(** After [clear_dirty], [get_modified] finds nothing. *)
Lemma clear_dirty_then_get_modified cls σ o :
  wf_store σ → (o < next_id σ)%positive →
  ∃ σ1 σ2, SettingsState.clear_dirty cls o σ = (Return tt, σ1) ∧
           SettingsState.get_modified cls o σ1 = (Return [], σ2) ∧
           settles σ σ2 ∧ wf_store σ2.
Proof.
  intros Hwf Ho.
  destruct (clear_dirty_spec cls σ o Hwf Ho) as (σ1 & Hrun & Hs & Hwf1 & Hc).
  assert (Ho1 : (o < next_id σ1)%positive) by (pose proof (settles_next _ _ Hs); lia).
  destruct (get_modified_spec cls σ1 o Hwf1 Ho1) as (m & σ2 & Hrun2 & He & Hwf2 & Hm).
  apply clean_dirty_leaves in Hc. rewrite Hc in Hm. simpl in Hm. subst m.
  exists σ1, σ2. split; [exact Hrun|]. split; [exact Hrun2|].
  split; [|exact Hwf2]. eapply settles_trans; [exact Hs|apply ext_settles, He].
Qed.

Lemma path_key_nonempty name k :
  k ≠ "" → SettingsState.path_key name k = (name ++ "." ++ k)%string.
Proof.
  intros Hk. unfold SettingsState.path_key.
  destruct (String.eqb_spec k ""); [contradiction|reflexivity].
Qed.

Lemma append_dot_nonempty name k : (name ++ "." ++ k)%string ≠ "".
Proof. destruct name; discriminate. Qed.

(** C5: in a tree whose only dirty [Setting] lies two group levels deep,
    at the path [g1], [g2], [x], [get_modified] on the root returns the
    single entry of key [g1.g2.x], holding the old and the new value of
    that setting; after [clear_dirty] on the root, [get_modified] returns
    the empty dictionary. *)
Theorem get_modified_one_nested_leaf cls σ o (g1 g2 x : string) (l : leaf) :
  wf_store σ → (o < next_id σ)%positive → x ≠ "" →
  dirty_leaves (view cls (Some o) σ) = [l] →
  leaf_path l = [g1; g2; x] →
  ∃ σ1 σ2 σ3,
    SettingsState.get_modified cls o σ
      = (Return [((g1 ++ "." ++ g2 ++ "." ++ x)%string,
                  mkModifiedValue (leaf_old l) (leaf_get l))], σ1) ∧
    SettingsState.clear_dirty cls o σ1 = (Return tt, σ2) ∧
    SettingsState.get_modified cls o σ2 = (Return [], σ3).
Proof.
  intros Hwf Ho Hx Hd Hp.
  destruct (get_modified_spec cls σ o Hwf Ho) as (m & σ1 & Hrun & He & Hwf1 & Hm).
  rewrite Hd in Hm. simpl in Hm. rewrite Hp in Hm. simpl in Hm.
  change (SettingsState.path_key x "") with x in Hm.
  rewrite (path_key_nonempty g2 x Hx) in Hm.
  rewrite (path_key_nonempty g1 _ (append_dot_nonempty g2 x)) in Hm.
  assert (Ho1 : (o < next_id σ1)%positive) by (pose proof (ext_next _ _ He); lia).
  destruct (clear_dirty_then_get_modified cls σ1 o Hwf1 Ho1)
    as (σ2 & σ3 & Hrun2 & Hrun3 & _ & _).
  exists σ1, σ2, σ3. subst m. auto.
Qed.

Lemma get_modified_one_nested_leaf_witness :
  ∃ σ1 σ2 σ3,
    SettingsState.get_modified root_class 1 rate_set_store
      = (Return [("audio.codec.rate", mkModifiedValue (VStr "d") (VStr "v"))], σ1) ∧
    SettingsState.clear_dirty root_class 1 σ1 = (Return tt, σ2) ∧
    SettingsState.get_modified root_class 1 σ2 = (Return [], σ3).
Proof.
  apply (get_modified_one_nested_leaf root_class rate_set_store 1 "audio" "codec" "rate"
           (Leaf ["audio"; "codec"; "rate"] true (VStr "v") true (VStr "d"))).
  - apply (bool_decide_unpack _). vm_compute. exact I.
  - reflexivity.
  - discriminate.
  - vm_compute. reflexivity.
  - reflexivity.
Defined.

(** ** [__getstate__] and [__setstate__] on a tree without explicit values *)

Lemma Forall_isset_members name sid rest o σ :
  Forall (λ l, leaf_isset l = false) (view_members (dir_setting name sid rest) (Some o) σ) →
  Setting.isset (descriptor sid σ) o = false ∧
  Forall (λ l, leaf_isset l = false) (view_members rest (Some o) σ).
Proof. cbn [view_members]. intros H. inversion H; subst. auto. Qed.

Lemma getstate_loop_unset dir o σ acc :
  no_groups dir = true →
  Forall (λ l, leaf_isset l = false) (view_members dir (Some o) σ) →
  SettingsState.getstate_loop dir o acc σ = (Return acc, σ).
Proof.
  induction dir as [|name sid rest IH|name c rest IH]; intros Hng Hunset.
  - reflexivity.
  - apply Forall_isset_members in Hunset as [Hu Hrest].
    cbn [SettingsState.getstate_loop]. unfold bind at 1, gets at 1.
    rewrite Hu. apply IH; assumption.
  - discriminate.
Qed.

(** C9: for an instance whose class has no group attribute and on which
    no [Setting] holds an explicit value, [__getstate__] returns the
    dictionary with the single key [__dummy__] (so the state is not
    empty) and leaves the store as it is; [__setstate__] of that
    dictionary, on any instance of any class, drops the key, assigns
    nothing and leaves the store as it is. *)
Theorem getstate_empty_marker cls o σ :
  no_groups (class_dir cls) = true →
  Forall (λ l, leaf_isset l = false) (view cls (Some o) σ) →
  SettingsState.__getstate__ cls o σ = (Return empty_marker, σ) ∧
  empty_marker ≠ [] ∧
  dict_get "__dummy__" empty_marker = Some VNone ∧
  ∀ cls' o' τ, SettingsState.__setstate__ cls' o' empty_marker τ = (Return tt, τ).
Proof.
  intros Hng Hunset. destruct cls as [cid dir]. simpl in Hng, Hunset.
  split; [|split; [discriminate|split; [reflexivity|reflexivity]]].
  unfold SettingsState.__getstate__, bind. simpl class_dir.
  rewrite (getstate_loop_unset dir o σ [] Hng Hunset). reflexivity.
Qed.

Lemma getstate_empty_marker_witness :
  SettingsState.__getstate__ codec_class 1 sample_store = (Return empty_marker, sample_store) ∧
  empty_marker ≠ [] ∧
  dict_get "__dummy__" empty_marker = Some VNone ∧
  ∀ cls' o' τ, SettingsState.__setstate__ cls' o' empty_marker τ = (Return tt, τ).
Proof.
  apply (getstate_empty_marker codec_class 1 sample_store).
  - reflexivity.
  - vm_compute. repeat constructor.
Defined.

(** ** Dictionaries *)

Lemma dict_get_app {V} (k : string) (pre d : dict V) :
  dict_get k pre = None → dict_get k (pre ++ d) = dict_get k d.
Proof.
  induction pre as [|[k' v'] pre IH]; simpl; [reflexivity|].
  destruct (String.eqb k k'); [discriminate|exact IH].
Qed.

Lemma dict_set_app {V} (k : string) (v : V) (pre d : dict V) :
  dict_get k pre = None → dict_set k v (pre ++ d) = pre ++ dict_set k v d.
Proof.
  induction pre as [|[k' v'] pre IH]; simpl; [reflexivity|].
  destruct (String.eqb k k'); [discriminate|]. intros Hg. rewrite (IH Hg). reflexivity.
Qed.

Lemma dict_set_fresh {V} (k : string) (v : V) (pre : dict V) :
  dict_get k pre = None → dict_set k v pre = pre ++ [(k, v)].
Proof.
  intros Hg. pose proof (dict_set_app k v pre [] Hg) as E.
  rewrite app_nil_r in E. exact E.
Qed.

Lemma dict_set_head {V} (k : string) (v v0 : V) (d : dict V) :
  dict_set k v ((k, v0) :: d) = (k, v) :: d.
Proof. simpl. rewrite String.eqb_refl. reflexivity. Qed.

Lemma dict_get_head {V} (k : string) (v : V) (d : dict V) :
  dict_get k ((k, v) :: d) = Some v.
Proof. simpl. rewrite String.eqb_refl. reflexivity. Qed.

Lemma dict_pop_app {V} (k : string) (pre d : dict V) :
  dict_get k pre = None → dict_pop k (pre ++ d) = pre ++ dict_pop k d.
Proof.
  induction pre as [|[k' v'] pre IH]; simpl; [reflexivity|].
  destruct (String.eqb k k'); [discriminate|]. intros Hg. rewrite (IH Hg). reflexivity.
Qed.

Lemma apart_nil dir : apart [] dir.
Proof. intros k. right. reflexivity. Qed.

Lemma getattr_class_setting_eq name sid rest :
  getattr_class (dir_setting name sid rest) name = Some (ASetting sid).
Proof. simpl. rewrite String.eqb_refl. reflexivity. Qed.

Lemma getattr_class_group_eq name c rest :
  getattr_class (dir_group name c rest) name = Some (AGroup c).
Proof. simpl. rewrite String.eqb_refl. reflexivity. Qed.

Lemma apart_setting_head pre name sid rest :
  apart pre (dir_setting name sid rest) → dict_get name pre = None.
Proof.
  intros H. destruct (H name) as [E|E]; [|exact E].
  rewrite getattr_class_setting_eq in E. discriminate.
Qed.

Lemma apart_group_head pre name c rest :
  apart pre (dir_group name c rest) → dict_get name pre = None.
Proof.
  intros H. destruct (H name) as [E|E]; [|exact E].
  rewrite getattr_class_group_eq in E. discriminate.
Qed.

Lemma dict_get_snoc (k name : string) (v : value) (pre : dict value) :
  dict_get k (pre ++ [(name, v)]) =
  match dict_get k pre with
  | Some x => Some x
  | None => if String.eqb k name then Some v else None
  end.
Proof.
  induction pre as [|[k' v'] pre IH]; simpl; [reflexivity|].
  destruct (String.eqb k k'); [reflexivity|exact IH].
Qed.

Lemma apart_setting_tail pre name sid rest :
  apart pre (dir_setting name sid rest) → apart pre rest.
Proof.
  intros H k. destruct (H k) as [E|E]; [|auto]. left. simpl in E.
  destruct (String.eqb k name); [discriminate|exact E].
Qed.

Lemma apart_group_tail pre name c rest :
  apart pre (dir_group name c rest) → apart pre rest.
Proof.
  intros H k. destruct (H k) as [E|E]; [|auto]. left. simpl in E.
  destruct (String.eqb k name); [discriminate|exact E].
Qed.

Lemma apart_snoc pre name v rest :
  apart pre rest → getattr_class rest name = None → apart (pre ++ [(name, v)]) rest.
Proof.
  intros H Hn k. destruct (H k) as [E|E]; [auto|].
  rewrite dict_get_snoc, E. destruct (String.eqb_spec k name) as [->|_]; auto.
Qed.

Lemma members_distinct_setting name sid rest :
  members_distinct (dir_setting name sid rest) = true →
  getattr_class rest name = None ∧ members_distinct rest = true.
Proof.
  simpl. intros H. apply andb_prop in H as [H1 H2].
  destruct (getattr_class rest name); [discriminate|auto].
Qed.

Lemma members_distinct_group name c rest :
  members_distinct (dir_group name c rest) = true →
  getattr_class rest name = None ∧ names_distinct c = true ∧
  members_distinct rest = true.
Proof.
  simpl. intros H. apply andb_prop in H as [H H3]. apply andb_prop in H as [H1 H2].
  destruct (getattr_class rest name); [discriminate|auto].
Qed.

(** ** The shape of a state *)

Lemma state_shape_transport (G G' : pyclass → oid → Prop) dir ow ow' σ σ' items :
  (∀ sid, explicit (descriptor sid σ') ow' = explicit (descriptor sid σ) ow) →
  (∀ c j, G c j → G' c j) →
  state_shape G dir ow σ items → state_shape G' dir ow' σ' items.
Proof.
  intros He HG. revert items.
  induction dir as [|name sid rest IH|name c rest IH]; intros items; simpl.
  - auto.
  - rewrite He. destruct (explicit (descriptor sid σ) ow).
    + intros (items' & -> & Hs). exists items'. split; [reflexivity|apply IH, Hs].
    + apply IH.
  - intros (j & items' & -> & Hg & Hs). exists j, items'.
    split; [reflexivity|]. split; [apply HG, Hg|apply IH, Hs].
Qed.

Lemma state_shape_no_groups G dir ow σ :
  state_shape G dir ow σ [] → no_groups dir = true.
Proof.
  induction dir as [|name sid rest IH|name c rest IH]; simpl.
  - reflexivity.
  - destruct (explicit (descriptor sid σ) ow).
    + intros (items' & E & _). discriminate.
    + exact IH.
  - intros (j & items' & E & _). discriminate.
Qed.

Lemma getstate_loop_spec dir : ∀ σ o pre,
  wf_store σ → (o < next_id σ)%positive →
  members_distinct dir = true → apart pre dir →
  ∃ items σ',
    SettingsState.getstate_loop dir o pre σ = (Return (pre ++ items), σ') ∧
    ext σ σ' ∧ wf_store σ' ∧
    state_shape (λ c j, cache (class_id c) σ' !! o = Some j) dir (Some o) σ' items.
Proof.
  induction dir as [|name sid rest IH|name c rest IH]; intros σ o pre Hwf Ho Hdist Hapart.
  - exists [], σ. rewrite app_nil_r.
    split; [reflexivity|]. split; [apply ext_refl|]. split; [exact Hwf|reflexivity].
  - apply members_distinct_setting in Hdist as [Hfresh Hdist].
    cbn [SettingsState.getstate_loop]. unfold bind at 1, gets at 1.
    unfold Setting.isset, Setting.__get__.
    destruct (Setting.objects (descriptor sid σ) !! o) as [v|] eqn:E.
    + rewrite bool_decide_true by eauto. simpl from_option.
      rewrite (dict_set_fresh name v pre) by (eapply apart_setting_head; eauto).
      destruct (IH σ o (pre ++ [(name, v)]) Hwf Ho Hdist) as (items & σ' & Hrun & He & Hwf' & Hs).
      { apply apart_snoc; [eapply apart_setting_tail; eauto|exact Hfresh]. }
      exists ((name, v) :: items), σ'. split; [|split; [|split]]; auto.
      * rewrite Hrun, <- app_assoc. reflexivity.
      * cbn [state_shape]. unfold explicit. rewrite (ext_descriptor _ _ sid He), E. eauto.
    + rewrite bool_decide_false by (intros [? ?]; discriminate).
      destruct (IH σ o pre Hwf Ho Hdist) as (items & σ' & Hrun & He & Hwf' & Hs).
      { eapply apart_setting_tail; eauto. }
      exists items, σ'. split; [|split; [|split]]; auto.
      cbn [state_shape]. unfold explicit. rewrite (ext_descriptor _ _ sid He), E. exact Hs.
  - apply members_distinct_group in Hdist as (Hfresh & Hc & Hdist).
    cbn [SettingsState.getstate_loop].
    destruct (group_get_spec c o σ Hwf Ho) as (j & σ1 & Hget & He1 & Hwf1 & Hc1 & Hj & _).
    assert (Ho1 : (o < next_id σ1)%positive) by (pose proof (ext_next _ _ He1); lia).
    unfold bind. rewrite Hget.
    rewrite (dict_set_fresh name (VInstance (class_id c) j) pre)
      by (eapply apart_group_head; eauto).
    destruct (IH σ1 o (pre ++ [(name, VInstance (class_id c) j)]) Hwf1 Ho1 Hdist)
      as (items & σ' & Hrun & He & Hwf' & Hs).
    { apply apart_snoc; [eapply apart_group_tail; eauto|exact Hfresh]. }
    exists ((name, VInstance (class_id c) j) :: items), σ'. split; [|split; [|split]].
    + rewrite Hrun, <- app_assoc. reflexivity.
    + eapply ext_trans; eassumption.
    + exact Hwf'.
    + cbn [state_shape]. exists j, items. split; [reflexivity|]. split; [|exact Hs].
      eapply grows_cache_Some; [apply He|exact Hc1].
Qed.

(** ** Pickles are insensitive to new instances *)

Lemma explicit_new σ σ' sid j :
  wf_store σ → ext σ σ' → (next_id σ ≤ j)%positive →
  explicit (descriptor sid σ') (Some j) = None.
Proof.
  intros Hwf He Hj. simpl. rewrite (ext_descriptor _ _ sid He).
  destruct (wf_descriptor σ sid Hwf) as (Ho & _). eapply keys_below_None; eauto.
Qed.

Lemma is_pickle_new_mutual :
  (∀ cls σ σ' j p, wf_store σ → ext σ σ' → (next_id σ ≤ j)%positive →
     is_pickle cls None σ' p → is_pickle cls (Some j) σ' p) ∧
  (∀ dir σ σ' j ps, wf_store σ → ext σ σ' → (next_id σ ≤ j)%positive →
     are_pickles dir None σ' ps → are_pickles dir (Some j) σ' ps).
Proof.
  apply pyclass_mutind.
  - intros cid dir IH σ σ' j p Hwf He Hj (items & children & -> & Hs & Hc).
    exists items, children. split; [reflexivity|]. split; [|eapply IH; eauto].
    eapply state_shape_transport; [| |exact Hs]; [|auto].
    intros sid. rewrite (explicit_new σ σ' sid j Hwf He Hj). reflexivity.
  - auto.
  - intros name sid rest IH σ σ' j ps Hwf He Hj. cbn [are_pickles]. eauto.
  - intros name c IHc rest IH σ σ' j ps Hwf He Hj. cbn [are_pickles].
    intros (p & ps' & -> & Hp & Hps). exists p, ps'. split; [reflexivity|].
    split; [|eapply IH; eauto].
    simpl in Hp. simpl. pose proof He as [_ [_ Hg]]. specialize (Hg (class_id c) j).
    rewrite (wf_cache_None σ (class_id c) j Hwf Hj) in Hg.
    destruct Hg as [->|(j' & -> & Hj')]; [exact Hp|]. eapply IHc; eauto.
Qed.

Lemma is_pickle_ext_mutual :
  (∀ cls σ σ' ow p, wf_store σ → ext σ σ' →
     is_pickle cls ow σ p → is_pickle cls ow σ' p) ∧
  (∀ dir σ σ' ow ps, wf_store σ → ext σ σ' →
     are_pickles dir ow σ ps → are_pickles dir ow σ' ps).
Proof.
  apply pyclass_mutind.
  - intros cid dir IH σ σ' ow p Hwf He (items & children & -> & Hs & Hc).
    exists items, children. split; [reflexivity|]. split; [|eapply IH; eauto].
    eapply state_shape_transport; [| |exact Hs]; [|auto].
    intros sid. rewrite (ext_descriptor _ _ sid He). reflexivity.
  - auto.
  - intros name sid rest IH σ σ' ow ps Hwf He. cbn [are_pickles]. eauto.
  - intros name c IHc rest IH σ σ' ow ps Hwf He. cbn [are_pickles].
    intros (p & ps' & -> & Hp & Hps). exists p, ps'. split; [reflexivity|].
    split; [|eapply IH; eauto].
    destruct ow as [i|]; simpl in *; [|eapply IHc; eauto].
    pose proof He as [_ [_ Hg]]. specialize (Hg (class_id c) i).
    destruct (cache (class_id c) σ !! i) as [j|].
    + rewrite Hg. eapply IHc; eauto.
    + destruct Hg as [->|(j & -> & Hj)]; [eapply IHc; eauto|].
      eapply (proj1 is_pickle_new_mutual); eauto.
Qed.

(** ** [cPickle.dumps] *)

Lemma getstate_spec cid dir o σ :
  wf_store σ → (o < next_id σ)%positive → members_distinct dir = true →
  ∃ items σ',
    SettingsState.__getstate__ (PyClass cid dir) o σ = (Return (marked items), σ') ∧
    ext σ σ' ∧ wf_store σ' ∧
    state_shape (λ c j, cache (class_id c) σ' !! o = Some j) dir (Some o) σ' items.
Proof.
  intros Hwf Ho Hdist.
  destruct (getstate_loop_spec dir σ o [] Hwf Ho Hdist (apart_nil dir))
    as (items & σ' & Hrun & He & Hwf' & Hs).
  exists items, σ'. split; [|auto].
  unfold SettingsState.__getstate__, bind. simpl class_dir. rewrite Hrun. simpl.
  destruct items; reflexivity.
Qed.

Lemma dumps_children_no_groups dir state σ :
  no_groups dir = true → cPickle.dumps_children dir state σ = (Return pk_nil, σ).
Proof.
  induction dir as [|name sid rest IH|name c rest IH]; simpl; auto. discriminate.
Qed.

Lemma are_pickles_no_groups dir ow σ :
  no_groups dir = true → are_pickles dir ow σ pk_nil.
Proof.
  induction dir as [|name sid rest IH|name c rest IH]; simpl; auto. discriminate.
Qed.

Lemma dumps_mutual :
  (∀ cls σ o, wf_store σ → (o < next_id σ)%positive → names_distinct cls = true →
     ∃ p σ', cPickle.dumps cls o σ = (Return p, σ') ∧
             ext σ σ' ∧ wf_store σ' ∧ is_pickle cls (Some o) σ' p) ∧
  (∀ dir σ o pre items, wf_store σ → (o < next_id σ)%positive →
     members_distinct dir = true → apart pre dir →
     state_shape (λ c j, cache (class_id c) σ !! o = Some j) dir (Some o) σ items →
     ∃ ps σ', cPickle.dumps_children dir (pre ++ items) σ = (Return ps, σ') ∧
              ext σ σ' ∧ wf_store σ' ∧ are_pickles dir (Some o) σ' ps).
Proof.
  apply pyclass_mutind.
  - intros cid dir IH σ o Hwf Ho Hdist. simpl in Hdist.
    destruct (getstate_spec cid dir o σ Hwf Ho Hdist) as (items & σ1 & Hget & He1 & Hwf1 & Hs).
    assert (Ho1 : (o < next_id σ1)%positive) by (pose proof (ext_next _ _ He1); lia).
    assert (Hch : ∃ ps σ', cPickle.dumps_children dir (marked items) σ1 = (Return ps, σ') ∧
                    ext σ1 σ' ∧ wf_store σ' ∧ are_pickles dir (Some o) σ' ps).
    { destruct items as [|kv items].
      - pose proof (state_shape_no_groups _ _ _ _ Hs) as Hng.
        exists pk_nil, σ1. rewrite (dumps_children_no_groups _ _ _ Hng).
        split; [reflexivity|]. split; [apply ext_refl|]. split; [exact Hwf1|].
        apply are_pickles_no_groups, Hng.
      - apply (IH σ1 o [] (kv :: items) Hwf1 Ho1 Hdist (apart_nil dir) Hs). }
    destruct Hch as (ps & σ2 & Hrun & He2 & Hwf2 & Hps).
    exists (PObject (PyClass cid dir) (marked items) ps), σ2.
    split; [|split; [|split]].
    + cbn [cPickle.dumps]. unfold bind. rewrite Hget, Hrun. reflexivity.
    + eapply ext_trans; eassumption.
    + exact Hwf2.
    + exists items, ps. split; [reflexivity|]. split; [|exact Hps].
      eapply state_shape_transport; [| |exact Hs]; [|auto].
      intros sid. rewrite (ext_descriptor _ _ sid He2). reflexivity.
  - intros σ o pre items Hwf Ho _ _ _. exists pk_nil, σ.
    split; [reflexivity|]. split; [apply ext_refl|]. split; [exact Hwf|reflexivity].
  - intros name sid rest IH σ o pre items Hwf Ho Hdist Hapart Hs.
    apply members_distinct_setting in Hdist as [Hfresh Hdist].
    cbn [cPickle.dumps_children are_pickles]. cbn [state_shape] in Hs.
    destruct (explicit (descriptor sid σ) (Some o)) as [v|].
    + destruct Hs as (items' & -> & Hs).
      replace (pre ++ (name, v) :: items') with ((pre ++ [(name, v)]) ++ items')
        by (rewrite <- app_assoc; reflexivity).
      apply IH; auto.
      apply apart_snoc; [eapply apart_setting_tail; eauto|exact Hfresh].
    + apply IH; auto. eapply apart_setting_tail; eauto.
  - intros name c IHc rest IH σ o pre items Hwf Ho Hdist Hapart Hs.
    apply members_distinct_group in Hdist as (Hfresh & Hc & Hdist).
    cbn [state_shape] in Hs. destruct Hs as (j & items' & -> & Hcache & Hs).
    cbn [cPickle.dumps_children are_pickles].
    rewrite dict_get_app by (eapply apart_group_head; eauto).
    rewrite dict_get_head.
    pose proof (wf_cache_Some σ _ _ _ Hwf Hcache) as [_ Hj].
    destruct (IHc σ j Hwf Hj Hc) as (p & σ1 & Hrunc & He1 & Hwf1 & Hp).
    assert (Ho1 : (o < next_id σ1)%positive) by (pose proof (ext_next _ _ He1); lia).
    replace (pre ++ (name, VInstance (class_id c) j) :: items')
      with ((pre ++ [(name, VInstance (class_id c) j)]) ++ items')
      by (rewrite <- app_assoc; reflexivity).
    destruct (IH σ1 o (pre ++ [(name, VInstance (class_id c) j)]) items' Hwf1 Ho1 Hdist)
      as (ps & σ2 & Hrun & He2 & Hwf2 & Hps).
    { apply apart_snoc; [eapply apart_group_tail; eauto|exact Hfresh]. }
    { eapply state_shape_transport; [| |exact Hs].
      - intros sid'. rewrite (ext_descriptor _ _ sid' He1). reflexivity.
      - intros c' j' Hc'. eapply grows_cache_Some; [apply He1|exact Hc']. }
    exists (pk_cons name p ps), σ2. split; [|split; [|split]].
    + unfold bind. rewrite Hrunc, Hrun. reflexivity.
    + eapply ext_trans; eassumption.
    + exact Hwf2.
    + exists p, ps. split; [reflexivity|]. split; [|exact Hps].
      simpl. rewrite (grows_cache_Some σ σ2 (class_id c) o j); [| |exact Hcache].
      * exact (proj1 is_pickle_ext_mutual c σ1 σ2 (Some j) p Hwf1 He2 Hp).
      * eapply grows_trans; [apply He1|apply He2].
Qed.

(** ** Stores that agree on a set of objects *)

Lemma same_statics_refl σ : same_statics σ σ.
Proof. intros sid. auto. Qed.

Lemma same_statics_trans σ1 σ2 σ3 :
  same_statics σ1 σ2 → same_statics σ2 σ3 → same_statics σ1 σ3.
Proof.
  intros H1 H2 sid. destruct (H1 sid) as (? & ? & ?), (H2 sid) as (? & ? & ?).
  repeat split; congruence.
Qed.

Lemma agree_refl (P : oid → Prop) τ : agree P τ τ.
Proof. split; [apply same_statics_refl|]. split; auto. Qed.

Lemma agree_weaken (P Q : oid → Prop) τ τ' :
  (∀ i, Q i → P i) → agree P τ τ' → agree Q τ τ'.
Proof. intros HPQ (Hs & Hd & Hc). split; [exact Hs|]. split; auto. Qed.

Lemma agree_trans (P : oid → Prop) τ1 τ2 τ3 :
  agree P τ1 τ2 → agree P τ2 τ3 → agree P τ1 τ3.
Proof.
  intros (Hs1 & Hd1 & Hc1) (Hs2 & Hd2 & Hc2).
  split; [eapply same_statics_trans; eauto|]. split.
  - intros sid i Hi. destruct (Hd1 sid i Hi) as (? & ? & ?).
    destruct (Hd2 sid i Hi) as (? & ? & ?). repeat split; congruence.
  - intros cid i Hi. rewrite (Hc2 cid i Hi). auto.
Qed.

Lemma leaf_of_None_statics σ τ name sid :
  same_statics σ τ →
  leaf_of name (descriptor sid τ) None = leaf_of name (descriptor sid σ) None.
Proof. intros Hs. destruct (Hs sid) as (_ & Hd & _). simpl. rewrite Hd. reflexivity. Qed.

Lemma view_None_statics_mutual :
  (∀ cls σ τ, same_statics σ τ → view cls None τ = view cls None σ) ∧
  (∀ dir σ τ, same_statics σ τ → view_members dir None τ = view_members dir None σ).
Proof.
  apply pyclass_mutind.
  - intros cid dir IH σ τ Hs. simpl. eauto.
  - reflexivity.
  - intros name sid rest IH σ τ Hs. simpl. rewrite (IH σ τ Hs). f_equal.
    apply leaf_of_None_statics, Hs.
  - intros name c IHc rest IH σ τ Hs. simpl.
    rewrite (IH σ τ Hs), (IHc σ τ Hs). reflexivity.
Qed.

Lemma leaf_of_agree (P : oid → Prop) τ τ' name sid j :
  agree P τ τ' → P j →
  leaf_of name (descriptor sid τ') (Some j) = leaf_of name (descriptor sid τ) (Some j).
Proof.
  intros (Hs & Hd & _) Hj. destruct (Hs sid) as (_ & Hdef & _).
  destruct (Hd sid j Hj) as (Ho & Hold & Hdirty).
  unfold leaf_of, Setting.isset, Setting.__get__, Setting.isdirty, Setting.get_old.
  rewrite Ho, Hold, Hdirty, Hdef. reflexivity.
Qed.

Lemma view_agree_mutual (P : oid → Prop) :
  (∀ cls τ τ' j, agree P τ τ' → inside P cls j τ →
     view cls (Some j) τ' = view cls (Some j) τ ∧ inside P cls j τ') ∧
  (∀ dir τ τ' j, agree P τ τ' → P j → inside_members P dir j τ →
     view_members dir (Some j) τ' = view_members dir (Some j) τ ∧
     inside_members P dir j τ').
Proof.
  apply pyclass_mutind.
  - intros cid dir IH τ τ' j Ha [Hj Hin]. simpl.
    destruct (IH τ τ' j Ha Hj Hin) as [Hv Hin']. auto.
  - intros. split; [reflexivity|exact I].
  - intros name sid rest IH τ τ' j Ha Hj Hin. cbn [view_members inside_members] in *.
    destruct (IH τ τ' j Ha Hj Hin) as [Hv Hin']. split; [|exact Hin'].
    rewrite Hv, (leaf_of_agree P τ τ' name sid j Ha Hj). reflexivity.
  - intros name c IHc rest IH τ τ' j Ha Hj [Hc Hin].
    cbn [view_members inside_members child_of].
    destruct (IH τ τ' j Ha Hj Hin) as [Hv Hin'].
    pose proof Ha as (Hs & _ & Hcache). rewrite (Hcache (class_id c) j Hj).
    destruct (cache (class_id c) τ !! j) as [j'|].
    + destruct (IHc τ τ' j' Ha Hc) as [Hvc Hinc]. rewrite Hv, Hvc. auto.
    + rewrite Hv, (proj1 view_None_statics_mutual c τ τ' Hs). auto.
Qed.

Lemma inside_mono_mutual (P Q : oid → Prop) :
  (∀ i, P i → Q i) →
  (∀ cls j τ, inside P cls j τ → inside Q cls j τ) ∧
  (∀ dir j τ, inside_members P dir j τ → inside_members Q dir j τ).
Proof.
  intros HPQ. apply pyclass_mutind.
  - intros cid dir IH j τ [Hj Hin]. simpl. auto.
  - auto.
  - intros name sid rest IH j τ. cbn [inside_members]. auto.
  - intros name c IHc rest IH j τ. cbn [inside_members]. intros [Hc Hin].
    split; [|auto]. destruct (cache (class_id c) τ !! j); auto.
Qed.

Lemma inside_and_mutual (P Q : oid → Prop) :
  (∀ cls j τ, inside P cls j τ → inside Q cls j τ → inside (λ i, P i ∧ Q i) cls j τ) ∧
  (∀ dir j τ, inside_members P dir j τ → inside_members Q dir j τ →
     inside_members (λ i, P i ∧ Q i) dir j τ).
Proof.
  apply pyclass_mutind.
  - intros cid dir IH j τ [Hj Hin] [Hj' Hin']. simpl. auto.
  - auto.
  - intros name sid rest IH j τ. cbn [inside_members]. auto.
  - intros name c IHc rest IH j τ. cbn [inside_members]. intros [Hc Hin] [Hc' Hin'].
    split; [|auto]. destruct (cache (class_id c) τ !! j); auto.
Qed.

Lemma wf_inside_mutual :
  (∀ cls j τ, wf_store τ → (j < next_id τ)%positive →
     inside (λ i, (i < next_id τ)%positive) cls j τ) ∧
  (∀ dir j τ, wf_store τ → (j < next_id τ)%positive →
     inside_members (λ i, (i < next_id τ)%positive) dir j τ).
Proof.
  apply pyclass_mutind.
  - intros cid dir IH j τ Hwf Hj. simpl. auto.
  - intros. exact I.
  - intros name sid rest IH j τ Hwf Hj. cbn [inside_members]. auto.
  - intros name c IHc rest IH j τ Hwf Hj. cbn [inside_members]. split; [|auto].
    destruct (cache (class_id c) τ !! j) as [j'|] eqn:E; [|exact I].
    apply IHc; [exact Hwf|]. apply (wf_cache_Some τ _ _ _ Hwf E).
Qed.

(** A restored instance stays restored while the store keeps the objects
    of its tree. *)
Lemma inside_mono (P Q : oid → Prop) cls j τ :
  (∀ i, P i → Q i) → inside P cls j τ → inside Q cls j τ.
Proof. intros HPQ. apply (proj1 (inside_mono_mutual P Q HPQ)). Qed.

Lemma restored_agree (P : oid → Prop) cls ow σ j τ τ' lo :
  agree P τ τ' → inside P cls j τ →
  restored cls ow σ j τ lo → restored cls ow σ j τ' lo.
Proof.
  intros Ha Hin (Hv & Hc & Hlo).
  destruct (proj1 (view_agree_mutual P) cls τ τ' j Ha Hin) as [Hview _].
  assert (Hboth : inside (λ i, (lo ≤ i)%positive ∧ P i) cls j τ)
    by (apply (proj1 (inside_and_mutual _ _)); assumption).
  assert (Ha' : agree (λ i, (lo ≤ i)%positive ∧ P i) τ τ').
  { eapply agree_weaken; [|exact Ha]. intros i [_ Hi]. exact Hi. }
  destruct (proj1 (view_agree_mutual _) cls τ τ' j Ha' Hboth) as [_ Hin'].
  unfold restored. rewrite Hview. split; [exact Hv|]. split; [exact Hc|].
  eapply inside_mono; [|exact Hin']. intros i [Hi _]. exact Hi.
Qed.

Lemma restored_lower cls ow σ j τ lo lo' :
  (lo' ≤ lo)%positive → restored cls ow σ j τ lo → restored cls ow σ j τ lo'.
Proof.
  intros Hle (Hv & Hc & Hin). split; [exact Hv|]. split; [exact Hc|].
  eapply inside_mono; [|exact Hin]. intros i Hi. simpl in *. lia.
Qed.

(** ** Well-built classes *)

Lemma pyclass_eqb_eq_mutual :
  (∀ a b, pyclass_eqb a b = true → a = b) ∧
  (∀ a b, members_eqb a b = true → a = b).
Proof.
  apply pyclass_mutind.
  - intros cid dir IH [cid' dir']. simpl. intros E.
    apply andb_prop in E as [E1 E2]. apply Pos.eqb_eq in E1. apply IH in E2. congruence.
  - intros []; simpl; [reflexivity|discriminate|discriminate].
  - intros name sid rest IH [|name' sid' rest'|name' c' rest']; simpl; try discriminate.
    intros E. apply andb_prop in E as [E E3]. apply andb_prop in E as [E1 E2].
    apply String.eqb_eq in E1. apply Pos.eqb_eq in E2. apply IH in E3. congruence.
  - intros name c IHc rest IH [|name' sid' rest'|name' c' rest']; simpl; try discriminate.
    intros E. apply andb_prop in E as [E E3]. apply andb_prop in E as [E1 E2].
    apply String.eqb_eq in E1. apply IHc in E2. apply IH in E3. congruence.
Qed.

Lemma members_ok_setting name sid rest :
  members_ok (dir_setting name sid rest) = true →
  name ≠ "__dummy__" ∧ getattr_class rest name = None ∧ members_ok rest = true.
Proof.
  simpl. intros E. apply andb_prop in E as [E E3]. apply andb_prop in E as [E1 E2].
  split; [|split; [|exact E3]].
  - intros ->. discriminate.
  - destruct (getattr_class rest name); [discriminate|reflexivity].
Qed.

Lemma members_ok_group name c rest :
  members_ok (dir_group name c rest) = true →
  name ≠ "__dummy__" ∧ getattr_class rest name = None ∧
  (∀ c', group_with_id (class_id c) rest = Some c' → c = c') ∧
  class_ok c = true ∧ members_ok rest = true.
Proof.
  simpl. intros E. apply andb_prop in E as [E E5]. apply andb_prop in E as [E E4].
  apply andb_prop in E as [E E3]. apply andb_prop in E as [E1 E2].
  split; [|split; [|split; [|split; assumption]]].
  - intros ->. discriminate.
  - destruct (getattr_class rest name); [discriminate|reflexivity].
  - intros c' Hc'. rewrite Hc' in E3. apply (proj1 pyclass_eqb_eq_mutual), E3.
Qed.

Lemma class_ok_distinct_mutual :
  (∀ cls, class_ok cls = true → names_distinct cls = true) ∧
  (∀ dir, members_ok dir = true → members_distinct dir = true).
Proof.
  apply pyclass_mutind.
  - intros cid dir IH. simpl. exact IH.
  - reflexivity.
  - intros name sid rest IH Hok.
    apply members_ok_setting in Hok as (_ & Hf & Hr). simpl. rewrite Hf. simpl. auto.
  - intros name c IHc rest IH Hok.
    apply members_ok_group in Hok as (_ & Hf & _ & Hc & Hr). simpl.
    rewrite Hf, (IHc Hc), (IH Hr). reflexivity.
Qed.

Lemma group_with_id_found rest name c :
  getattr_class rest name = Some (AGroup c) →
  ∃ c', group_with_id (class_id c) rest = Some c'.
Proof.
  induction rest as [|n sid rest IH|n c0 rest IH]; simpl; [discriminate| |].
  - destruct (String.eqb name n); [discriminate|exact IH].
  - destruct (Pos.eqb_spec (class_id c0) (class_id c)) as [_|Hne]; [eauto|].
    destruct (String.eqb name n); [|exact IH].
    intros E. injection E as ->. contradiction.
Qed.

Lemma group_with_id_member rest cid c' :
  members_ok rest = true → group_with_id cid rest = Some c' →
  class_id c' = cid ∧ ∃ name, getattr_class rest name = Some (AGroup c').
Proof.
  induction rest as [|n sid rest IH|n c0 rest IH]; simpl group_with_id; [discriminate| |].
  - intros Hok Hg. apply members_ok_setting in Hok as (_ & Hf & Hr).
    destruct (IH Hr Hg) as [Hid (name & Hn)]. split; [exact Hid|]. exists name. simpl.
    destruct (String.eqb_spec name n) as [->|_]; [congruence|exact Hn].
  - intros Hok Hg. apply members_ok_group in Hok as (_ & Hf & _ & _ & Hr).
    destruct (Pos.eqb_spec (class_id c0) cid) as [Hid|Hne].
    + injection Hg as <-. split; [exact Hid|]. exists n. apply getattr_class_group_eq.
    + destruct (IH Hr Hg) as [Hid (name & Hn)]. split; [exact Hid|]. exists name. simpl.
      destruct (String.eqb_spec name n) as [->|_]; [congruence|exact Hn].
Qed.

(** In a well-built class, a class identity stands for one group class. *)
Lemma groups_consistent dir :
  members_ok dir = true →
  ∀ n1 n2 c1 c2,
    getattr_class dir n1 = Some (AGroup c1) →
    getattr_class dir n2 = Some (AGroup c2) →
    class_id c1 = class_id c2 → c1 = c2.
Proof.
  induction dir as [|n sid rest IH|n c0 rest IH]; intros Hok n1 n2 c1 c2; simpl.
  - discriminate.
  - apply members_ok_setting in Hok as (_ & _ & Hr).
    destruct (String.eqb n1 n); [discriminate|].
    destruct (String.eqb n2 n); [discriminate|]. apply IH, Hr.
  - apply members_ok_group in Hok as (_ & _ & Hcons & _ & Hr).
    assert (Hhead : ∀ name c, getattr_class rest name = Some (AGroup c) →
                      class_id c0 = class_id c → c0 = c).
    { intros name c Hn Hid. destruct (group_with_id_found rest name c Hn) as [c' Hc'].
      rewrite <- Hid in Hc'. pose proof (Hcons c' Hc') as ->.
      destruct (group_with_id_member rest _ c' Hr Hc') as [_ (name' & Hn')].
      apply (IH Hr name' name c' c Hn' Hn). rewrite <- Hid.
      apply (group_with_id_member rest _ c' Hr Hc'). }
    destruct (String.eqb n1 n), (String.eqb n2 n); intros E1 E2 Hid.
    + congruence.
    + injection E1 as <-. eapply Hhead; eauto.
    + injection E2 as <-. symmetry. eapply Hhead; eauto.
    + eapply IH; eauto.
Qed.

(** ** The steps of [__setstate__] *)

Lemma set_stored s o v v' :
  stored_by s v = Some v' →
  Setting.__set__ o v s
  = (Return tt, Setting.with_dirty <[o := true]> (Setting.with_objects <[o := v']> s)).
Proof.
  unfold stored_by, Setting.__set__, bind, gets, modify, raise, Setting.coerce, ret.
  destruct v; simpl; try discriminate;
    try (destruct (Setting.nillable s); [|discriminate]; intros E; injection E as <-;
         reflexivity);
    (destruct (isinstance (Setting.type s) _);
     [intros E; injection E as <-; reflexivity|];
     destruct (construct (Setting.type s) _); [|discriminate];
     intros E; injection E as <-; reflexivity).
Qed.

Lemma stored_by_statics σ τ sid v :
  same_statics σ τ → stored_by (descriptor sid τ) v = stored_by (descriptor sid σ) v.
Proof.
  intros Hs. destruct (Hs sid) as (Ht & _ & Hn). unfold stored_by. rewrite Ht, Hn.
  reflexivity.
Qed.

Lemma cache_set_descriptor cid sid s τ :
  cache cid (set_descriptor sid s τ) = cache cid τ.
Proof. reflexivity. Qed.

Lemma descriptor_set_cache sid cid m τ :
  descriptor sid (set_cache cid m τ) = descriptor sid τ.
Proof. reflexivity. Qed.

(** Assigning a [Setting] during [__setstate__] and clearing its flag. *)
Lemma restore_setting_step sid o v τ :
  wf_store τ → (o < next_id τ)%positive →
  stored_by (descriptor sid τ) v = Some v →
  ∃ τ', bind (at_descriptor sid (Setting.__set__ o v))
             (λ _, at_descriptor sid (Setting.clear_dirty o)) τ = (Return tt, τ') ∧
        agree (λ i, i ≠ o) τ τ' ∧ wf_store τ' ∧ next_id τ' = next_id τ ∧
        Setting.objects (descriptor sid τ') !! o = Some v ∧
        Setting.dirty (descriptor sid τ') !! o = None ∧
        (∀ sid', sid' ≠ sid → descriptor sid' τ' = descriptor sid' τ) ∧
        (∀ cid, cache cid τ' = cache cid τ).
Proof.
  intros Hwf Ho Hst.
  unfold bind, at_descriptor. rewrite (set_stored _ o v v Hst).
  rewrite descriptor_set_eq, clear_dirty_run. simpl Setting.objects.
  rewrite lookup_insert_eq.
  set (s := descriptor sid τ).
  set (s2 := Setting.with_oldobjects <[o:=v]>
               (Setting.with_dirty (delete o)
                  (Setting.with_dirty <[o:=true]> (Setting.with_objects <[o:=v]> s)))).
  set (τ1 := set_descriptor sid _ τ).
  exists (set_descriptor sid s2 τ1).
  assert (Hd : ∀ sid', descriptor sid' (set_descriptor sid s2 τ1) =
                 if decide (sid = sid') then s2 else descriptor sid' τ).
  { intros sid'. destruct (decide (sid = sid')) as [<-|Hne].
    - apply descriptor_set_eq.
    - rewrite descriptor_set_ne by exact Hne. unfold τ1.
      rewrite descriptor_set_ne by exact Hne. reflexivity. }
  destruct (wf_descriptor τ sid Hwf) as (Hko & Hkold & Hkd). fold s in Hko, Hkold, Hkd.
  split; [reflexivity|]. split; [|split; [|split; [reflexivity|]]].
  - split; [|split].
    + intros sid'. rewrite Hd. destruct (decide (sid = sid')) as [<-|_]; auto.
    + intros sid' i Hi. rewrite Hd. destruct (decide (sid = sid')) as [<-|_]; [|auto].
      unfold s2. simpl. rewrite !lookup_insert_ne by congruence.
      rewrite lookup_delete_ne by congruence. rewrite lookup_insert_ne by congruence.
      auto.
    + intros cid i _. reflexivity.
  - apply wf_store_alt. apply wf_store_alt in Hwf as [Hwd Hwc]. split.
    + intros sid'. rewrite Hd. simpl next_id.
      destruct (decide (sid = sid')) as [<-|_]; [|apply Hwd].
      unfold s2. repeat split; simpl.
      * apply keys_below_insert; assumption.
      * apply keys_below_insert; assumption.
      * apply keys_below_delete, keys_below_insert; assumption.
    + intros cid. apply Hwc.
  - rewrite Hd, decide_True by reflexivity. unfold s2. simpl.
    split; [apply lookup_insert_eq|]. split; [apply lookup_delete_eq|].
    split; [|reflexivity]. intros sid' Hne. rewrite Hd, decide_False by congruence.
    reflexivity.
Qed.

(** Assigning a group instance during [__setstate__]. *)
Lemma restore_group_step c o j τ :
  wf_store τ → (o < next_id τ)%positive → (j < next_id τ)%positive →
  ∃ τ', SettingsGroupMeta.__set__ c o (VInstance (class_id c) j) τ = (Return tt, τ') ∧
        agree (λ i, i ≠ o) τ τ' ∧ wf_store τ' ∧ next_id τ' = next_id τ ∧
        cache (class_id c) τ' !! o = Some j ∧
        (∀ cid, cid ≠ class_id c → cache cid τ' = cache cid τ) ∧
        (∀ sid, descriptor sid τ' = descriptor sid τ).
Proof.
  intros Hwf Ho Hj. unfold SettingsGroupMeta.__set__. rewrite Pos.eqb_refl.
  unfold modify. eexists. split; [reflexivity|].
  set (τ' := set_cache _ _ τ).
  assert (Hc : ∀ cid, cache cid τ' =
                 if decide (class_id c = cid) then <[o := j]> (cache cid τ)
                 else cache cid τ).
  { intros cid. unfold τ'. destruct (decide (class_id c = cid)) as [<-|Hne].
    - apply cache_set_cache_eq.
    - apply cache_set_cache_ne, Hne. }
  split; [|split; [|split; [reflexivity|]]].
  - split; [intros sid; repeat split; reflexivity|]. split; [intros; repeat split; reflexivity|].
    intros cid i Hi. rewrite Hc. destruct (decide (class_id c = cid)) as [<-|_]; [|auto].
    apply lookup_insert_ne. congruence.
  - apply wf_store_alt. apply wf_store_alt in Hwf as [Hwd Hwc]. split.
    + intros sid. apply Hwd.
    + intros cid. rewrite Hc. simpl next_id.
      destruct (decide (class_id c = cid)) as [<-|_]; [|apply Hwc].
      apply wf_cache_insert; auto.
  - split; [rewrite Hc, decide_True by reflexivity; apply lookup_insert_eq|].
    split; [|reflexivity]. intros cid Hne. rewrite Hc, decide_False by congruence.
    reflexivity.
Qed.

(** ** The loop of [__setstate__] *)

Section Setstate.

Variables (cid0 : positive) (full : members) (o' : oid) (ow : option oid)
  (σ : store) (lo : oid).
Hypothesis Hfull : members_ok full = true.
Hypothesis Hlo : (o' < lo)%positive.

Let cls0 := PyClass cid0 full.

Lemma inside_not_self c j τ :
  inside (λ i, (lo ≤ i)%positive) c j τ → inside (λ i, i ≠ o') c j τ.
Proof. apply inside_mono. intros i Hi. lia. Qed.

Lemma good_ref_agree τ τ' c j :
  agree (λ i, i ≠ o') τ τ' → next_id τ' = next_id τ →
  good_ref ow σ lo τ c j → good_ref ow σ lo τ' c j.
Proof.
  intros Ha Hn [Hj Hr]. split; [lia|].
  eapply restored_agree; [exact Ha| |exact Hr]. apply inside_not_self, Hr.
Qed.

Lemma good_cache_agree τ τ' cid j :
  agree (λ i, i ≠ o') τ τ' → next_id τ' = next_id τ →
  good_cache full ow σ lo τ cid j → good_cache full ow σ lo τ' cid j.
Proof.
  intros Ha Hn [Hj Hr]. split; [lia|]. intros name c Hg Hid.
  specialize (Hr name c Hg Hid).
  eapply restored_agree; [exact Ha| |exact Hr]. apply inside_not_self, Hr.
Qed.

Lemma good_ref_cache τ name c j :
  getattr_class full name = Some (AGroup c) →
  good_ref ow σ lo τ c j → good_cache full ow σ lo τ (class_id c) j.
Proof.
  intros Hg [Hj Hr]. split; [exact Hj|]. intros name' c' Hg' Hid.
  rewrite (groups_consistent full Hfull name' name c' c Hg' Hg Hid). exact Hr.
Qed.

Lemma touched_refl τ : touched full o' ow σ lo τ τ.
Proof. split; intros; auto. Qed.

Lemma touched_trans τ1 τ2 τ3 :
  touched full o' ow σ lo τ1 τ2 → touched full o' ow σ lo τ2 τ3 →
  agree (λ i, i ≠ o') τ2 τ3 → next_id τ3 = next_id τ2 →
  touched full o' ow σ lo τ1 τ3.
Proof.
  intros [Hd1 Hc1] [Hd2 Hc2] Ha Hn. split.
  - intros sid. destruct (Hd1 sid) as [Hdirty1 Hobj1], (Hd2 sid) as [Hdirty2 Hobj2]. split.
    + destruct Hdirty2 as [E2|E2]; [|auto]. rewrite E2. exact Hdirty1.
    + destruct Hobj2 as [E2|E2]; [|auto]. rewrite E2. exact Hobj1.
  - intros cid. destruct (Hc2 cid) as [E2|E2]; [|auto]. rewrite E2.
    destruct (Hc1 cid) as [E1|(j & E1 & Hg)]; [auto|].
    right. exists j. split; [exact E1|]. eapply good_cache_agree; eauto.
Qed.

Lemma setstate_loop_spec dir : ∀ items τ,
  members_ok dir = true →
  (∀ name a, getattr_class dir name = Some a → getattr_class full name = Some a) →
  state_shape (good_ref ow σ lo τ) dir ow σ items →
  settable_members dir ow σ → same_statics σ τ →
  wf_store τ → (o' < next_id τ)%positive →
  ∃ τ', SettingsState.setstate_loop cls0 o' items τ = (Return tt, τ') ∧
        agree (λ i, i ≠ o') τ τ' ∧ wf_store τ' ∧ next_id τ' = next_id τ ∧
        touched full o' ow σ lo τ τ' ∧ assigned full dir o' ow σ lo τ'.
Proof.
  induction dir as [|name sid rest IH|name c rest IH];
    intros items τ Hok Hsub Hshape Hsettable Hst Hwf Ho.
  - simpl in Hshape. subst items. exists τ. split; [reflexivity|].
    split; [apply agree_refl|]. split; [exact Hwf|]. split; [reflexivity|].
    split; [apply touched_refl|]. split; intros; discriminate.
  - apply members_ok_setting in Hok as (_ & Hfresh & Hok).
    assert (Hsub' : ∀ n a, getattr_class rest n = Some a → getattr_class full n = Some a).
    { intros n a Hn. apply Hsub. simpl.
      destruct (String.eqb_spec n name) as [->|_]; [congruence|exact Hn]. }
    cbn [state_shape] in Hshape. cbn [settable_members] in Hsettable.
    destruct Hsettable as [Hset Hsettable].
    destruct (explicit (descriptor sid σ) ow) as [v|] eqn:Hex.
    + destruct Hshape as (items' & -> & Hshape).
      assert (Hstored : stored_by (descriptor sid τ) v = Some v).
      { rewrite (stored_by_statics σ τ sid v Hst).
        destruct ow as [i|]; [|discriminate]. simpl in Hex, Hset.
        rewrite Hex in Hset. exact Hset. }
      destruct (restore_setting_step sid o' v τ Hwf Ho Hstored)
        as (τ1 & Hrun1 & Ha1 & Hwf1 & Hn1 & Hobj1 & Hdirty1 & Hother1 & Hcache1).
      destruct (IH items' τ1 Hok Hsub') as (τ2 & Hrun2 & Ha2 & Hwf2 & Hn2 & Ht2 & Has2).
      { eapply state_shape_transport; [| |exact Hshape]; [reflexivity|].
        intros c j. apply good_ref_agree; assumption. }
      { exact Hsettable. }
      { eapply same_statics_trans; [exact Hst|apply Ha1]. }
      { exact Hwf1. }
      { lia. }
      assert (Ht1 : touched full o' ow σ lo τ τ1).
      { split.
        - intros sid'. destruct (decide (sid' = sid)) as [->|Hne].
          + rewrite Hobj1, Hdirty1. auto.
          + rewrite (Hother1 sid' Hne). auto.
        - intros cid. rewrite Hcache1. auto. }
      exists τ2. split; [|split; [|split; [|split; [|split]]]].
      * cbn [SettingsState.setstate_loop]. unfold SettingsState.setattr.
        simpl class_dir. rewrite (Hsub name (ASetting sid) (getattr_class_setting_eq _ _ _)).
        unfold bind in Hrun1 |- *.
        destruct (at_descriptor sid (Setting.__set__ o' v) τ) as [[[]|e] τa];
          [|discriminate].
        rewrite Hrun1. exact Hrun2.
      * eapply agree_trans; eassumption.
      * exact Hwf2.
      * congruence.
      * eapply touched_trans; eassumption.
      * destruct Has2 as [Hs2 Hg2]. split.
        -- intros n sid' v' Hn Hex'. simpl in Hn.
           destruct (String.eqb n name); [|eapply Hs2; eauto].
           injection Hn as <-. rewrite Hex in Hex'. injection Hex' as <-.
           destruct Ht2 as [Hd2 _]. destruct (Hd2 sid) as [_ [E|E]].
           ++ rewrite E. exact Hobj1.
           ++ rewrite E. exact Hex.
        -- intros n c Hn. simpl in Hn.
           destruct (String.eqb n name); [discriminate|eapply Hg2; eauto].
    + destruct (IH items τ Hok Hsub' Hshape Hsettable Hst Hwf Ho)
        as (τ2 & Hrun2 & Ha2 & Hwf2 & Hn2 & Ht2 & Has2).
      exists τ2. split; [exact Hrun2|]. split; [exact Ha2|]. split; [exact Hwf2|].
      split; [exact Hn2|]. split; [exact Ht2|].
      destruct Has2 as [Hs2 Hg2]. split.
      * intros n sid' v' Hn Hex'. simpl in Hn.
        destruct (String.eqb n name); [|eapply Hs2; eauto].
        injection Hn as <-. congruence.
      * intros n c Hn. simpl in Hn.
        destruct (String.eqb n name); [discriminate|eapply Hg2; eauto].
  - apply members_ok_group in Hok as (_ & Hfresh & _ & _ & Hok).
    assert (Hsub' : ∀ n a, getattr_class rest n = Some a → getattr_class full n = Some a).
    { intros n a Hn. apply Hsub. simpl.
      destruct (String.eqb_spec n name) as [->|_]; [congruence|exact Hn]. }
    cbn [state_shape] in Hshape. cbn [settable_members] in Hsettable.
    destruct Hsettable as [_ Hsettable].
    destruct Hshape as (j & items' & -> & Hgood & Hshape).
    pose proof (Hsub name (AGroup c) (getattr_class_group_eq _ _ _)) as Hname.
    destruct (restore_group_step c o' j τ Hwf Ho (proj1 Hgood))
      as (τ1 & Hrun1 & Ha1 & Hwf1 & Hn1 & Hc1 & Hother1 & Hdesc1).
    destruct (IH items' τ1 Hok Hsub') as (τ2 & Hrun2 & Ha2 & Hwf2 & Hn2 & Ht2 & Has2).
    { eapply state_shape_transport; [| |exact Hshape]; [reflexivity|].
      intros c' j'. apply good_ref_agree; assumption. }
    { exact Hsettable. }
    { eapply same_statics_trans; [exact Hst|apply Ha1]. }
    { exact Hwf1. }
    { lia. }
    assert (Hgc1 : good_cache full ow σ lo τ1 (class_id c) j).
    { eapply good_ref_cache; [exact Hname|]. eapply good_ref_agree; eauto. }
    assert (Ht1 : touched full o' ow σ lo τ τ1).
    { split.
      - intros sid. rewrite Hdesc1. auto.
      - intros cid. destruct (decide (cid = class_id c)) as [->|Hne].
        + right. exists j. auto.
        + rewrite (Hother1 cid Hne). auto. }
    exists τ2. split; [|split; [|split; [|split; [|split]]]].
    * cbn [SettingsState.setstate_loop]. unfold SettingsState.setattr.
      simpl class_dir. rewrite Hname. unfold bind at 1. rewrite Hrun1.
      unfold bind at 1. unfold ret at 1. exact Hrun2.
    * eapply agree_trans; eassumption.
    * exact Hwf2.
    * congruence.
    * eapply touched_trans; eassumption.
    * destruct Has2 as [Hs2 Hg2]. split.
      -- intros n sid' v' Hn Hex'. simpl in Hn.
         destruct (String.eqb n name); [discriminate|eapply Hs2; eauto].
      -- intros n c' Hn. simpl in Hn.
         destruct (String.eqb n name); [|eapply Hg2; eauto].
         injection Hn as <-. destruct Ht2 as [_ Hc2].
         destruct (Hc2 (class_id c)) as [E|(j2 & E & Hg)].
         ++ exists j. rewrite E. split; [exact Hc1|].
            eapply good_cache_agree; eauto.
         ++ exists j2. auto.
Qed.

End Setstate.

(** ** The restored instance reads as the source *)

Lemma leaf_value_leaf_of name s ow :
  leaf_value (leaf_of name s ow) =
  ([name], bool_decide (is_Some (explicit s ow)),
   from_option id (Setting.default s) (explicit s ow)).
Proof. destruct ow; reflexivity. Qed.

Lemma leaf_value_under name ls :
  map leaf_value (map (under name) ls) =
  map (λ x, (name :: x.1.1, x.1.2, x.2)) (map leaf_value ls).
Proof. rewrite !map_map. reflexivity. Qed.

Lemma members_distinct_sub name a dir full :
  (∀ n b, getattr_class dir n = Some b → getattr_class full n = Some b) →
  getattr_class dir name = Some a → getattr_class full name = Some a.
Proof. auto. Qed.

Section Assemble.

Variables (full : members) (o' : oid) (ow : option oid) (σ τ' : store) (lo : oid).
Hypothesis F1 : ∀ sid, Setting.objects (descriptor sid τ') !! o' = None ∨
                       Setting.objects (descriptor sid τ') !! o' = explicit (descriptor sid σ) ow.
Hypothesis F2 : ∀ sid, Setting.dirty (descriptor sid τ') !! o' = None.
Hypothesis F3 : assigned full full o' ow σ lo τ'.
Hypothesis F4 : same_statics σ τ'.

Lemma assemble dir :
  (∀ n a, getattr_class dir n = Some a → getattr_class full n = Some a) →
  members_distinct dir = true →
  map leaf_value (view_members dir (Some o') τ') = map leaf_value (view_members dir ow σ) ∧
  clean (view_members dir (Some o') τ') ∧
  inside_members (λ i, (lo ≤ i)%positive) dir o' τ'.
Proof.
  induction dir as [|name sid rest IH|name c rest IH]; intros Hsub Hdist.
  - split; [reflexivity|]. split; [constructor|exact I].
  - apply members_distinct_setting in Hdist as [Hfresh Hdist].
    destruct IH as (Hv & Hc & Hin); [|exact Hdist|].
    { intros n a Hn. apply Hsub. simpl.
      destruct (String.eqb_spec n name) as [->|_]; [congruence|exact Hn]. }
    pose proof (Hsub name _ (getattr_class_setting_eq name sid rest)) as Hname.
    assert (Hobj : explicit (descriptor sid τ') (Some o') = explicit (descriptor sid σ) ow).
    { simpl. destruct (explicit (descriptor sid σ) ow) as [v|] eqn:Hex.
      - destruct F3 as [Hs _]. eapply Hs; eauto.
      - destruct (F1 sid) as [E|E]; [exact E|]. rewrite E. exact Hex. }
    cbn [view_members inside_members]. split; [|split; [|exact Hin]].
    + cbn [map]. rewrite Hv, !leaf_value_leaf_of, Hobj.
      destruct (F4 sid) as (_ & -> & _). reflexivity.
    + constructor; [|exact Hc]. simpl. unfold Setting.isdirty. rewrite F2. reflexivity.
  - apply members_distinct_group in Hdist as (Hfresh & _ & Hdist).
    destruct IH as (Hv & Hc & Hin); [|exact Hdist|].
    { intros n a Hn. apply Hsub. simpl.
      destruct (String.eqb_spec n name) as [->|_]; [congruence|exact Hn]. }
    pose proof (Hsub name _ (getattr_class_group_eq name c rest)) as Hname.
    destruct F3 as [_ Hg]. destruct (Hg name c Hname) as (j & Hcache & Hj & Hgood).
    destruct (Hgood name c Hname eq_refl) as (Hvj & Hcj & Hinj).
    cbn [view_members inside_members child_of]. rewrite Hcache.
    split; [|split; [|split; assumption]].
    + rewrite !map_app, !leaf_value_under, Hv, Hvj. reflexivity.
    + apply clean_app; [apply clean_under, Hcj|exact Hc].
Qed.

End Assemble.

(** ** [cPickle.loads] *)

Lemma is_pickle_class cls ow σ p : is_pickle cls ow σ p → pickled_class p = cls.
Proof. destruct cls as [cid dir]. intros (items & children & -> & _). reflexivity. Qed.

Lemma state_shape_keys G dir ow σ items k :
  state_shape G dir ow σ items → getattr_class dir k = None → dict_get k items = None.
Proof.
  revert items. induction dir as [|name sid rest IH|name c rest IH]; intros items; simpl.
  - intros -> _. reflexivity.
  - destruct (String.eqb_spec k name) as [->|Hne]; [discriminate|].
    destruct (explicit (descriptor sid σ) ow).
    + intros (items' & -> & Hs) Hk. simpl.
      destruct (String.eqb_spec k name); [contradiction|]. eapply IH; eauto.
    + apply IH.
  - destruct (String.eqb_spec k name) as [->|Hne]; [discriminate|].
    intros (j & items' & -> & _ & Hs) Hk. simpl.
    destruct (String.eqb_spec k name); [contradiction|]. eapply IH; eauto.
Qed.

Lemma dict_pop_absent {V} (k : string) (d : dict V) :
  dict_get k d = None → dict_pop k d = d.
Proof.
  induction d as [|[k' v'] d IH]; simpl; [reflexivity|].
  destruct (String.eqb k k'); [discriminate|]. intros Hg. rewrite (IH Hg). reflexivity.
Qed.

Lemma members_ok_no_dummy dir :
  members_ok dir = true → getattr_class dir "__dummy__" = None.
Proof.
  induction dir as [|name sid rest IH|name c rest IH]; intros Hok.
  - reflexivity.
  - apply members_ok_setting in Hok as (Hn & _ & Hok). cbn [getattr_class].
    destruct (String.eqb_spec "__dummy__" name) as [E|_]; [congruence|auto].
  - apply members_ok_group in Hok as (Hn & _ & _ & _ & Hok). cbn [getattr_class].
    destruct (String.eqb_spec "__dummy__" name) as [E|_]; [congruence|auto].
Qed.

Lemma are_pickles_no_groups_inv dir ow σ ps :
  no_groups dir = true → are_pickles dir ow σ ps → ps = pk_nil.
Proof.
  induction dir as [|name sid rest IH|name c rest IH]; simpl; auto. discriminate.
Qed.

Lemma agree_same (P : oid → Prop) τ τ' :
  (∀ sid, descriptor sid τ' = descriptor sid τ) →
  (∀ cid, cache cid τ' = cache cid τ) → agree P τ τ'.
Proof.
  intros Hd Hc. split; [|split].
  - intros sid. rewrite Hd. auto.
  - intros sid i _. rewrite Hd. auto.
  - intros cid i _. rewrite Hc. reflexivity.
Qed.

Lemma new_instance_spec τ :
  wf_store τ →
  ∃ τa, new_instance τ = (Return (next_id τ), τa) ∧
        next_id τa = Pos.succ (next_id τ) ∧ wf_store τa ∧
        (∀ sid, descriptor sid τa = descriptor sid τ) ∧
        (∀ cid, cache cid τa = cache cid τ).
Proof.
  intros Hwf. eexists. split; [reflexivity|]. split; [reflexivity|].
  split; [|split; reflexivity].
  apply wf_store_alt. apply wf_store_alt in Hwf as [Hd Hc]. split.
  - intros sid. eapply wf_setting_mono; [|apply (Hd sid)]. simpl. lia.
  - intros cid. eapply wf_cache_mono; [|apply (Hc cid)]. simpl. lia.
Qed.

Lemma loads_mutual :
  (∀ cls σ ow p τ,
     class_ok cls = true → is_pickle cls ow σ p → settable_tree cls ow σ →
     same_statics σ τ → wf_store τ →
     ∃ τ', cPickle.loads p τ = (Return (next_id τ), τ') ∧
           agree (λ i, (i < next_id τ)%positive) τ τ' ∧ wf_store τ' ∧
           (next_id τ < next_id τ')%positive ∧
           restored cls ow σ (next_id τ) τ' (next_id τ)) ∧
  (∀ dir σ ow ps pre items τ lo,
     members_ok dir = true → are_pickles dir ow σ ps →
     state_shape (λ _ _, True) dir ow σ items → settable_members dir ow σ →
     same_statics σ τ → wf_store τ → apart pre dir → (lo ≤ next_id τ)%positive →
     ∃ items' τ',
       cPickle.loads_children ps (pre ++ items) τ = (Return (pre ++ items'), τ') ∧
       agree (λ i, (i < next_id τ)%positive) τ τ' ∧ wf_store τ' ∧
       (next_id τ ≤ next_id τ')%positive ∧
       state_shape (good_ref ow σ lo τ') dir ow σ items').
Proof.
  apply pyclass_mutind.
  - intros cid dir IH σ ow p τ Hok Hp Hsettable Hst Hwf.
    simpl in Hok, Hsettable. destruct Hp as (items & children & -> & Hshape & Hps).
    destruct (new_instance_spec τ Hwf) as (τa & Hnew & Hna & Hwfa & Hda & Hca).
    assert (Haa : ∀ P, agree P τ τa) by (intros P; apply agree_same; assumption).
    assert (Hsta : same_statics σ τa)
      by (eapply same_statics_trans; [exact Hst|apply (Haa (λ _, True))]).
    assert (Hpre : ∃ pre0, marked items = pre0 ++ items ∧ apart pre0 dir ∧
                     ∀ items', state_shape (good_ref ow σ (next_id τa) τa) dir ow σ items' ∨ True →
                       dict_get "__dummy__" items' = None →
                       dict_pop "__dummy__" (pre0 ++ items') = items').
    { destruct items as [|kv items].
      - exists empty_marker. split; [reflexivity|]. split.
        + intros k. destruct (String.eqb_spec k "__dummy__") as [->|Hne].
          * left. apply members_ok_no_dummy, Hok.
          * right. simpl. destruct (String.eqb_spec k "__dummy__"); [contradiction|reflexivity].
        + intros items' _ _. reflexivity.
      - exists []. split; [reflexivity|]. split; [apply apart_nil|].
        intros items' _ Hk. apply dict_pop_absent, Hk. }
    destruct Hpre as (pre0 & Hmarked & Hapart & Hpop).
    destruct (IH σ ow children pre0 items τa (next_id τa) Hok Hps Hshape Hsettable Hsta
                Hwfa Hapart (Pos.le_refl _))
      as (items' & τb & Hrunb & Hab & Hwfb & Hnb & Hshape').
    assert (Hstb : same_statics σ τb)
      by (eapply same_statics_trans; [exact Hsta|apply Hab]).
    assert (Hlo : (next_id τ < next_id τa)%positive) by lia.
    assert (Hob : (next_id τ < next_id τb)%positive) by lia.
    destruct (setstate_loop_spec cid dir (next_id τ) ow σ (next_id τa) Hok Hlo dir items' τb
                Hok (λ _ _ E, E) Hshape' Hsettable Hstb Hwfb Hob)
      as (τc & Hrunc & Hac & Hwfc & Hnc & Htc & Hasc).
    exists τc. split; [|split; [|split; [|split]]].
    + cbn [cPickle.loads]. unfold bind at 1. rewrite Hnew, Hmarked.
      unfold bind at 1. rewrite Hrunb. unfold SettingsState.__setstate__.
      rewrite (Hpop items' (or_intror I)
                 (state_shape_keys _ _ _ _ _ _ Hshape' (members_ok_no_dummy dir Hok))).
      unfold bind at 1. rewrite Hrunc. reflexivity.
    + eapply agree_trans; [apply Haa|]. eapply agree_trans.
      * eapply agree_weaken; [|exact Hab]. intros i Hi. simpl in *. lia.
      * eapply agree_weaken; [|exact Hac]. intros i Hi. simpl in *. lia.
    + exact Hwfc.
    + lia.
    + assert (Hblank : ∀ sid,
                Setting.objects (descriptor sid τb) !! next_id τ = None ∧
                Setting.dirty (descriptor sid τb) !! next_id τ = None).
      { intros sid. destruct Hab as (_ & Hd & _).
        destruct (Hd sid (next_id τ) Hlo) as (-> & _ & ->). rewrite Hda.
        destruct (wf_descriptor τ sid Hwf) as (Hko & _ & Hkd).
        split; eapply keys_below_None; eauto; lia. }
      assert (G1 : ∀ sid, Setting.objects (descriptor sid τc) !! next_id τ = None ∨
                 Setting.objects (descriptor sid τc) !! next_id τ
                   = explicit (descriptor sid σ) ow).
      { intros sid. destruct Htc as [Hd _]. destruct (Hd sid) as [_ [E|E]]; [|auto].
        left. rewrite E. apply Hblank. }
      assert (G2 : ∀ sid, Setting.dirty (descriptor sid τc) !! next_id τ = None).
      { intros sid. destruct Htc as [Hd _]. destruct (Hd sid) as [[E|E] _]; [|auto].
        rewrite E. apply Hblank. }
      assert (G4 : same_statics σ τc)
        by (eapply same_statics_trans; [exact Hstb|apply Hac]).
      destruct (assemble dir (next_id τ) ow σ τc (next_id τa) G1 G2 Hasc G4 dir
                  (λ _ _ E, E) (proj2 class_ok_distinct_mutual dir Hok))
        as (Hv & Hc & Hin).
      split; [exact Hv|]. split; [exact Hc|]. simpl. split; [lia|].
      assert (Hmono : ∀ i, (next_id τa ≤ i)%positive → (next_id τ ≤ i)%positive)
        by (intros i Hi; lia).
      apply (proj2 (inside_mono_mutual _ _ Hmono)). exact Hin.
  - intros σ ow ps pre items τ lo _ Hps Hshape _ _ Hwf _ _.
    simpl in Hps, Hshape. subst ps items. exists [], τ.
    split; [reflexivity|]. split; [apply agree_refl|]. split; [exact Hwf|].
    split; [lia|reflexivity].
  - intros name sid rest IH σ ow ps pre items τ lo Hok Hps Hshape Hsettable Hst Hwf Hapart Hle.
    apply members_ok_setting in Hok as (_ & Hfresh & Hok).
    cbn [are_pickles state_shape settable_members] in *.
    destruct Hsettable as [_ Hsettable].
    destruct (explicit (descriptor sid σ) ow) as [v|].
    + destruct Hshape as (items0 & -> & Hshape).
      destruct (IH σ ow ps (pre ++ [(name, v)]) items0 τ lo Hok Hps Hshape Hsettable Hst Hwf)
        as (items' & τ' & Hrun & Ha & Hwf' & Hn & Hshape'); [|exact Hle|].
      { apply apart_snoc; [eapply apart_setting_tail; eauto|exact Hfresh]. }
      exists ((name, v) :: items'), τ'. rewrite <- !app_assoc in Hrun. simpl in Hrun.
      split; [exact Hrun|]. split; [exact Ha|]. split; [exact Hwf'|]. split; [exact Hn|].
      eauto.
    + apply IH; auto. eapply apart_setting_tail; eauto.
  - intros name c IHc rest IH σ ow ps pre items τ lo Hok Hps Hshape Hsettable Hst Hwf
      Hapart Hle.
    apply members_ok_group in Hok as (_ & Hfresh & _ & Hokc & Hok).
    cbn [are_pickles state_shape settable_members] in *.
    destruct Hsettable as [Hsc Hsettable].
    destruct Hps as (p & ps' & -> & Hp & Hps).
    destruct Hshape as (j0 & items0 & -> & _ & Hshape).
    destruct (IHc σ (child_of c ow σ) p τ Hokc Hp Hsc Hst Hwf)
      as (τ1 & Hrun1 & Ha1 & Hwf1 & Hn1 & Hr1).
    assert (Hst1 : same_statics σ τ1)
      by (eapply same_statics_trans; [exact Hst|apply Ha1]).
    destruct (IH σ ow ps' (pre ++ [(name, VInstance (class_id c) (next_id τ))]) items0 τ1 lo
                Hok Hps Hshape Hsettable Hst1 Hwf1)
      as (items' & τ2 & Hrun2 & Ha2 & Hwf2 & Hn2 & Hshape'); [|lia|].
    { apply apart_snoc; [eapply apart_group_tail; eauto|exact Hfresh]. }
    exists ((name, VInstance (class_id c) (next_id τ)) :: items'), τ2.
    rewrite <- !app_assoc in Hrun2. simpl in Hrun2.
    split; [|split; [|split; [|split]]].
    + cbn [cPickle.loads_children]. unfold bind. rewrite Hrun1.
      rewrite (is_pickle_class _ _ _ _ Hp).
      rewrite dict_set_app by (eapply apart_group_head; eauto).
      rewrite dict_set_head. exact Hrun2.
    + eapply agree_trans; [exact Ha1|].
      eapply agree_weaken; [|exact Ha2]. intros i Hi. simpl in *. lia.
    + exact Hwf2.
    + lia.
    + exists (next_id τ), items'. split; [reflexivity|]. split; [|exact Hshape'].
      split; [lia|].
      eapply (restored_agree (λ i, (i < next_id τ1)%positive)); [exact Ha2| |].
      * apply (proj1 wf_inside_mutual); [exact Hwf1|lia].
      * eapply restored_lower; [|exact Hr1]. exact Hle.
Qed.

(** ** The round trip *)

Lemma settable_None_mutual :
  (∀ cls σ, settable_tree cls None σ) ∧ (∀ dir σ, settable_members dir None σ).
Proof.
  apply pyclass_mutind; intros; cbn [settable_tree settable_members]; simpl; auto.
Qed.

Lemma settable_new_mutual :
  (∀ cls σ σ' j, wf_store σ → ext σ σ' → (next_id σ ≤ j)%positive →
     settable_tree cls (Some j) σ') ∧
  (∀ dir σ σ' j, wf_store σ → ext σ σ' → (next_id σ ≤ j)%positive →
     settable_members dir (Some j) σ').
Proof.
  apply pyclass_mutind.
  - intros cid dir IH σ σ' j Hwf He Hj. simpl. eauto.
  - intros. exact I.
  - intros name sid rest IH σ σ' j Hwf He Hj. cbn [settable_members].
    split; [|eauto]. pose proof (explicit_new σ σ' sid j Hwf He Hj) as E.
    simpl in E. simpl. rewrite E. exact I.
  - intros name c IHc rest IH σ σ' j Hwf He Hj. cbn [settable_members].
    split; [|eauto]. simpl.
    pose proof He as [_ [_ Hg]]. specialize (Hg (class_id c) j).
    rewrite (wf_cache_None σ (class_id c) j Hwf Hj) in Hg.
    destruct Hg as [->|(j' & -> & Hj')]; [apply settable_None_mutual|eauto].
Qed.

Lemma settable_ext_mutual :
  (∀ cls σ σ' ow, wf_store σ → ext σ σ' →
     settable_tree cls ow σ → settable_tree cls ow σ') ∧
  (∀ dir σ σ' ow, wf_store σ → ext σ σ' →
     settable_members dir ow σ → settable_members dir ow σ').
Proof.
  apply pyclass_mutind.
  - intros cid dir IH σ σ' ow Hwf He. simpl. eauto.
  - auto.
  - intros name sid rest IH σ σ' ow Hwf He. cbn [settable_members].
    rewrite (ext_descriptor _ _ sid He). intros [Hs Hr]. eauto.
  - intros name c IHc rest IH σ σ' ow Hwf He. cbn [settable_members].
    intros [Hs Hr]. split; [|eauto].
    destruct ow as [i|]; simpl in *; [|apply settable_None_mutual].
    pose proof He as [_ [_ Hg]]. specialize (Hg (class_id c) i).
    destruct (cache (class_id c) σ !! i) as [j|].
    + rewrite Hg. eauto.
    + destruct Hg as [->|(j & -> & Hj)]; [apply settable_None_mutual|].
      eapply (proj1 settable_new_mutual); eauto.
Qed.

(** C3, as stated, fails: on a new root, [undo] of the setting [name]
    (default [None], not nillable) stores [None]; the pickle of that
    tree holds [name: None], and loading it raises the [ValueError] of
    [Setting.__set__] instead of yielding a tree. *)
Lemma round_trip_fails_after_undo :
  wf_store undone_store ∧ class_ok root_class = true ∧
  Setting.isset (descriptor 2 undone_store) 1 = true ∧
  Setting.__get__ (descriptor 2 undone_store) 1 = VNone ∧
  result (round_trip root_class 1) undone_store
    = Raise (ValueError "Setting attribute is not nillable").
Proof.
  split; [apply (bool_decide_unpack _); vm_compute; exact I|].
  repeat split; vm_compute; reflexivity.
Qed.

(** C3, amended: for a tree of well-built classes (distinct attribute
    names, none of them [__dummy__], one class per class identity) in
    which every explicitly stored value is one that [__set__] accepts and
    stores as it is, pickling the tree and loading the pickle, in any
    store that declares the descriptors alike, returns a new instance
    whose [isSet] and [get] results are those of the source on every
    [Setting], recursively through the groups, on which no [Setting] is
    dirty and for which [get_modified] returns the empty dictionary. *)
Theorem round_trip_restores cls σ o :
  wf_store σ → (o < next_id σ)%positive →
  class_ok cls = true → settable_tree cls (Some o) σ →
  ∃ p σ1,
    cPickle.dumps cls o σ = (Return p, σ1) ∧
    ∀ τ, wf_store τ → same_statics σ τ →
      ∃ τ' τ'',
        cPickle.loads p τ = (Return (next_id τ), τ') ∧
        map leaf_value (view cls (Some (next_id τ)) τ')
          = map leaf_value (view cls (Some o) σ) ∧
        clean (view cls (Some (next_id τ)) τ') ∧
        SettingsState.get_modified cls (next_id τ) τ' = (Return [], τ'').
Proof.
  intros Hwf Ho Hok Hset.
  destruct (proj1 dumps_mutual cls σ o Hwf Ho (proj1 class_ok_distinct_mutual cls Hok))
    as (p & σ1 & Hdumps & He & Hwf1 & Hp).
  exists p, σ1. split; [exact Hdumps|]. intros τ Hwfτ Hst.
  assert (Hst1 : same_statics σ1 τ).
  { intros sid. rewrite (ext_descriptor _ _ sid He). apply Hst. }
  pose proof (proj1 settable_ext_mutual cls σ σ1 (Some o) Hwf He Hset) as Hset1.
  destruct (proj1 loads_mutual cls σ1 (Some o) p τ Hok Hp Hset1 Hst1 Hwfτ)
    as (τ' & Hloads & _ & Hwf' & Hn & Hv & Hc & _).
  destruct (get_modified_spec cls τ' (next_id τ) Hwf' Hn) as (m & τ'' & Hget & _ & _ & Hm).
  apply clean_dirty_leaves in Hc as Hnone. rewrite Hnone in Hm. simpl in Hm. subst m.
  exists τ', τ''. split; [exact Hloads|]. split; [|split; [exact Hc|exact Hget]].
  rewrite Hv. rewrite (view_ext cls σ σ1 (Some o) Hwf He). reflexivity.
Qed.

Lemma round_trip_restores_witness :
  ∃ p σ1,
    cPickle.dumps root_class 1 rate_set_store = (Return p, σ1) ∧
    ∀ τ, wf_store τ → same_statics rate_set_store τ →
      ∃ τ' τ'',
        cPickle.loads p τ = (Return (next_id τ), τ') ∧
        map leaf_value (view root_class (Some (next_id τ)) τ')
          = map leaf_value (view root_class (Some 1%positive) rate_set_store) ∧
        clean (view root_class (Some (next_id τ)) τ') ∧
        SettingsState.get_modified root_class (next_id τ) τ' = (Return [], τ'').
Proof.
  apply (round_trip_restores root_class rate_set_store 1).
  - apply (bool_decide_unpack _). vm_compute. exact I.
  - reflexivity.
  - reflexivity.
  - vm_compute. repeat split; reflexivity.
Defined.

(** The round trip at work on the sample tree. *)
Example round_trip_sample :
  result (round_trip root_class 1) rate_set_store = Return 4%positive ∧
  map leaf_value (view root_class (Some 4%positive)
                    (exec (round_trip root_class 1) rate_set_store))
    = [(["audio"; "codec"; "rate"], true, VStr "v"); (["name"], false, VNone)].
Proof. split; vm_compute; reflexivity. Qed.

(** The other conditions of the amended statement are needed as well: a
    setting named [__dummy__] is dropped by [__setstate__], and a stored
    value that is not of the declared type is converted on the way back. *)
Example round_trip_drops_dummy_field :
  map leaf_value (view dummy_class (Some 1%positive) dummy_store)
    = [(["__dummy__"], true, VStr "x")] ∧
  result (round_trip dummy_class 1) dummy_store = Return 2%positive ∧
  map leaf_value (view dummy_class (Some 2%positive)
                    (exec (round_trip dummy_class 1) dummy_store))
    = [(["__dummy__"], false, VStr "d")].
Proof. repeat split; vm_compute; reflexivity. Qed.

Example round_trip_converts_stored_default :
  map leaf_value (view flag_class (Some 1%positive) flag_store)
    = [(["flag"], true, VBool true)] ∧
  result (round_trip flag_class 1) flag_store = Return 2%positive ∧
  map leaf_value (view flag_class (Some 2%positive)
                    (exec (round_trip flag_class 1) flag_store))
    = [(["flag"], true, VStr "True")].
Proof. repeat split; vm_compute; reflexivity. Qed.

(** * Properties of [SettingsObject] *)

Section WorldFacts.

Context {B : Type} `{IBackend B}.
Implicit Types (w : world B).

Lemma calm_step_refl o w : calm_step o w w.
Proof. split; [reflexivity|]. intros Hwf _. split; [exact Hwf|apply ext_refl]. Qed.

Lemma calm_step_trans o w1 w2 w3 :
  calm_step o w1 w2 → calm_step o w2 w3 → calm_step o w1 w3.
Proof.
  intros [Hp1 H1] [Hp2 H2]. split; [congruence|]. intros Hwf Ho.
  destruct (H1 Hwf Ho) as [Hwf2 He1].
  destruct (H2 Hwf2) as [Hwf3 He2]; [pose proof (ext_next _ _ He1); lia|].
  split; [exact Hwf3|eapply ext_trans; eassumption].
Qed.

Lemma calm_ret {A} o (a : A) : calm o (ret a : M (world B) A).
Proof. intros w r w' E. injection E as <- <-. apply calm_step_refl. Qed.

Lemma calm_raise {A} o (e : exn) : calm o (raise e : M (world B) A).
Proof. intros w r w' E. injection E as <- <-. apply calm_step_refl. Qed.

Lemma calm_bind {A C} o (m : M (world B) A) (k : A → M (world B) C) :
  calm o m → (∀ a, calm o (k a)) → calm o (bind m k).
Proof.
  intros Hm Hk w r w' E. unfold bind in E.
  destruct (m w) as [[a|e] w1] eqn:Em.
  - eapply calm_step_trans; [eapply Hm; eauto|eapply Hk; eauto].
  - injection E as <- <-. eapply Hm; eauto.
Qed.

Lemma calm_try_except {A} o (m : M (world B) A) (h : exn → M (world B) A) :
  calm o m → (∀ e, calm o (h e)) → calm o (try_except m h).
Proof.
  intros Hm Hh w r w' E. unfold try_except in E.
  destruct (m w) as [[a|e] w1] eqn:Em.
  - injection E as <- <-. eapply Hm; eauto.
  - eapply calm_step_trans; [eapply Hm; eauto|eapply Hh; eauto].
Qed.

Lemma calm_check_started o : calm o (ConfigurationManager.check_started (B := B)).
Proof.
  intros w r w' E. unfold ConfigurationManager.check_started, bind, gets in E.
  destruct (w_backend w); injection E as <- <-; apply calm_step_refl.
Qed.

Lemma calm_call {A} o (bc : backend_call) (m : M B A) :
  calm o (ConfigurationManager.call bc m).
Proof.
  intros w r w' E. unfold ConfigurationManager.call in E.
  destruct (w_backend w) as [b|].
  - destruct (m b) as [r' b']. injection E as <- <-.
    split; [reflexivity|]. intros Hwf _. split; [exact Hwf|apply ext_refl].
  - injection E as <- <-. apply calm_step_refl.
Qed.

Lemma calm_dumps cls o :
  names_distinct cls = true → calm o (in_store (B := B) (cPickle.dumps cls o)).
Proof.
  intros Hd w r w' E. unfold in_store in E.
  destruct (cPickle.dumps cls o (w_store w)) as [r' σ'] eqn:Ed.
  injection E as <- <-. split; [reflexivity|]. simpl. intros Hwf Ho.
  destruct (proj1 dumps_mutual cls (w_store w) o Hwf Ho Hd) as (p & σ2 & Hrun & He & Hwf2 & _).
  rewrite Hrun in Ed. injection Ed as <- <-. auto.
Qed.

Lemma calm_manager_set cls o section name :
  names_distinct cls = true →
  calm o (ConfigurationManager.set (B := B) section name cls o).
Proof.
  intros Hd. unfold ConfigurationManager.set.
  apply calm_bind; [apply calm_check_started|]. intros _.
  apply calm_bind; [apply calm_dumps, Hd|]. intros data.
  apply calm_try_except; [apply calm_call|]. intros e.
  destruct e; try apply calm_raise.
  apply calm_bind; [apply calm_call|]. intros _. apply calm_call.
Qed.

Lemma calm_manager_save o : calm o (ConfigurationManager.save (B := B)).
Proof.
  unfold ConfigurationManager.save.
  apply calm_bind; [apply calm_check_started|]. intros _. apply calm_call.
Qed.

Lemma calm_persist (sc : settings_class) (self : settings_object) :
  names_distinct (so_class sc) = true →
  calm (so_self self) (SettingsObject.persist (B := B) sc self).
Proof.
  intros Hd. unfold SettingsObject.persist. destruct (__section__ sc).
  - apply calm_bind; [apply calm_manager_set, Hd|]. intros _. apply calm_manager_save.
  - apply calm_ret.
Qed.

End WorldFacts.

(** C4: when [get_modified] finds modified settings, [save] returns
    without raising, whatever the persistence step does; it posts
    [CFGSettingsDidChange] with the modified settings, after a
    [CFGManagerSaveFailed] that carries the exception when the
    persistence step raised one (and only then); afterwards no [Setting]
    of the tree is dirty and [get_modified] returns the empty
    dictionary. *)
Theorem save_notifies_and_clears {B : Type} `{IBackend B}
    (sc : settings_class) (self : settings_object) (w : world B)
    (m : dict ModifiedValue) (σ1 : store) :
  wf_store (w_store w) →
  (so_self self < next_id (w_store w))%positive →
  names_distinct (so_class sc) = true →
  SettingsState.get_modified (so_class sc) (so_self self) (w_store w) = (Return m, σ1) →
  m ≠ [] →
  result (SettingsObject.save sc self) w = Return tt ∧
  w_posted (exec (SettingsObject.save sc self) w)
    = w_posted w
      ++ match result (SettingsObject.persist sc self)
                 (World σ1 (w_backend w) (w_calls w) (w_posted w) (w_instances w)) with
         | Return _ => []
         | Raise e => [CFGManagerSaveFailed (so_self self) m e]
         end
      ++ [CFGSettingsDidChange (so_self self) m] ∧
  clean (view (so_class sc) (Some (so_self self))
           (w_store (exec (SettingsObject.save sc self) w))) ∧
  ∃ σ3, SettingsState.get_modified (so_class sc) (so_self self)
          (w_store (exec (SettingsObject.save sc self) w)) = (Return [], σ3).
Proof.
  intros Hwf Ho Hd Hget Hm.
  destruct (get_modified_spec (so_class sc) (w_store w) (so_self self) Hwf Ho)
    as (m' & σ1' & Hget' & He1 & Hwf1 & _).
  rewrite Hget in Hget'. injection Hget' as <- <-.
  set (w1 := World σ1 (w_backend w) (w_calls w) (w_posted w) (w_instances w)).
  destruct (SettingsObject.persist sc self w1) as [r w2] eqn:Hp.
  destruct (calm_persist sc self Hd w1 r w2 Hp) as [Hposted Hstore].
  destruct Hstore as [Hwf2 He2]; [exact Hwf1|simpl; pose proof (ext_next _ _ He1); lia|].
  simpl in He2, Hposted.
  assert (Ho2 : (so_self self < next_id (w_store w2))%positive).
  { pose proof (ext_next _ _ He1). pose proof (ext_next _ _ He2). lia. }
  destruct (clear_dirty_spec (so_class sc) (w_store w2) (so_self self) Hwf2 Ho2)
    as (σ3 & Hclear & Hs3 & Hwf3 & Hclean).
  assert (Ho3 : (so_self self < next_id σ3)%positive)
    by (pose proof (settles_next _ _ Hs3); lia).
  destruct (get_modified_spec (so_class sc) σ3 (so_self self) Hwf3 Ho3)
    as (m3 & σ4 & Hget3 & _ & _ & Hm3).
  apply clean_dirty_leaves in Hclean as Hnone. rewrite Hnone in Hm3. simpl in Hm3. subst m3.
  assert (Hrun : SettingsObject.save sc self w =
            (Return tt,
             World σ3 (w_backend w2) (w_calls w2)
               (w_posted w2
                ++ match r with
                   | Return _ => []
                   | Raise e => [CFGManagerSaveFailed (so_self self) m e]
                   end ++ [CFGSettingsDidChange (so_self self) m])
               (w_instances w2))).
  { unfold SettingsObject.save, bind at 1, in_store at 1. rewrite Hget.
    fold w1. destruct m as [|kv m]; [congruence|].
    unfold try_finally, try_except. rewrite Hp.
    destruct r as [[]|e].
    - unfold bind, post_notification, modify, in_store. simpl. rewrite Hclear.
      reflexivity.
    - unfold bind, post_notification, modify, in_store. simpl. rewrite Hclear.
      rewrite <- app_assoc. reflexivity. }
  unfold result, exec. rewrite Hrun. simpl. fold w1. rewrite Hp. simpl.
  split; [reflexivity|]. split; [rewrite Hposted; reflexivity|].
  split; [exact Hclean|]. exists σ4. exact Hget3.
Qed.

(** The account [alice] has a pending change and the backend cannot
    save: [save] returns, both notifications are posted, nothing is
    dirty afterwards. *)
Lemma save_notifies_and_clears_witness :
  result (SettingsObject.save account_class alice) failing_world = Return tt ∧
  w_posted (exec (SettingsObject.save account_class alice) failing_world)
    = w_posted failing_world
      ++ match result (SettingsObject.persist account_class alice)
                 (World (exec (SettingsState.get_modified root_class 1) rate_set_store)
                    (w_backend failing_world) (w_calls failing_world)
                    (w_posted failing_world) (w_instances failing_world)) with
         | Return _ => []
         | Raise e =>
             [CFGManagerSaveFailed (so_self alice)
                [("audio.codec.rate", mkModifiedValue (VStr "d") (VStr "v"))] e]
         end
      ++ [CFGSettingsDidChange (so_self alice)
            [("audio.codec.rate", mkModifiedValue (VStr "d") (VStr "v"))]] ∧
  clean (view (so_class account_class) (Some (so_self alice))
           (w_store (exec (SettingsObject.save account_class alice) failing_world))) ∧
  ∃ σ3, SettingsState.get_modified (so_class account_class) (so_self alice)
          (w_store (exec (SettingsObject.save account_class alice) failing_world))
        = (Return [], σ3).
Proof.
  apply (save_notifies_and_clears account_class alice failing_world
           [("audio.codec.rate", mkModifiedValue (VStr "d") (VStr "v"))]
           (exec (SettingsState.get_modified root_class 1) rate_set_store)).
  - apply (bool_decide_unpack _). vm_compute. exact I.
  - reflexivity.
  - reflexivity.
  - vm_compute. reflexivity.
  - discriminate.
Defined.

(** The failure is reported as such. *)
Example failing_world_posts :
  w_posted (exec (SettingsObject.save account_class alice) failing_world) =
  [CFGManagerSaveFailed 1 [("audio.codec.rate", mkModifiedValue (VStr "d") (VStr "v"))]
     (ConfigurationBackendError "cannot write");
   CFGSettingsDidChange 1 [("audio.codec.rate", mkModifiedValue (VStr "d") (VStr "v"))]].
Proof. vm_compute. reflexivity. Qed.

(** C6: the guard of [delete] tests [self.__id__ is self.__class__.__id__],
    the identity of two string objects, where its message and the claim
    speak of the default id.  The instance made without an id carries the
    class's own [__id__] object: its [delete] raises the [TypeError] and
    changes nothing.  An instance whose [__id__] has the same characters
    but is another string object passes the guard: [delete] returns, the
    instance leaves the registry, and the backend is told to delete the
    record of the default id, which is gone afterwards. *)
Lemma delete_lookalike_default_id :
  str_chars (so___id__ lookalike_account) = str_chars default_id ∧
  w_instances registered_world !! 1%positive = Some [(Some "default", 1%positive)] ∧
  result (SettingsObject.delete account_class lookalike_account) registered_world
    = Return tt ∧
  w_instances (exec (SettingsObject.delete account_class lookalike_account)
                 registered_world) !! 1%positive = Some [] ∧
  w_calls (exec (SettingsObject.delete account_class lookalike_account) registered_world)
    = [CallDelete "accounts" "default"] ∧
  SettingsObject.delete account_class default_account saved_world
    = (Raise (TypeError "cannot delete Account instance with default id"), saved_world) ∧
  (∃ p, result (ConfigurationManager.call (CallGet "accounts" "default")
                  (backend_get "accounts" "default")) saved_world = Return p) ∧
  result (SettingsObject.delete account_class lookalike_account) saved_world = Return tt ∧
  w_instances (exec (SettingsObject.delete account_class lookalike_account) saved_world)
    !! 1%positive = Some [] ∧
  w_calls (exec (SettingsObject.delete account_class lookalike_account) saved_world)
    = w_calls saved_world ++ [CallDelete "accounts" "default"; CallSave] ∧
  result (ConfigurationManager.call (CallGet "accounts" "default")
            (backend_get "accounts" "default"))
    (exec (SettingsObject.delete account_class lookalike_account) saved_world)
    = Raise UnknownNameError.
Proof.
  repeat split; try (vm_compute; reflexivity).
  eexists. vm_compute. reflexivity.
Qed.

(** The path the guard does cover: for an instance whose [__id__] is the
    very object held by the class attribute [__id__], [delete] raises the
    [TypeError] and leaves the whole process as it was. *)
Lemma delete_same_id_object {B : Type} `{IBackend B}
    (sc : settings_class) (self : settings_object) (w : world B) :
  is_ (so___id__ self) (__id__ sc) = true →
  SettingsObject.delete sc self w
    = (Raise (TypeError ("cannot delete " ++ __name__ sc
                         ++ " instance with default id")), w).
Proof.
  intros His. unfold SettingsObject.delete. rewrite His. reflexivity.
Qed.

(** * Further properties of [Setting] *)

Lemma reading_same_at (s s' : Setting.t) (o : oid) :
  Setting.default s' = Setting.default s →
  Setting.objects s' !! o = Setting.objects s !! o →
  Setting.oldobjects s' !! o = Setting.oldobjects s !! o →
  Setting.dirty s' !! o = Setting.dirty s !! o →
  reading s' o = reading s o.
Proof.
  intros Hd Ho Hold Hdirty.
  unfold reading, Setting.__get__, Setting.isset, Setting.isdirty, Setting.get_old.
  rewrite Hd, Ho, Hold, Hdirty. reflexivity.
Qed.

Lemma set_reading_other (s : Setting.t) (o o' : oid) (v : value) :
  o' ≠ o → reading (exec (Setting.__set__ o v) s) o' = reading s o'.
Proof.
  intros Hne. unfold exec, Setting.__set__, bind, gets, modify, raise, Setting.coerce, ret.
  destruct v; simpl;
    repeat match goal with
           | |- context [if ?b then _ else _] => destruct b; simpl
           | |- context [match construct ?t ?x with _ => _ end] =>
               destruct (construct t x); simpl
           end;
    try reflexivity;
    apply reading_same_at; simpl;
      rewrite ?lookup_insert_ne, ?lookup_delete_ne by congruence; reflexivity.
Qed.

(** X1: the per-owner tables are independent: [__set__], [clear_dirty],
    [undo] and [remove] for the owner [o], whatever their outcome, leave
    what [__get__], [isset], [isdirty] and [get_old] answer for every
    other owner as it was. *)
Theorem setting_owners_independent (s : Setting.t) (o o' : oid) (v : value) :
  o' ≠ o →
  reading (exec (Setting.__set__ o v) s) o' = reading s o' ∧
  reading (exec (Setting.clear_dirty o) s) o' = reading s o' ∧
  reading (exec (Setting.undo o) s) o' = reading s o' ∧
  reading (exec (Setting.remove o) s) o' = reading s o'.
Proof.
  intros Hne. split; [apply set_reading_other, Hne|]. split; [|split].
  - unfold exec. rewrite clear_dirty_run. simpl.
    destruct (Setting.objects s !! o); apply reading_same_at; simpl;
      rewrite ?lookup_insert_ne, ?lookup_delete_ne by congruence; reflexivity.
  - unfold exec, Setting.undo, bind, modify. simpl.
    destruct (Setting.oldobjects s !! o); apply reading_same_at; simpl;
      rewrite ?lookup_insert_ne, ?lookup_delete_ne by congruence; reflexivity.
  - unfold exec, Setting.remove, bind, modify. simpl.
    apply reading_same_at; simpl;
      rewrite ?lookup_insert_ne, ?lookup_delete_ne by congruence; reflexivity.
Qed.

Lemma setting_owners_independent_witness :
  reading (exec (Setting.__set__ 1 (VStr "w")) reset_after_commit) 2
    = reading reset_after_commit 2 ∧
  reading (exec (Setting.clear_dirty 1) reset_after_commit) 2
    = reading reset_after_commit 2 ∧
  reading (exec (Setting.undo 1) reset_after_commit) 2 = reading reset_after_commit 2 ∧
  reading (exec (Setting.remove 1) reset_after_commit) 2 = reading reset_after_commit 2.
Proof. apply (setting_owners_independent reset_after_commit 1 2 (VStr "w")). discriminate. Defined.

(** X2: when the value is not an instance of the declared type and the
    type's constructor raises, [__set__] raises the same exception and
    the descriptor is left as it was: nothing is stored and the owner is
    not marked dirty. *)
Theorem set_failed_conversion (s : Setting.t) (o : oid) (v : value) (e : exn) :
  v ≠ VNone → v ≠ VDefaultValue →
  isinstance (Setting.type s) v = false →
  construct (Setting.type s) v = Raise e →
  Setting.__set__ o v s = (Raise e, s).
Proof.
  intros Hn Hd Hi Hc.
  destruct v; try congruence;
    unfold Setting.__set__, bind, gets, Setting.coerce; simpl; rewrite Hi, Hc; reflexivity.
Qed.

Lemma set_failed_conversion_witness :
  Setting.__set__ 1 (VInt 7) rejecting_setting
    = (Raise (ValueError "rejected"), rejecting_setting).
Proof.
  apply (set_failed_conversion rejecting_setting 1 (VInt 7));
    [discriminate | discriminate | reflexivity | reflexivity].
Defined.

(** X3: on a nillable setting, [__set__(obj, None)] returns and stores
    [None] as an explicit value: [__get__] answers [None], [isset] and
    [isdirty] are true, and the committed value is untouched. *)
Theorem set_None_nillable (s : Setting.t) (o : oid) :
  Setting.nillable s = true →
  result (Setting.__set__ o VNone) s = Return tt ∧
  Setting.__get__ (exec (Setting.__set__ o VNone) s) o = VNone ∧
  Setting.isset (exec (Setting.__set__ o VNone) s) o = true ∧
  Setting.isdirty (exec (Setting.__set__ o VNone) s) o = true ∧
  Setting.get_old (exec (Setting.__set__ o VNone) s) o = Setting.get_old s o.
Proof.
  intros Hn. unfold result, exec, Setting.__set__, bind, gets, modify. simpl.
  rewrite Hn. simpl. repeat split.
  - unfold Setting.__get__. simpl. rewrite lookup_insert_eq. reflexivity.
  - apply isset_true. simpl. rewrite lookup_insert_eq. eauto.
  - unfold Setting.isdirty. simpl. rewrite lookup_insert_eq. reflexivity.
Qed.

Lemma set_None_nillable_witness :
  result (Setting.__set__ 1 VNone) (Setting.__init__ py_str (VStr "d") true) = Return tt ∧
  Setting.__get__ (exec (Setting.__set__ 1 VNone) (Setting.__init__ py_str (VStr "d") true)) 1
    = VNone ∧
  Setting.isset (exec (Setting.__set__ 1 VNone) (Setting.__init__ py_str (VStr "d") true)) 1
    = true ∧
  Setting.isdirty (exec (Setting.__set__ 1 VNone) (Setting.__init__ py_str (VStr "d") true)) 1
    = true ∧
  Setting.get_old (exec (Setting.__set__ 1 VNone) (Setting.__init__ py_str (VStr "d") true)) 1
    = Setting.get_old (Setting.__init__ py_str (VStr "d") true) 1.
Proof. apply (set_None_nillable (Setting.__init__ py_str (VStr "d") true) 1). reflexivity. Defined.

Lemma set_keeps_old (s : Setting.t) (o : oid) (v : value) :
  Setting.oldobjects (exec (Setting.__set__ o v) s) = Setting.oldobjects s.
Proof.
  unfold exec, Setting.__set__, bind, gets, modify, raise, Setting.coerce, ret.
  destruct v; simpl;
    repeat match goal with
           | |- context [if ?b then _ else _] => destruct b; simpl
           | |- context [match construct ?t ?x with _ => _ end] =>
               destruct (construct t x); simpl
           end; reflexivity.
Qed.

Lemma set_stores (s s1 : Setting.t) (o : oid) (v : value) :
  v ≠ VDefaultValue → Setting.__set__ o v s = (Return tt, s1) →
  is_Some (Setting.objects s1 !! o).
Proof.
  intros Hd. unfold Setting.__set__, bind, gets, modify, raise, Setting.coerce, ret.
  destruct v; simpl; try congruence;
    repeat match goal with
           | |- context [if ?b then _ else _] => destruct b; simpl
           | |- context [match construct ?t ?x with _ => _ end] =>
               destruct (construct t x); simpl
           end;
    intros E; try discriminate; injection E as <-; simpl;
    rewrite lookup_insert_eq; eauto.
Qed.

Lemma undo_run_committed (s : Setting.t) (o : oid) (x : value) :
  Setting.oldobjects s !! o = Some x →
  Setting.undo o s
  = (Return tt, Setting.with_objects <[o := x]> (Setting.with_dirty (delete o) s)).
Proof. intros E. unfold Setting.undo, bind, modify. simpl. rewrite E. reflexivity. Qed.

(** X4: [undo] reverts to the value of the last commit: after a
    successful assignment of a value (not the reset marker), a
    [clear_dirty] and any later successful assignment or reset, [undo]
    returns, [__get__] and [get_old] answer the committed value again,
    [isset] is true and [isdirty] is false. *)
Theorem undo_reverts_to_commit (s s1 s2 : Setting.t) (o : oid) (v w : value) :
  v ≠ VDefaultValue →
  Setting.__set__ o v s = (Return tt, s1) →
  Setting.__set__ o w (exec (Setting.clear_dirty o) s1) = (Return tt, s2) →
  result (Setting.undo o) s2 = Return tt ∧
  Setting.__get__ (exec (Setting.undo o) s2) o = Setting.__get__ s1 o ∧
  Setting.get_old (exec (Setting.undo o) s2) o = Setting.__get__ s1 o ∧
  Setting.isset (exec (Setting.undo o) s2) o = true ∧
  Setting.isdirty (exec (Setting.undo o) s2) o = false.
Proof.
  intros Hv Hset1 Hset2.
  destruct (set_stores s s1 o v Hv Hset1) as [x Hx].
  assert (Hold : Setting.oldobjects s2 !! o = Some x).
  { pose proof (set_keeps_old (exec (Setting.clear_dirty o) s1) o w) as E.
    unfold exec at 1 in E. rewrite Hset2 in E. simpl in E. rewrite E.
    unfold exec. rewrite clear_dirty_run, Hx. simpl. apply lookup_insert_eq. }
  unfold result, exec. rewrite (undo_run_committed s2 o x Hold). simpl.
  unfold Setting.__get__, Setting.get_old, Setting.isdirty. simpl.
  rewrite lookup_insert_eq, Hold, Hx, lookup_delete_eq. simpl.
  repeat split. apply isset_true. simpl. rewrite lookup_insert_eq. eauto.
Qed.

Lemma undo_reverts_to_commit_witness :
  result (Setting.undo 1)
    (exec (Setting.__set__ 1 (VStr "w"))
       (exec (Setting.clear_dirty 1) (exec (Setting.__set__ 1 (VStr "v")) sample_setting)))
    = Return tt ∧
  Setting.__get__ (exec (Setting.undo 1)
    (exec (Setting.__set__ 1 (VStr "w"))
       (exec (Setting.clear_dirty 1) (exec (Setting.__set__ 1 (VStr "v")) sample_setting)))) 1
    = Setting.__get__ (exec (Setting.__set__ 1 (VStr "v")) sample_setting) 1 ∧
  Setting.get_old (exec (Setting.undo 1)
    (exec (Setting.__set__ 1 (VStr "w"))
       (exec (Setting.clear_dirty 1) (exec (Setting.__set__ 1 (VStr "v")) sample_setting)))) 1
    = Setting.__get__ (exec (Setting.__set__ 1 (VStr "v")) sample_setting) 1 ∧
  Setting.isset (exec (Setting.undo 1)
    (exec (Setting.__set__ 1 (VStr "w"))
       (exec (Setting.clear_dirty 1) (exec (Setting.__set__ 1 (VStr "v")) sample_setting)))) 1
    = true ∧
  Setting.isdirty (exec (Setting.undo 1)
    (exec (Setting.__set__ 1 (VStr "w"))
       (exec (Setting.clear_dirty 1) (exec (Setting.__set__ 1 (VStr "v")) sample_setting)))) 1
    = false.
Proof.
  apply (undo_reverts_to_commit sample_setting _ _ 1 (VStr "v") (VStr "w"));
    [discriminate | reflexivity | reflexivity].
Defined.

(** X5: [remove] always returns; afterwards the owner has no explicit
    value and no dirty flag, so [__get__] answers the default, but its
    committed value is kept: [get_old] answers as before. *)
Theorem remove_forgets_value_keeps_commit (s : Setting.t) (o : oid) :
  result (Setting.remove o) s = Return tt ∧
  Setting.isset (exec (Setting.remove o) s) o = false ∧
  Setting.isdirty (exec (Setting.remove o) s) o = false ∧
  Setting.__get__ (exec (Setting.remove o) s) o = Setting.default s ∧
  Setting.get_old (exec (Setting.remove o) s) o = Setting.get_old s o.
Proof.
  unfold result, exec, Setting.remove, bind, modify. simpl.
  split; [reflexivity|]. split; [|split; [|split; [|reflexivity]]].
  - apply isset_false. simpl. apply lookup_delete_eq.
  - unfold Setting.isdirty. simpl. rewrite lookup_delete_eq. reflexivity.
  - unfold Setting.__get__. simpl. rewrite lookup_delete_eq. reflexivity.
Qed.

(** X6: [clear_dirty], [undo] and [remove] are idempotent: running one of
    them twice for the same owner leaves the descriptor as running it
    once does. *)
Theorem setting_idempotent_operations (s : Setting.t) (o : oid) :
  exec (Setting.clear_dirty o) (exec (Setting.clear_dirty o) s)
    = exec (Setting.clear_dirty o) s ∧
  exec (Setting.undo o) (exec (Setting.undo o) s) = exec (Setting.undo o) s ∧
  exec (Setting.remove o) (exec (Setting.remove o) s) = exec (Setting.remove o) s.
Proof.
  split; [|split].
  - unfold exec. rewrite !clear_dirty_run.
    destruct (Setting.objects s !! o) as [v|] eqn:E; simpl; rewrite E;
      unfold Setting.with_oldobjects, Setting.with_dirty; simpl;
      rewrite ?insert_insert_eq, delete_delete_eq; reflexivity.
  - unfold exec, Setting.undo, bind, modify. simpl.
    destruct (Setting.oldobjects s !! o) as [x|] eqn:E; simpl;
      rewrite ?E, ?lookup_insert_eq; simpl;
      unfold Setting.with_objects, Setting.with_oldobjects, Setting.with_dirty; simpl;
      rewrite ?insert_insert_eq, delete_delete_eq; reflexivity.
  - unfold exec, Setting.remove, bind, modify. simpl.
    unfold Setting.with_objects, Setting.with_dirty. simpl.
    rewrite !delete_delete_eq. reflexivity.
Qed.

(** * Further properties of [SettingsGroupMeta] *)

(** X7: a group attribute is built once per owner: [__get__] never
    raises, and a second [__get__] for the same owner returns the same
    instance and leaves the store exactly as the first one left it. *)
Theorem group_get_cached (c : pyclass) (o : oid) (σ : store) :
  (∃ j, result (SettingsGroupMeta.__get__ c o) σ = Return j) ∧
  SettingsGroupMeta.__get__ c o (exec (SettingsGroupMeta.__get__ c o) σ)
    = (result (SettingsGroupMeta.__get__ c o) σ, exec (SettingsGroupMeta.__get__ c o) σ).
Proof.
  unfold result, exec, SettingsGroupMeta.__get__, bind, gets, new_instance, modify, ret.
  simpl. destruct (cache (class_id c) σ !! o) as [j|] eqn:E; simpl.
  - split; [eauto|]. rewrite E. reflexivity.
  - split; [eauto|]. rewrite cache_set_cache_eq, lookup_insert_eq. reflexivity.
Qed.

Lemma view_None_blank_mutual :
  (∀ cls σ, Forall leaf_blank (view cls None σ)) ∧
  (∀ dir σ, Forall leaf_blank (view_members dir None σ)).
Proof.
  apply pyclass_mutind.
  - intros cid dir IH σ. simpl. apply IH.
  - constructor.
  - intros name sid rest IH σ. cbn [view_members]. constructor; [split; reflexivity|apply IH].
  - intros name c IHc rest IH σ. cbn [view_members]. apply Forall_app_2; [|apply IH].
    rewrite Forall_fmap. eapply Forall_impl; [apply IHc|]. intros l Hl. exact Hl.
Qed.

(** X8: for an owner that exists and has no instance of the group yet,
    [__get__] creates one: its identity is new (no cache of the store
    holds it), every [Setting] below it is unset and not dirty, the
    descriptors are untouched and the cache entries of every other owner
    and class stay as they were. *)
Theorem group_get_creates_blank (c : pyclass) (o : oid) (σ : store) :
  wf_store σ → (o < next_id σ)%positive →
  cache (class_id c) σ !! o = None →
  ∃ σ', SettingsGroupMeta.__get__ c o σ = (Return (next_id σ), σ') ∧
        (∀ cid i j, cache cid σ !! i = Some j → j ≠ next_id σ) ∧
        Forall leaf_blank (view c (Some (next_id σ)) σ') ∧
        descriptors σ' = descriptors σ ∧
        (∀ cid i, (cid ≠ class_id c ∨ i ≠ o) → cache cid σ' !! i = cache cid σ !! i).
Proof.
  intros Hwf Ho Hnone.
  destruct (group_get_spec c o σ Hwf Ho) as (j & σ' & Hrun & He & Hwf' & Hc & Hj & Hv).
  assert (Hrun' : SettingsGroupMeta.__get__ c o σ =
            (Return (next_id σ),
             set_cache (class_id c) (<[o := next_id σ]> (cache (class_id c) σ))
               (Store (descriptors σ) (group_objects σ) (Pos.succ (next_id σ))))).
  { unfold SettingsGroupMeta.__get__, bind, gets, new_instance, modify, ret. simpl.
    rewrite Hnone. reflexivity. }
  rewrite Hrun' in Hrun. injection Hrun as <- <-.
  eexists. split; [exact Hrun'|]. split; [|split; [|split]].
  - intros cid i j E. apply (wf_cache_Some σ _ _ _ Hwf) in E. lia.
  - rewrite Hv. simpl. rewrite Hnone. apply view_None_blank_mutual.
  - reflexivity.
  - intros cid i Hne. destruct (decide (class_id c = cid)) as [<-|Hc'].
    + rewrite cache_set_cache_eq. destruct Hne as [Hne|Hne]; [congruence|].
      apply lookup_insert_ne. congruence.
    + rewrite cache_set_cache_ne by exact Hc'. reflexivity.
Qed.

Lemma group_get_creates_blank_witness :
  ∃ σ', SettingsGroupMeta.__get__ audio_class 1 sample_store
          = (Return (next_id sample_store), σ') ∧
        (∀ cid i j, cache cid sample_store !! i = Some j → j ≠ next_id sample_store) ∧
        Forall leaf_blank (view audio_class (Some (next_id sample_store)) σ') ∧
        descriptors σ' = descriptors sample_store ∧
        (∀ cid i, (cid ≠ class_id audio_class ∨ i ≠ 1%positive) →
                  cache cid σ' !! i = cache cid sample_store !! i).
Proof.
  apply (group_get_creates_blank audio_class 1 sample_store).
  - apply (bool_decide_unpack _). vm_compute. exact I.
  - reflexivity.
  - reflexivity.
Defined.


(** X10: after [remove], the instance built for the owner is forgotten:
    the next [__get__] builds a new instance, different from the one the
    owner had. *)
Theorem group_remove_then_get_new (c : pyclass) (o j : oid) (σ : store) :
  wf_store σ → cache (class_id c) σ !! o = Some j →
  result (SettingsGroupMeta.remove c o) σ = Return tt ∧
  cache (class_id c) (exec (SettingsGroupMeta.remove c o) σ) !! o = None ∧
  result (SettingsGroupMeta.__get__ c o) (exec (SettingsGroupMeta.remove c o) σ)
    = Return (next_id σ) ∧
  next_id σ ≠ j.
Proof.
  intros Hwf Hc. unfold result, exec, SettingsGroupMeta.remove, modify. simpl.
  split; [reflexivity|]. split; [rewrite cache_set_cache_eq; apply lookup_delete_eq|].
  split.
  - unfold SettingsGroupMeta.__get__, bind, gets, new_instance, modify, ret. simpl.
    rewrite cache_set_cache_eq, lookup_delete_eq. reflexivity.
  - apply (wf_cache_Some σ _ _ _ Hwf) in Hc. lia.
Qed.

Lemma group_remove_then_get_new_witness :
  result (SettingsGroupMeta.remove audio_class 1) rate_set_store = Return tt ∧
  cache (class_id audio_class) (exec (SettingsGroupMeta.remove audio_class 1) rate_set_store)
    !! 1%positive = None ∧
  result (SettingsGroupMeta.__get__ audio_class 1)
    (exec (SettingsGroupMeta.remove audio_class 1) rate_set_store)
    = Return (next_id rate_set_store) ∧
  next_id rate_set_store ≠ 2%positive.
Proof.
  apply (group_remove_then_get_new audio_class 1 2 rate_set_store).
  - apply (bool_decide_unpack _). vm_compute. exact I.
  - reflexivity.
Defined.

(** * Further properties of [SettingsState] *)



Lemma dict_set_nonempty {V} (k : string) (v : V) (d : dict V) : dict_set k v d ≠ [].
Proof.
  destruct d as [|[k' v'] d]; simpl; [discriminate|].
  destruct (String.eqb k k'); discriminate.
Qed.

Lemma dict_update_nonempty {V} (d2 : dict V) : ∀ acc,
  acc ≠ [] ∨ d2 ≠ [] → dict_update acc d2 ≠ [].
Proof.
  unfold dict_update. induction d2 as [|[k v] d2 IH]; intros acc [H|H]; simpl.
  - exact H.
  - congruence.
  - apply IH. left. apply dict_set_nonempty.
  - apply IH. left. apply dict_set_nonempty.
Qed.

Lemma get_modified_nonempty_mutual :
  (∀ cls σ o m σ', wf_store σ → (o < next_id σ)%positive →
     SettingsState.get_modified cls o σ = (Return m, σ') →
     dirty_leaves (view cls (Some o) σ) ≠ [] → m ≠ []) ∧
  (∀ dir σ o acc m σ', wf_store σ → (o < next_id σ)%positive →
     SettingsState.get_modified_loop dir o acc σ = (Return m, σ') →
     acc ≠ [] ∨ dirty_leaves (view_members dir (Some o) σ) ≠ [] → m ≠ []).
Proof.
  apply pyclass_mutind.
  - intros cid dir IH σ o m σ' Hwf Ho Hrun Hd. eapply IH; eauto.
  - intros σ o acc m σ' _ _ Hrun [H|H]; [|contradiction].
    injection Hrun as <- _. exact H.
  - intros name sid rest IH σ o acc m σ' Hwf Ho Hrun Hd.
    cbn [SettingsState.get_modified_loop] in Hrun. unfold bind at 1, gets at 1 in Hrun.
    rewrite dirty_leaves_setting in Hd.
    destruct (Setting.isdirty (descriptor sid σ) o).
    + eapply IH; eauto. left. apply dict_set_nonempty.
    + eapply IH; eauto.
  - intros name c IHc rest IH σ o acc m σ' Hwf Ho Hrun Hd.
    cbn [SettingsState.get_modified_loop view_members] in Hrun, Hd.
    destruct (group_get_spec c o σ Hwf Ho) as (j & σ1 & Hget & He1 & Hwf1 & Hc1 & Hj & Hv).
    destruct (get_modified_spec c σ1 j Hwf1 Hj) as (mc & σ2 & Hrunc & He2 & Hwf2 & _).
    unfold bind in Hrun. rewrite Hget, Hrunc in Hrun.
    assert (Ho2 : (o < next_id σ2)%positive).
    { pose proof (ext_next _ _ He1). pose proof (ext_next _ _ He2). lia. }
    eapply (IH σ2 o _ m σ' Hwf2 Ho2 Hrun).
    rewrite dirty_leaves_app, dirty_leaves_under in Hd.
    rewrite (view_members_ext rest σ σ2 (Some o) Hwf (ext_trans _ _ _ He1 He2)).
    destruct Hd as [Hd|Hd].
    + left. apply dict_update_nonempty. auto.
    + destruct (dirty_leaves (view c (child_of c (Some o) σ) σ)) as [|l ls] eqn:Ec.
      * right. exact Hd.
      * left. apply dict_update_nonempty. right.
        assert (Hmc : mc ≠ []).
        { eapply (IHc σ1 j mc σ2 Hwf1 Hj Hrunc). rewrite Hv, Ec. discriminate. }
        destruct mc; [congruence|discriminate].
Qed.

(** X12: [get_modified] returns the empty dictionary exactly when no
    [Setting] of the tree is dirty. *)
Theorem get_modified_empty_iff_clean cls σ o m σ' :
  wf_store σ → (o < next_id σ)%positive →
  SettingsState.get_modified cls o σ = (Return m, σ') →
  (m = [] ↔ clean (view cls (Some o) σ)).
Proof.
  intros Hwf Ho Hrun. split.
  - intros ->. apply clean_dirty_leaves.
    destruct (dirty_leaves (view cls (Some o) σ)) as [|l ls] eqn:E; [reflexivity|].
    exfalso. eapply (proj1 get_modified_nonempty_mutual cls σ o [] σ' Hwf Ho Hrun);
      [rewrite E; discriminate|reflexivity].
  - intros Hc. apply clean_dirty_leaves in Hc.
    destruct (get_modified_spec cls σ o Hwf Ho) as (m' & σ'' & Hrun' & _ & _ & Hm).
    rewrite Hrun in Hrun'. injection Hrun' as <- <-. rewrite Hc in Hm. exact Hm.
Qed.

Lemma get_modified_empty_iff_clean_witness :
  [("audio.codec.rate", mkModifiedValue (VStr "d") (VStr "v"))] = []
  ↔ clean (view root_class (Some 1%positive) rate_set_store).
Proof.
  apply (get_modified_empty_iff_clean root_class rate_set_store 1 _
           (exec (SettingsState.get_modified root_class 1) rate_set_store)).
  - apply (bool_decide_unpack _). vm_compute. exact I.
  - reflexivity.
  - vm_compute. reflexivity.
Defined.

(** X13: [clear_dirty] changes no value: it returns, and on every tree of
    the store each leaf answers [isset] and [__get__] as before; a tree
    without dirty leaves stays without, and the tree it was called on
    has none afterwards. *)
Theorem clear_dirty_keeps_values cls σ o :
  wf_store σ → (o < next_id σ)%positive →
  ∃ σ', SettingsState.clear_dirty cls o σ = (Return tt, σ') ∧
        clean (view cls (Some o) σ') ∧
        ∀ cls' ow,
          map leaf_value (view cls' ow σ') = map leaf_value (view cls' ow σ) ∧
          (clean (view cls' ow σ) → clean (view cls' ow σ')).
Proof.
  intros Hwf Ho.
  destruct (clear_dirty_spec cls σ o Hwf Ho) as (σ' & Hrun & Hs & Hwf' & Hc).
  exists σ'. split; [exact Hrun|]. split; [exact Hc|]. intros cls' ow.
  pose proof (view_settles cls' σ σ' ow Hwf Hs) as Hcalm.
  split; [apply calmer_values, Hcalm|apply calmer_clean, Hcalm].
Qed.

Lemma clear_dirty_keeps_values_witness :
  ∃ σ', SettingsState.clear_dirty root_class 1 rate_set_store = (Return tt, σ') ∧
        clean (view root_class (Some 1%positive) σ') ∧
        ∀ cls' ow,
          map leaf_value (view cls' ow σ') = map leaf_value (view cls' ow rate_set_store) ∧
          (clean (view cls' ow rate_set_store) → clean (view cls' ow σ')).
Proof.
  apply (clear_dirty_keeps_values root_class rate_set_store 1).
  - apply (bool_decide_unpack _). vm_compute. exact I.
  - reflexivity.
Defined.

Lemma state_shape_lookup (G : pyclass → oid → Prop) dir ow σ : ∀ items,
  members_distinct dir = true → state_shape G dir ow σ items →
  ∀ k, match getattr_class dir k with
       | Some (ASetting sid) => dict_get k items = explicit (descriptor sid σ) ow
       | Some (AGroup c) =>
           ∃ j : oid, dict_get k items = Some (VInstance (class_id c) j) ∧ G c j
       | None => dict_get k items = None
       end.
Proof.
  induction dir as [|name sid rest IH|name c rest IH]; intros items Hd Hs k.
  - simpl in Hs. subst items. reflexivity.
  - apply members_distinct_setting in Hd as (Hfresh & Hd).
    cbn [getattr_class]. cbn [state_shape] in Hs.
    destruct (String.eqb_spec k name) as [->|Hne].
    + destruct (explicit (descriptor sid σ) ow) as [v|].
      * destruct Hs as (items' & -> & _). apply dict_get_head.
      * eapply state_shape_keys; eauto.
    + destruct (explicit (descriptor sid σ) ow) as [v|].
      * destruct Hs as (items' & -> & Hs). specialize (IH items' Hd Hs k).
        simpl. destruct (String.eqb_spec k name); [contradiction|]. exact IH.
      * apply IH; assumption.
  - apply members_distinct_group in Hd as (Hfresh & _ & Hd).
    cbn [getattr_class]. cbn [state_shape] in Hs.
    destruct Hs as (j & items' & -> & HG & Hs).
    destruct (String.eqb_spec k name) as [->|Hne].
    + exists j. split; [apply dict_get_head|exact HG].
    + specialize (IH items' Hd Hs k).
      simpl. destruct (String.eqb_spec k name); [contradiction|]. exact IH.
Qed.

(** X14: what [__getstate__] returns when the attribute names of the
    class are distinct: a state that is never empty and that, [__dummy__]
    apart, maps the name of a [Setting] to its explicit value exactly
    when it has one (a setting that only shows its default is left out),
    the name of a group to the instance [__get__] answers for it, and no
    other name. *)
Theorem getstate_contents cid dir o σ :
  wf_store σ → (o < next_id σ)%positive → members_distinct dir = true →
  ∃ state σ',
    SettingsState.__getstate__ (PyClass cid dir) o σ = (Return state, σ') ∧
    state ≠ [] ∧
    ∀ k, k ≠ "__dummy__" →
      match getattr_class dir k with
      | Some (ASetting sid) =>
          dict_get k state = Setting.objects (descriptor sid σ) !! o
      | Some (AGroup c) =>
          ∃ j : oid, dict_get k state = Some (VInstance (class_id c) j) ∧
                     cache (class_id c) σ' !! o = Some j
      | None => dict_get k state = None
      end.
Proof.
  intros Hwf Ho Hd.
  destruct (getstate_spec cid dir o σ Hwf Ho Hd) as (items & σ' & Hrun & He & Hwf' & Hs).
  exists (marked items), σ'. split; [exact Hrun|]. split.
  { destruct items; discriminate. }
  intros k Hk.
  assert (Hm : dict_get k (marked items) = dict_get k items).
  { destruct items as [|kv items]; [|reflexivity]. simpl.
    destruct (String.eqb_spec k "__dummy__"); [contradiction|reflexivity]. }
  rewrite Hm. pose proof (state_shape_lookup _ dir (Some o) σ' items Hd Hs k) as H.
  destruct (getattr_class dir k) as [[sid|c]|]; [|exact H|exact H].
  rewrite H. simpl. rewrite (ext_descriptor _ _ sid He). reflexivity.
Qed.

Lemma getstate_contents_witness :
  ∃ state σ',
    SettingsState.__getstate__ root_class 1 rate_set_store = (Return state, σ') ∧
    state ≠ [] ∧
    ∀ k, k ≠ "__dummy__" →
      match getattr_class (class_dir root_class) k with
      | Some (ASetting sid) =>
          dict_get k state = Setting.objects (descriptor sid rate_set_store) !! 1%positive
      | Some (AGroup c) =>
          ∃ j : oid, dict_get k state = Some (VInstance (class_id c) j) ∧
                     cache (class_id c) σ' !! 1%positive = Some j
      | None => dict_get k state = None
      end.
Proof.
  apply (getstate_contents 1 (class_dir root_class) 1 rate_set_store).
  - apply (bool_decide_unpack _). vm_compute. exact I.
  - reflexivity.
  - reflexivity.
Defined.

Lemma popped_refl (P : oid → Prop) σ : popped P σ σ.
Proof. split; [reflexivity|]. split; [intros sid; repeat split; auto|auto]. Qed.

Lemma popped_trans (P : oid → Prop) σ1 σ2 σ3 :
  popped P σ1 σ2 → popped P σ2 σ3 → popped P σ1 σ3.
Proof.
  intros (Hn1 & Hd1 & Hc1) (Hn2 & Hd2 & Hc2). split; [congruence|]. split.
  - intros sid. destruct (Hd1 sid) as (Hdef1 & Hold1 & Hi1).
    destruct (Hd2 sid) as (Hdef2 & Hold2 & Hi2).
    split; [congruence|]. split; [congruence|]. intros i.
    destruct (Hi1 i) as [Ho1 Hy1], (Hi2 i) as [Ho2 Hy2]. split.
    + destruct Ho2 as [E2|[HP E2]]; [|right; auto].
      destruct Ho1 as [E1|[HP E1]]; [left; congruence|right; split; [exact HP|congruence]].
    + destruct Hy2 as [E2|[HP E2]]; [|right; auto].
      destruct Hy1 as [E1|[HP E1]]; [left; congruence|right; split; [exact HP|congruence]].
  - intros cid i. destruct (Hc2 cid i) as [E2|[HP E2]]; [|right; auto].
    destruct (Hc1 cid i) as [E1|[HP E1]]; [left; congruence|right; split; [exact HP|congruence]].
Qed.

Lemma popped_remove_setting (P : oid → Prop) sid o σ :
  P o →
  popped P σ (set_descriptor sid (exec (Setting.remove o) (descriptor sid σ)) σ).
Proof.
  intros HP. split; [reflexivity|]. split; [|intros cid i; left; reflexivity].
  intros sid'. destruct (decide (sid = sid')) as [<-|Hne].
  - rewrite descriptor_set_eq. unfold exec, Setting.remove, bind, modify. simpl.
    split; [reflexivity|]. split; [reflexivity|]. intros i.
    destruct (decide (o = i)) as [<-|Hi].
    + rewrite !lookup_delete_eq. split; right; auto.
    + rewrite !lookup_delete_ne by exact Hi. split; left; reflexivity.
  - rewrite (descriptor_set_ne _ _ _ _ Hne). repeat split; auto.
Qed.

Lemma popped_remove_group (P : oid → Prop) cid o σ :
  P o → popped P σ (set_cache cid (delete o (cache cid σ)) σ).
Proof.
  intros HP. split; [reflexivity|]. split; [intros sid; repeat split; auto|].
  intros cid' i. destruct (decide (cid = cid')) as [<-|Hne].
  - rewrite cache_set_cache_eq. destruct (decide (o = i)) as [<-|Hi].
    + rewrite lookup_delete_eq. right. auto.
    + rewrite lookup_delete_ne by exact Hi. left. reflexivity.
  - rewrite (cache_set_cache_ne _ _ _ _ Hne). left. reflexivity.
Qed.

(** A tree can only lose instances when entries are popped. *)
Lemma inside_popped_mutual (P Q : oid → Prop) :
  (∀ cls j σ σ', popped Q σ σ' → inside P cls j σ → inside P cls j σ') ∧
  (∀ dir j σ σ', popped Q σ σ' → inside_members P dir j σ → inside_members P dir j σ').
Proof.
  apply pyclass_mutind.
  - intros cid dir IH j σ σ' Hp [Hj Hin]. simpl. split; [exact Hj|eauto].
  - auto.
  - intros name sid rest IH j σ σ' Hp. cbn [inside_members]. eauto.
  - intros name c IHc rest IH j σ σ' Hp. cbn [inside_members]. intros [Hc Hin].
    split; [|eauto]. pose proof Hp as (_ & _ & Hcache).
    destruct (Hcache (class_id c) j) as [E|[_ E]]; rewrite E; [|exact I].
    destruct (cache (class_id c) σ !! j) as [j'|]; [|exact I].
    eapply IHc; eassumption.
Qed.

Lemma del_mutual (live : store → oid → bool) (P : oid → Prop) :
  (∀ cls o σ, inside P cls o σ →
     ∃ σ', SettingsState___del__ live cls o σ = (Return tt, σ') ∧
           popped P σ σ' ∧ Forall leaf_blank (view cls (Some o) σ')) ∧
  (∀ dir o σ, P o → inside_members P dir o σ →
     ∃ σ', del_loop live dir o σ = (Return tt, σ') ∧
           popped P σ σ' ∧ Forall leaf_blank (view_members dir (Some o) σ')).
Proof.
  apply pyclass_mutind.
  - intros cid dir IH o σ [Ho Hin]. cbn [SettingsState___del__ view]. eauto.
  - intros o σ _ _. exists σ. split; [reflexivity|]. split; [apply popped_refl|constructor].
  - intros name sid rest IH o σ Ho Hin. cbn [inside_members] in Hin.
    cbn [del_loop]. unfold bind at 1.
    set (σ1 := set_descriptor sid (exec (Setting.remove o) (descriptor sid σ)) σ).
    assert (E1 : at_descriptor sid (Setting.remove o) σ = (Return tt, σ1)) by reflexivity.
    rewrite E1.
    pose proof (popped_remove_setting P sid o σ Ho) as Hp1. fold σ1 in Hp1.
    destruct (IH o σ1 Ho (proj2 (inside_popped_mutual P P) rest o σ σ1 Hp1 Hin))
      as (σ' & Hrun & Hp & Hb).
    exists σ'. split; [exact Hrun|]. split; [eapply popped_trans; eassumption|].
    cbn [view_members]. constructor; [|exact Hb].
    destruct Hp as (_ & Hd & _). destruct (Hd sid) as (_ & _ & Hi).
    destruct (Hi o) as [Hobj Hdirty].
    assert (Ho1 : Setting.objects (descriptor sid σ1) !! o = None).
    { unfold σ1. rewrite descriptor_set_eq. unfold exec, Setting.remove, bind, modify.
      simpl. apply lookup_delete_eq. }
    assert (Hd1 : Setting.dirty (descriptor sid σ1) !! o = None).
    { unfold σ1. rewrite descriptor_set_eq. unfold exec, Setting.remove, bind, modify.
      simpl. apply lookup_delete_eq. }
    split; simpl.
    + apply isset_false. destruct Hobj as [E|[_ E]]; congruence.
    + unfold Setting.isdirty. destruct Hdirty as [E|[_ E]]; rewrite E, ?Hd1; reflexivity.
  - intros name c IHc rest IH o σ Ho Hin. cbn [inside_members] in Hin.
    destruct Hin as [Hchild Hin].
    cbn [del_loop]. unfold bind at 1, gets at 1. unfold bind at 1.
    set (σ1 := set_cache (class_id c) (delete o (cache (class_id c) σ)) σ).
    assert (E1 : SettingsGroupMeta.remove c o σ = (Return tt, σ1)) by reflexivity.
    rewrite E1.
    pose proof (popped_remove_group P (class_id c) o σ Ho) as Hp1. fold σ1 in Hp1.
    assert (Hmid : ∃ σ2,
              (match cache (class_id c) σ !! o with
               | Some j =>
                   referenced <- gets (fun σ => live σ j);;
                   if referenced : bool then ret tt else SettingsState___del__ live c j
               | None => ret tt
               end) σ1 = (Return tt, σ2) ∧ popped P σ1 σ2).
    { destruct (cache (class_id c) σ !! o) as [j|].
      - unfold bind, gets. destruct (live σ1 j).
        + exists σ1. split; [reflexivity|apply popped_refl].
        + destruct (IHc j σ1 (proj1 (inside_popped_mutual P P) c j σ σ1 Hp1 Hchild))
            as (σ2 & Hrun2 & Hp2 & _).
          exists σ2. auto.
      - exists σ1. split; [reflexivity|apply popped_refl]. }
    destruct Hmid as (σ2 & Hrun2 & Hp2).
    unfold bind at 1. rewrite Hrun2.
    pose proof (popped_trans P _ _ _ Hp1 Hp2) as Hp12.
    destruct (IH o σ2 Ho (proj2 (inside_popped_mutual P P) rest o σ σ2 Hp12 Hin))
      as (σ' & Hrun & Hp & Hb).
    exists σ'. split; [exact Hrun|]. split; [eapply popped_trans; eassumption|].
    cbn [view_members]. apply Forall_app. split; [|exact Hb].
    assert (Hgone : child_of c (Some o) σ' = None).
    { simpl. pose proof (popped_trans P _ _ _ Hp2 Hp) as (_ & _ & Hc).
      destruct (Hc (class_id c) o) as [E|[_ E]]; rewrite E; [|reflexivity].
      unfold σ1. rewrite cache_set_cache_eq. apply lookup_delete_eq. }
    rewrite Hgone. apply Forall_fmap.
    eapply Forall_impl; [apply (proj1 view_None_blank_mutual)|].
    intros l Hl. exact Hl.
Qed.

(** X15: [__del__] always returns and makes the instance read as a new
    one: every [Setting] of its tree is unset and not dirty and its
    groups are looked up anew.  Whether or not the children it releases
    are finalized in turn, nothing is created, no committed value is
    removed ([get_old] answers as before for every instance, the
    finalized ones too), and the instances outside the tree below it
    are left as they were. *)
Theorem del_forgets_instance (live : store → oid → bool) (P : oid → Prop) cls o σ :
  inside P cls o σ →
  ∃ σ', SettingsState___del__ live cls o σ = (Return tt, σ') ∧
        next_id σ' = next_id σ ∧
        Forall leaf_blank (view cls (Some o) σ') ∧
        (∀ (sid : positive) (i : oid),
           Setting.get_old (descriptor sid σ') i = Setting.get_old (descriptor sid σ) i) ∧
        (∀ (sid : positive) (i : oid), ¬ P i →
           reading (descriptor sid σ') i = reading (descriptor sid σ) i) ∧
        (∀ (cid : positive) (i : oid), ¬ P i → cache cid σ' !! i = cache cid σ !! i).
Proof.
  intros Hin.
  destruct (proj1 (del_mutual live P) cls o σ Hin) as (σ' & Hrun & (Hn & Hd & Hc) & Hb).
  exists σ'. split; [exact Hrun|]. split; [exact Hn|]. split; [exact Hb|].
  split; [|split].
  - intros sid i. destruct (Hd sid) as (Hdef & Hold & _).
    unfold Setting.get_old. rewrite Hdef, Hold. reflexivity.
  - intros sid i Hi. destruct (Hd sid) as (Hdef & Hold & Hall).
    destruct (Hall i) as [[Ho|[HP _]] [Hy|[HP' _]]]; try contradiction.
    apply reading_same_at; congruence.
  - intros cid i Hi. destruct (Hc cid i) as [E|[HP _]]; [exact E|contradiction].
Qed.

(** The sample root is finalized with all its descendants. *)
Lemma del_forgets_instance_witness :
  ∃ σ', SettingsState___del__ (λ _ _, false) root_class 1 rate_set_store = (Return tt, σ') ∧
        next_id σ' = next_id rate_set_store ∧
        Forall leaf_blank (view root_class (Some 1%positive) σ') ∧
        (∀ (sid : positive) (i : oid),
           Setting.get_old (descriptor sid σ') i
           = Setting.get_old (descriptor sid rate_set_store) i) ∧
        (∀ (sid : positive) (i : oid), ¬ (i < 4)%positive →
           reading (descriptor sid σ') i = reading (descriptor sid rate_set_store) i) ∧
        (∀ (cid : positive) (i : oid), ¬ (i < 4)%positive →
           cache cid σ' !! i = cache cid rate_set_store !! i).
Proof.
  apply (del_forgets_instance (λ _ _, false) (λ i, (i < 4)%positive) root_class 1
           rate_set_store).
  apply (proj1 wf_inside_mutual root_class 1%positive rate_set_store).
  - apply (bool_decide_unpack _). vm_compute. exact I.
  - reflexivity.
Defined.

(** Finalization at work on the sample tree, where the codec (instance
    3) holds [rate = "v"]: when the children are collected with the
    root, the value goes with them; when something else refers to them,
    it stays. *)
Example del_cascade_sample :
  Setting.isset (descriptor 1 rate_set_store) 3 = true ∧
  Setting.isset
    (descriptor 1 (exec (SettingsState___del__ (λ _ _, false) root_class 1) rate_set_store))
    3 = false ∧
  Setting.isset
    (descriptor 1 (exec (SettingsState___del__ (λ _ _, true) root_class 1) rate_set_store))
    3 = true.
Proof. repeat split; vm_compute; reflexivity. Qed.

(** * Further properties of [cPickle] on settings trees *)

(** X16: loading a pickle never touches what exists: the instance it
    returns is new, and every instance that was there before reads the
    same afterwards on every tree, as do the declarations of all
    descriptors. *)
Theorem loads_leaves_existing cls σ o p σ1 :
  wf_store σ → (o < next_id σ)%positive →
  class_ok cls = true → settable_tree cls (Some o) σ →
  cPickle.dumps cls o σ = (Return p, σ1) →
  ∀ τ, wf_store τ → same_statics σ τ →
    ∃ τ', cPickle.loads p τ = (Return (next_id τ), τ') ∧
          (next_id τ < next_id τ')%positive ∧
          wf_store τ' ∧ same_statics τ τ' ∧
          ∀ cls' i, (i < next_id τ)%positive →
                    view cls' (Some i) τ' = view cls' (Some i) τ.
Proof.
  intros Hwf Ho Hok Hset Hdumps τ Hwfτ Hst.
  destruct (proj1 dumps_mutual cls σ o Hwf Ho (proj1 class_ok_distinct_mutual cls Hok))
    as (p' & σ1' & Hdumps' & He & Hwf1 & Hp).
  rewrite Hdumps in Hdumps'. injection Hdumps' as <- <-.
  assert (Hst1 : same_statics σ1 τ).
  { intros sid. rewrite (ext_descriptor _ _ sid He). apply Hst. }
  pose proof (proj1 settable_ext_mutual cls σ σ1 (Some o) Hwf He Hset) as Hset1.
  destruct (proj1 loads_mutual cls σ1 (Some o) p τ Hok Hp Hset1 Hst1 Hwfτ)
    as (τ' & Hloads & Ha & Hwf' & Hn & _).
  exists τ'. split; [exact Hloads|]. split; [exact Hn|]. split; [exact Hwf'|].
  split; [apply Ha|]. intros cls' i Hi.
  apply (proj1 (view_agree_mutual _) cls' τ τ' i Ha).
  apply (proj1 wf_inside_mutual); assumption.
Qed.

Lemma loads_leaves_existing_witness :
  result (cPickle.dumps root_class 1) rate_set_store = Return rate_pickle ∧
  ∀ τ, wf_store τ → same_statics rate_set_store τ →
    ∃ τ', cPickle.loads rate_pickle τ = (Return (next_id τ), τ') ∧
          (next_id τ < next_id τ')%positive ∧
          wf_store τ' ∧ same_statics τ τ' ∧
          ∀ cls' i, (i < next_id τ)%positive →
                    view cls' (Some i) τ' = view cls' (Some i) τ.
Proof.
  split; [vm_compute; reflexivity|].
  apply (loads_leaves_existing root_class rate_set_store 1 rate_pickle
           (exec (cPickle.dumps root_class 1) rate_set_store)).
  - apply (bool_decide_unpack _). vm_compute. exact I.
  - reflexivity.
  - reflexivity.
  - vm_compute. repeat split; reflexivity.
  - vm_compute. reflexivity.
Defined.

(** * Further properties of [ConfigurationManager] *)

(** X17: before [start], every other method of the manager raises the
    [RuntimeError] and does nothing else: no backend call, and [set]
    does not even pickle the object, so the store is left as it was. *)
Theorem manager_requires_start {B : Type} `{IBackend B} (w : world B)
    (section name : string) (cls : pyclass) (o : oid) :
  w_backend w = None →
  ConfigurationManager.set section name cls o w
    = (Raise ConfigurationManager.not_started, w) ∧
  ConfigurationManager.delete section name w
    = (Raise ConfigurationManager.not_started, w) ∧
  ConfigurationManager.get section name w
    = (Raise ConfigurationManager.not_started, w) ∧
  ConfigurationManager.get_names section w
    = (Raise ConfigurationManager.not_started, w) ∧
  ConfigurationManager.save w = (Raise ConfigurationManager.not_started, w).
Proof.
  intros Hb.
  unfold ConfigurationManager.set, ConfigurationManager.delete, ConfigurationManager.get,
    ConfigurationManager.get_names, ConfigurationManager.save,
    ConfigurationManager.check_started, bind, gets, raise.
  rewrite Hb. repeat split.
Qed.

Lemma manager_requires_start_witness :
  ConfigurationManager.set "accounts" "alice" root_class 1 unstarted_world
    = (Raise ConfigurationManager.not_started, unstarted_world) ∧
  ConfigurationManager.delete "accounts" "alice" unstarted_world
    = (Raise ConfigurationManager.not_started, unstarted_world) ∧
  ConfigurationManager.get "accounts" "alice" unstarted_world
    = (Raise ConfigurationManager.not_started, unstarted_world) ∧
  ConfigurationManager.get_names "accounts" unstarted_world
    = (Raise ConfigurationManager.not_started, unstarted_world) ∧
  ConfigurationManager.save unstarted_world
    = (Raise ConfigurationManager.not_started, unstarted_world).
Proof.
  apply (manager_requires_start unstarted_world "accounts" "alice" root_class 1).
  reflexivity.
Defined.

(** X18: [start] takes effect once: whatever the state of the manager,
    a [start] that follows a [start] raises the [RuntimeError] and
    changes nothing, and the backend in use is the one of the first
    [start] that found the manager without one. *)
Theorem manager_start_once {B : Type} (w : world B) (b b' : B) :
  ConfigurationManager.start b' (exec (ConfigurationManager.start b) w)
    = (Raise (RuntimeError "ConfigurationManager already started"),
       exec (ConfigurationManager.start b) w) ∧
  w_backend (exec (ConfigurationManager.start b) w) = Some (default b (w_backend w)).
Proof.
  unfold exec, ConfigurationManager.start, bind, gets, raise, modify.
  destruct (w_backend w) as [b0|] eqn:E; simpl; rewrite ?E; split; reflexivity.
Qed.




(** * Further properties of [SettingsObject] *)

Lemma get_modified_clean_run cls σ o :
  wf_store σ → (o < next_id σ)%positive → clean (view cls (Some o) σ) →
  ∃ σ1, SettingsState.get_modified cls o σ = (Return [], σ1) ∧ ext σ σ1 ∧ wf_store σ1.
Proof.
  intros Hwf Ho Hc.
  destruct (get_modified_spec cls σ o Hwf Ho) as (m & σ1 & Hget & He & Hwf1 & Hm).
  apply clean_dirty_leaves in Hc. rewrite Hc in Hm. simpl in Hm. subst m. eauto.
Qed.

Lemma get_modified_nil_clean cls σ o σ1 :
  wf_store σ → (o < next_id σ)%positive →
  SettingsState.get_modified cls o σ = (Return [], σ1) → clean (view cls (Some o) σ).
Proof.
  intros Hwf Ho Hrun. apply clean_dirty_leaves.
  destruct (dirty_leaves (view cls (Some o) σ)) as [|l ls] eqn:E; [reflexivity|].
  exfalso. eapply (proj1 get_modified_nonempty_mutual cls σ o [] σ1 Hwf Ho Hrun);
    [rewrite E; discriminate|reflexivity].
Qed.

(** [save] on a tree without dirty settings. *)
Lemma save_clean_run {B : Type} `{IBackend B} (sc : settings_class)
    (self : settings_object) (w : world B) :
  wf_store (w_store w) → (so_self self < next_id (w_store w))%positive →
  clean (view (so_class sc) (Some (so_self self)) (w_store w)) →
  ∃ σ1, SettingsObject.save sc self w
          = (Return tt, World σ1 (w_backend w) (w_calls w) (w_posted w) (w_instances w)) ∧
        ext (w_store w) σ1 ∧ wf_store σ1.
Proof.
  intros Hwf Ho Hc.
  destruct (get_modified_clean_run _ _ _ Hwf Ho Hc) as (σ1 & Hget & He & Hwf1).
  exists σ1. split; [|auto].
  unfold SettingsObject.save, bind, in_store. rewrite Hget. reflexivity.
Qed.

(** [save] on a tree with modified settings, from the run of its
    persistence step. *)
Lemma save_modified_run {B : Type} `{IBackend B} (sc : settings_class)
    (self : settings_object) (w w2 : world B) (m : dict ModifiedValue) (σ1 : store)
    (r : outcome unit) :
  SettingsState.get_modified (so_class sc) (so_self self) (w_store w) = (Return m, σ1) →
  m ≠ [] →
  SettingsObject.persist sc self
    (World σ1 (w_backend w) (w_calls w) (w_posted w) (w_instances w)) = (r, w2) →
  wf_store (w_store w2) → (so_self self < next_id (w_store w2))%positive →
  ∃ σ3, SettingsObject.save sc self w
          = (Return tt,
             World σ3 (w_backend w2) (w_calls w2)
               (w_posted w2
                ++ match r with
                   | Return _ => []
                   | Raise e => [CFGManagerSaveFailed (so_self self) m e]
                   end ++ [CFGSettingsDidChange (so_self self) m])
               (w_instances w2)) ∧
        settles (w_store w2) σ3 ∧ wf_store σ3 ∧
        clean (view (so_class sc) (Some (so_self self)) σ3).
Proof.
  intros Hget Hm Hp Hwf2 Ho2.
  destruct (clear_dirty_spec (so_class sc) (w_store w2) (so_self self) Hwf2 Ho2)
    as (σ3 & Hclear & Hs3 & Hwf3 & Hclean).
  exists σ3. split; [|auto].
  unfold SettingsObject.save, bind at 1, in_store at 1. rewrite Hget.
  destruct m as [|kv m]; [congruence|].
  unfold try_finally, try_except. rewrite Hp.
  destruct r as [[]|e].
  - unfold bind, post_notification, modify, in_store. simpl. rewrite Hclear.
    reflexivity.
  - unfold bind, post_notification, modify, in_store. simpl. rewrite Hclear.
    rewrite <- app_assoc. reflexivity.
Qed.

(** [save] always returns, and leaves a well-formed store in which no
    setting of the tree is dirty. *)
Lemma save_end_state {B : Type} `{IBackend B} (sc : settings_class)
    (self : settings_object) (w : world B) :
  wf_store (w_store w) → (so_self self < next_id (w_store w))%positive →
  names_distinct (so_class sc) = true →
  ∃ w', SettingsObject.save sc self w = (Return tt, w') ∧
        wf_store (w_store w') ∧ (so_self self < next_id (w_store w'))%positive ∧
        clean (view (so_class sc) (Some (so_self self)) (w_store w')).
Proof.
  intros Hwf Ho Hd.
  destruct (get_modified_spec (so_class sc) (w_store w) (so_self self) Hwf Ho)
    as (m & σ1 & Hget & He1 & Hwf1 & _).
  destruct m as [|kv m].
  - pose proof (get_modified_nil_clean _ _ _ _ Hwf Ho Hget) as Hc.
    destruct (save_clean_run sc self w Hwf Ho Hc) as (σ1' & Hrun & He & Hwf').
    eexists. split; [exact Hrun|]. simpl. split; [exact Hwf'|].
    split; [pose proof (ext_next _ _ He); lia|].
    rewrite (view_ext _ _ _ _ Hwf He). exact Hc.
  - set (w1 := World σ1 (w_backend w) (w_calls w) (w_posted w) (w_instances w)).
    destruct (SettingsObject.persist sc self w1) as [r w2] eqn:Hp.
    destruct (calm_persist sc self Hd w1 r w2 Hp) as [_ Hstore].
    destruct Hstore as [Hwf2 He2]; [exact Hwf1|simpl; pose proof (ext_next _ _ He1); lia|].
    simpl in He2.
    assert (Ho2 : (so_self self < next_id (w_store w2))%positive).
    { pose proof (ext_next _ _ He1). pose proof (ext_next _ _ He2). lia. }
    destruct (save_modified_run sc self w w2 (kv :: m) σ1 r Hget ltac:(discriminate)
                Hp Hwf2 Ho2) as (σ3 & Hrun & Hs3 & Hwf3 & Hclean).
    eexists. split; [exact Hrun|]. simpl. split; [exact Hwf3|]. split; [|exact Hclean].
    pose proof (settles_next _ _ Hs3). lia.
Qed.



(** X21: [save] never raises, and a second [save] right after it is
    silent, whatever the backend did the first time: it returns, calls
    no method of the backend and posts nothing.  A change that the
    backend failed to store is therefore not retried. *)
Theorem save_twice_silent {B : Type} `{IBackend B} (sc : settings_class)
    (self : settings_object) (w : world B) :
  wf_store (w_store w) → (so_self self < next_id (w_store w))%positive →
  names_distinct (so_class sc) = true →
  result (SettingsObject.save sc self) w = Return tt ∧
  result (SettingsObject.save sc self) (exec (SettingsObject.save sc self) w)
    = Return tt ∧
  w_backend (exec (SettingsObject.save sc self) (exec (SettingsObject.save sc self) w))
    = w_backend (exec (SettingsObject.save sc self) w) ∧
  w_calls (exec (SettingsObject.save sc self) (exec (SettingsObject.save sc self) w))
    = w_calls (exec (SettingsObject.save sc self) w) ∧
  w_posted (exec (SettingsObject.save sc self) (exec (SettingsObject.save sc self) w))
    = w_posted (exec (SettingsObject.save sc self) w).
Proof.
  intros Hwf Ho Hd.
  destruct (save_end_state sc self w Hwf Ho Hd) as (w1 & Hrun & Hwf1 & Ho1 & Hc1).
  destruct (save_clean_run sc self w1 Hwf1 Ho1 Hc1) as (σ2 & Hrun2 & _).
  unfold result, exec. rewrite Hrun. simpl. rewrite Hrun2. simpl. repeat split.
Qed.

Lemma save_twice_silent_witness :
  result (SettingsObject.save account_class alice) failing_world = Return tt ∧
  result (SettingsObject.save account_class alice)
    (exec (SettingsObject.save account_class alice) failing_world) = Return tt ∧
  w_backend (exec (SettingsObject.save account_class alice)
               (exec (SettingsObject.save account_class alice) failing_world))
    = w_backend (exec (SettingsObject.save account_class alice) failing_world) ∧
  w_calls (exec (SettingsObject.save account_class alice)
             (exec (SettingsObject.save account_class alice) failing_world))
    = w_calls (exec (SettingsObject.save account_class alice) failing_world) ∧
  w_posted (exec (SettingsObject.save account_class alice)
              (exec (SettingsObject.save account_class alice) failing_world))
    = w_posted (exec (SettingsObject.save account_class alice) failing_world).
Proof.
  apply (save_twice_silent account_class alice failing_world).
  - apply (bool_decide_unpack _). vm_compute. exact I.
  - reflexivity.
  - reflexivity.
Defined.

(** X22: when nothing can be persisted, because the class has no
    [__section__] or because the manager was not started, [save] with
    modified settings still returns, makes no backend call, posts
    [CFGSettingsDidChange] (after a [CFGManagerSaveFailed] that carries
    the [RuntimeError] when there is a section but no started manager)
    and clears the dirty flags of the tree. *)
Theorem save_without_persistence {B : Type} `{IBackend B} (sc : settings_class)
    (self : settings_object) (w : world B) (m : dict ModifiedValue) (σ1 : store) :
  wf_store (w_store w) → (so_self self < next_id (w_store w))%positive →
  SettingsState.get_modified (so_class sc) (so_self self) (w_store w) = (Return m, σ1) →
  m ≠ [] →
  __section__ sc = None ∨ w_backend w = None →
  result (SettingsObject.save sc self) w = Return tt ∧
  w_backend (exec (SettingsObject.save sc self) w) = w_backend w ∧
  w_calls (exec (SettingsObject.save sc self) w) = w_calls w ∧
  w_posted (exec (SettingsObject.save sc self) w)
    = w_posted w
      ++ match __section__ sc with
         | None => []
         | Some _ => [CFGManagerSaveFailed (so_self self) m ConfigurationManager.not_started]
         end
      ++ [CFGSettingsDidChange (so_self self) m] ∧
  clean (view (so_class sc) (Some (so_self self))
           (w_store (exec (SettingsObject.save sc self) w))).
Proof.
  intros Hwf Ho Hget Hm Hcase.
  destruct (get_modified_spec (so_class sc) (w_store w) (so_self self) Hwf Ho)
    as (m' & σ1' & Hget' & He1 & Hwf1 & _).
  rewrite Hget in Hget'. injection Hget' as <- <-.
  set (w1 := World σ1 (w_backend w) (w_calls w) (w_posted w) (w_instances w)).
  assert (Ho1 : (so_self self < next_id σ1)%positive)
    by (pose proof (ext_next _ _ He1); lia).
  assert (Hp : SettingsObject.persist sc self w1
               = (match __section__ sc with
                  | None => Return tt
                  | Some _ => Raise ConfigurationManager.not_started
                  end, w1)).
  { unfold SettingsObject.persist. destruct (__section__ sc) as [section|] eqn:Es.
    - destruct Hcase as [?|Hb]; [discriminate|].
      unfold bind, ConfigurationManager.set, ConfigurationManager.check_started,
        bind, gets, raise. simpl. rewrite Hb. reflexivity.
    - reflexivity. }
  destruct (save_modified_run sc self w w1 m σ1 _ Hget Hm Hp Hwf1 Ho1)
    as (σ3 & Hrun & _ & _ & Hclean).
  unfold result, exec. rewrite Hrun. simpl.
  split; [reflexivity|]. split; [reflexivity|]. split; [reflexivity|].
  split; [|exact Hclean]. destruct (__section__ sc); reflexivity.
Qed.

Lemma save_without_persistence_witness :
  result (SettingsObject.save account_class alice) unstarted_world = Return tt ∧
  w_backend (exec (SettingsObject.save account_class alice) unstarted_world)
    = w_backend unstarted_world ∧
  w_calls (exec (SettingsObject.save account_class alice) unstarted_world)
    = w_calls unstarted_world ∧
  w_posted (exec (SettingsObject.save account_class alice) unstarted_world)
    = w_posted unstarted_world
      ++ match __section__ account_class with
         | None => []
         | Some _ =>
             [CFGManagerSaveFailed (so_self alice)
                [("audio.codec.rate", mkModifiedValue (VStr "d") (VStr "v"))]
                ConfigurationManager.not_started]
         end
      ++ [CFGSettingsDidChange (so_self alice)
            [("audio.codec.rate", mkModifiedValue (VStr "d") (VStr "v"))]] ∧
  clean (view (so_class account_class) (Some (so_self alice))
           (w_store (exec (SettingsObject.save account_class alice) unstarted_world))).
Proof.
  apply (save_without_persistence account_class alice unstarted_world
           [("audio.codec.rate", mkModifiedValue (VStr "d") (VStr "v"))]
           (exec (SettingsState.get_modified root_class 1) rate_set_store)).
  - apply (bool_decide_unpack _). vm_compute. exact I.
  - reflexivity.
  - vm_compute. reflexivity.
  - discriminate.
  - right. reflexivity.
Defined.

Lemma unregister_others (self : oid) (l : list (option string * oid))
    (kv : option string * oid) :
  kv.2 ≠ self → kv ∈ SettingsObject.unregister self l ↔ kv ∈ l.
Proof.
  intros Hne. induction l as [|[key v] rest IH]; [reflexivity|].
  cbn [SettingsObject.unregister]. destruct (Pos.eqb_spec v self) as [->|Hv].
  - rewrite elem_of_cons. split; [auto|]. intros [->|Hin]; [|exact Hin].
    simpl in Hne. contradiction.
  - rewrite !elem_of_cons, IH. reflexivity.
Qed.

(** X23: [delete] of an instance that does not carry the class's own
    [__id__] object takes the instance out of the registry of its class
    before it turns to the backend, so the entry is gone whether the
    backend call returns or raises; the entries of the other instances
    and the registries of the other classes stay, as do the store and
    the notifications.  Without a [__section__] this is all it does. *)
Theorem delete_unregisters {B : Type} `{IBackend B} (sc : settings_class)
    (self : settings_object) (w w' : world B) (r : outcome unit) :
  is_ (so___id__ self) (__id__ sc) = false →
  SettingsObject.delete sc self w = (r, w') →
  w_instances w' !!! class_id (so_class sc)
    = SettingsObject.unregister (so_self self) (w_instances w !!! class_id (so_class sc)) ∧
  (∀ kv, kv.2 ≠ so_self self →
         kv ∈ w_instances w' !!! class_id (so_class sc)
         ↔ kv ∈ w_instances w !!! class_id (so_class sc)) ∧
  (∀ cid, cid ≠ class_id (so_class sc) → w_instances w' !! cid = w_instances w !! cid) ∧
  w_store w' = w_store w ∧ w_posted w' = w_posted w ∧
  (__section__ sc = None →
   r = Return tt ∧ w_backend w' = w_backend w ∧ w_calls w' = w_calls w).
Proof.
  intros His Hrun.
  set (reg := <[class_id (so_class sc) :=
                  SettingsObject.unregister (so_self self)
                    (w_instances w !!! class_id (so_class sc))]> (w_instances w)).
  assert (Hw' : w_instances w' = reg ∧ w_store w' = w_store w ∧ w_posted w' = w_posted w ∧
                (__section__ sc = None →
                 r = Return tt ∧ w_backend w' = w_backend w ∧ w_calls w' = w_calls w)).
  { unfold SettingsObject.delete in Hrun. rewrite His in Hrun.
    unfold bind at 1, modify at 1 in Hrun. fold reg in Hrun.
    destruct (__section__ sc) as [section|].
    - unfold bind, try_except, ConfigurationManager.delete, ConfigurationManager.save,
        ConfigurationManager.check_started, ConfigurationManager.call, bind, gets, ret,
        raise in Hrun.
      simpl in Hrun. destruct (w_backend w) as [b|]; simpl in Hrun.
      + destruct (backend_delete section (str_chars (so___id__ self)) b)
          as [[[]|e] b1]; simpl in Hrun.
        * destruct (backend_save b1) as [r2 b2]. injection Hrun as <- <-.
          simpl. repeat split; discriminate.
        * destruct e; injection Hrun as <- <-; simpl; repeat split; discriminate.
      + injection Hrun as <- <-. simpl. repeat split; discriminate.
    - injection Hrun as <- <-. simpl. repeat split. }
  destruct Hw' as (Hreg & Hs & Hp & Hnone).
  assert (Hhere : w_instances w' !!! class_id (so_class sc)
                  = SettingsObject.unregister (so_self self)
                      (w_instances w !!! class_id (so_class sc))).
  { rewrite Hreg. unfold reg. apply lookup_total_insert_eq. }
  split; [exact Hhere|]. split.
  { intros kv Hkv. rewrite Hhere. apply unregister_others, Hkv. }
  split; [|auto].
  intros cid Hcid. rewrite Hreg. unfold reg. apply lookup_insert_ne. congruence.
Qed.

Lemma delete_unregisters_witness :
  w_instances (exec (SettingsObject.delete account_class lookalike_account) registered_world)
    !!! class_id (so_class account_class)
    = SettingsObject.unregister (so_self lookalike_account)
        (w_instances registered_world !!! class_id (so_class account_class)) ∧
  (∀ kv, kv.2 ≠ so_self lookalike_account →
         kv ∈ w_instances (exec (SettingsObject.delete account_class lookalike_account)
                             registered_world) !!! class_id (so_class account_class)
         ↔ kv ∈ w_instances registered_world !!! class_id (so_class account_class)) ∧
  (∀ cid, cid ≠ class_id (so_class account_class) →
          w_instances (exec (SettingsObject.delete account_class lookalike_account)
                         registered_world) !! cid
          = w_instances registered_world !! cid) ∧
  w_store (exec (SettingsObject.delete account_class lookalike_account) registered_world)
    = w_store registered_world ∧
  w_posted (exec (SettingsObject.delete account_class lookalike_account) registered_world)
    = w_posted registered_world ∧
  (__section__ account_class = None →
   result (SettingsObject.delete account_class lookalike_account) registered_world
     = Return tt ∧
   w_backend (exec (SettingsObject.delete account_class lookalike_account) registered_world)
     = w_backend registered_world ∧
   w_calls (exec (SettingsObject.delete account_class lookalike_account) registered_world)
     = w_calls registered_world).
Proof.
  apply (delete_unregisters account_class lookalike_account registered_world).
  - reflexivity.
  - unfold result, exec.
    destruct (SettingsObject.delete account_class lookalike_account registered_world).
    reflexivity.
Defined.

(** X24: with a [__section__] and a started manager, [delete] calls the
    backend's [delete] once and then [save] exactly when that call
    returned.  [UnknownSectionError] is the only exception it swallows
    ([delete] then returns without saving); any other exception of the
    backend's [delete], and any exception of its [save], is raised to
    the caller. *)
Theorem delete_backend_outcome {B : Type} `{IBackend B} (sc : settings_class)
    (self : settings_object) (w : world B) (section : string) (b b1 : B)
    (r1 : outcome unit) :
  is_ (so___id__ self) (__id__ sc) = false →
  __section__ sc = Some section →
  w_backend w = Some b →
  backend_delete section (str_chars (so___id__ self)) b = (r1, b1) →
  result (SettingsObject.delete sc self) w
    = match r1 with
      | Return _ => fst (backend_save b1)
      | Raise UnknownSectionError => Return tt
      | Raise e => Raise e
      end ∧
  w_calls (exec (SettingsObject.delete sc self) w)
    = w_calls w ++ CallDelete section (str_chars (so___id__ self))
                   :: match r1 with Return _ => [CallSave] | Raise _ => [] end ∧
  w_backend (exec (SettingsObject.delete sc self) w)
    = Some match r1 with Return _ => snd (backend_save b1) | Raise _ => b1 end.
Proof.
  intros His Hsec Hb Hdel.
  unfold result, exec, SettingsObject.delete. rewrite His, Hsec.
  unfold bind, modify, try_except, ConfigurationManager.delete, ConfigurationManager.save,
    ConfigurationManager.check_started, ConfigurationManager.call, bind, gets, ret, raise.
  simpl. rewrite Hb. simpl. rewrite Hdel.
  destruct r1 as [[]|e]; simpl.
  - destruct (backend_save b1) as [r2 b2]. simpl. rewrite <- app_assoc. auto.
  - destruct e; simpl; auto.
Qed.

Lemma delete_backend_outcome_witness :
  result (SettingsObject.delete account_class lookalike_account) registered_world
    = Return tt ∧
  w_calls (exec (SettingsObject.delete account_class lookalike_account) registered_world)
    = w_calls registered_world ++ [CallDelete "accounts" "default"] ∧
  w_backend (exec (SettingsObject.delete account_class lookalike_account) registered_world)
    = Some (MemoryBackend ∅ false).
Proof.
  apply (delete_backend_outcome account_class lookalike_account registered_world
           "accounts" (MemoryBackend ∅ false) (MemoryBackend ∅ false)
           (Raise UnknownSectionError)); reflexivity.
Defined.
